(** * Position lifecycle and exit-decision engine

    A shallow embedding of [models.py], [position_manager.py], the parts of
    [coinbase_client.py] the engine calls, and the [/webhook] endpoint of
    [main.py], followed by the properties of the written specification that
    can be stated over it.

    Conventions.
    - A Python [float] is an IEEE-754 binary64 number: Rocq's primitive
      [float], with the same rounding, the same comparisons (every comparison
      with NaN is false) and the same signed zeros.  Python raises
      [ZeroDivisionError] on a float division by [0.0] or [-0.0]; the other
      operations never raise.
    - A Python [dict] is an insertion-ordered association list without
      duplicate keys ([dict_set] overwrites in place, as [d[k] = v] does).
    - [Position] objects are mutable and shared between the position set and
      the local variables of the engine, so they live in a heap and the
      position set stores references.
    - Every coroutine of the engine runs to completion without a suspension
      point (the only real [await] is the sleep of the monitor loop), so a
      call is one atomic state transformer; the feed callback runs between
      two calls, as the cooperative scheduling of the source has it. *)

From Stdlib Require Import ZArith String List Bool Floats Lia.
From Stdlib Require Import DecimalString DecimalNat.
From stdpp Require Import base option list.

Import ListNotations.
Local Open Scope string_scope.
Local Open Scope list_scope.

(** ** Library interface: [datetime]

    [datetime.isoformat], [datetime.fromisoformat] and [datetime.utcnow]
    belong to the Python standard library; the engine only stores and
    forwards timestamps, so they are taken as an interface. *)

Class TimeLib := {
  datetime : Type;
  isoformat : datetime -> string;
  fromisoformat : string -> option datetime
}.

(** ** Exceptions and results *)

Inductive exn :=
| ZeroDivisionError
| AttributeError
| KeyError
| TypeError
| ValueError
| FileNotFoundError
| OSError
| GatewayError
| HTTPException (status_code : nat).

Inductive result (A : Type) :=
| Ok (a : A)
| Raise (e : exn).

Arguments Ok {A} a.
Arguments Raise {A} e.

(** ** [models.py]: enumerations *)

Inductive Action := LONG | SHORT | EXIT_LONG | EXIT_SHORT | CLOSE_ALL.

Inductive ExitReason := STOP_LOSS | TAKE_PROFIT | TRAILING_STOP | MANUAL | SIGNAL.

Inductive PositionStatus := ACTIVE | TRAILING | CLOSED.

Definition Action_value (a : Action) : string :=
  match a with
  | LONG => "LONG"
  | SHORT => "SHORT"
  | EXIT_LONG => "EXIT_LONG"
  | EXIT_SHORT => "EXIT_SHORT"
  | CLOSE_ALL => "CLOSE_ALL"
  end.

Definition ExitReason_value (r : ExitReason) : string :=
  match r with
  | STOP_LOSS => "STOP_LOSS"
  | TAKE_PROFIT => "TAKE_PROFIT"
  | TRAILING_STOP => "TRAILING_STOP"
  | MANUAL => "MANUAL"
  | SIGNAL => "SIGNAL"
  end.

Definition PositionStatus_value (s : PositionStatus) : string :=
  match s with
  | ACTIVE => "ACTIVE"
  | TRAILING => "TRAILING"
  | CLOSED => "CLOSED"
  end.

(** [PositionStatus(text)]: the member with that value, [ValueError]
    otherwise. *)
Definition PositionStatus_of_value (s : string) : result PositionStatus :=
  if String.eqb s "ACTIVE" then Ok ACTIVE
  else if String.eqb s "TRAILING" then Ok TRAILING
  else if String.eqb s "CLOSED" then Ok CLOSED
  else Raise ValueError.

(** ** Python float operations *)

Definition float_le (x y : float) : Prop := PrimFloat.leb x y = true.
Definition float_lt (x y : float) : Prop := PrimFloat.ltb x y = true.

(** [x / y] on floats. *)
Definition py_div (x y : float) : result float :=
  if PrimFloat.eqb y 0%float then Raise ZeroDivisionError
  else Ok (x / y)%float.

(** [x != y] on floats. *)
Definition py_ne (x y : float) : bool := negb (PrimFloat.eqb x y).

(** ** [models.py]: the [Position] dataclass *)

Section Models.
Context {T : TimeLib}.

Record Position := {
  position_id : string;
  product_id : string;
  side : string;
  size : float;
  entry_price : float;
  current_price : float;
  stop_loss_price : float;
  take_profit_price : float;
  trailing_activation_price : float;
  trailing_distance_pct : float;
  status : PositionStatus;
  trailing_active : bool;
  trailing_stop_price : float;
  opened_at : datetime;
  closed_at : option datetime;
  exit_reason : option ExitReason;
  pnl : float;
  pnl_pct : float
}.

(** Attribute assignments [self.f = v]. *)

Definition set_current_price (v : float) (p : Position) : Position :=
  {| position_id := position_id p; product_id := product_id p; side := side p;
     size := size p; entry_price := entry_price p; current_price := v;
     stop_loss_price := stop_loss_price p;
     take_profit_price := take_profit_price p;
     trailing_activation_price := trailing_activation_price p;
     trailing_distance_pct := trailing_distance_pct p; status := status p;
     trailing_active := trailing_active p;
     trailing_stop_price := trailing_stop_price p; opened_at := opened_at p;
     closed_at := closed_at p; exit_reason := exit_reason p; pnl := pnl p;
     pnl_pct := pnl_pct p |}.

Definition set_status (v : PositionStatus) (p : Position) : Position :=
  {| position_id := position_id p; product_id := product_id p; side := side p;
     size := size p; entry_price := entry_price p;
     current_price := current_price p; stop_loss_price := stop_loss_price p;
     take_profit_price := take_profit_price p;
     trailing_activation_price := trailing_activation_price p;
     trailing_distance_pct := trailing_distance_pct p; status := v;
     trailing_active := trailing_active p;
     trailing_stop_price := trailing_stop_price p; opened_at := opened_at p;
     closed_at := closed_at p; exit_reason := exit_reason p; pnl := pnl p;
     pnl_pct := pnl_pct p |}.

Definition set_trailing_active (v : bool) (p : Position) : Position :=
  {| position_id := position_id p; product_id := product_id p; side := side p;
     size := size p; entry_price := entry_price p;
     current_price := current_price p; stop_loss_price := stop_loss_price p;
     take_profit_price := take_profit_price p;
     trailing_activation_price := trailing_activation_price p;
     trailing_distance_pct := trailing_distance_pct p; status := status p;
     trailing_active := v;
     trailing_stop_price := trailing_stop_price p; opened_at := opened_at p;
     closed_at := closed_at p; exit_reason := exit_reason p; pnl := pnl p;
     pnl_pct := pnl_pct p |}.

Definition set_trailing_stop_price (v : float) (p : Position) : Position :=
  {| position_id := position_id p; product_id := product_id p; side := side p;
     size := size p; entry_price := entry_price p;
     current_price := current_price p; stop_loss_price := stop_loss_price p;
     take_profit_price := take_profit_price p;
     trailing_activation_price := trailing_activation_price p;
     trailing_distance_pct := trailing_distance_pct p; status := status p;
     trailing_active := trailing_active p;
     trailing_stop_price := v; opened_at := opened_at p;
     closed_at := closed_at p; exit_reason := exit_reason p; pnl := pnl p;
     pnl_pct := pnl_pct p |}.

Definition set_closed_at (v : option datetime) (p : Position) : Position :=
  {| position_id := position_id p; product_id := product_id p; side := side p;
     size := size p; entry_price := entry_price p;
     current_price := current_price p; stop_loss_price := stop_loss_price p;
     take_profit_price := take_profit_price p;
     trailing_activation_price := trailing_activation_price p;
     trailing_distance_pct := trailing_distance_pct p; status := status p;
     trailing_active := trailing_active p;
     trailing_stop_price := trailing_stop_price p; opened_at := opened_at p;
     closed_at := v; exit_reason := exit_reason p; pnl := pnl p;
     pnl_pct := pnl_pct p |}.

Definition set_exit_reason (v : option ExitReason) (p : Position) : Position :=
  {| position_id := position_id p; product_id := product_id p; side := side p;
     size := size p; entry_price := entry_price p;
     current_price := current_price p; stop_loss_price := stop_loss_price p;
     take_profit_price := take_profit_price p;
     trailing_activation_price := trailing_activation_price p;
     trailing_distance_pct := trailing_distance_pct p; status := status p;
     trailing_active := trailing_active p;
     trailing_stop_price := trailing_stop_price p; opened_at := opened_at p;
     closed_at := closed_at p; exit_reason := v; pnl := pnl p;
     pnl_pct := pnl_pct p |}.

Definition set_pnl (v : float) (p : Position) : Position :=
  {| position_id := position_id p; product_id := product_id p; side := side p;
     size := size p; entry_price := entry_price p;
     current_price := current_price p; stop_loss_price := stop_loss_price p;
     take_profit_price := take_profit_price p;
     trailing_activation_price := trailing_activation_price p;
     trailing_distance_pct := trailing_distance_pct p; status := status p;
     trailing_active := trailing_active p;
     trailing_stop_price := trailing_stop_price p; opened_at := opened_at p;
     closed_at := closed_at p; exit_reason := exit_reason p; pnl := v;
     pnl_pct := pnl_pct p |}.

Definition set_pnl_pct (v : float) (p : Position) : Position :=
  {| position_id := position_id p; product_id := product_id p; side := side p;
     size := size p; entry_price := entry_price p;
     current_price := current_price p; stop_loss_price := stop_loss_price p;
     take_profit_price := take_profit_price p;
     trailing_activation_price := trailing_activation_price p;
     trailing_distance_pct := trailing_distance_pct p; status := status p;
     trailing_active := trailing_active p;
     trailing_stop_price := trailing_stop_price p; opened_at := opened_at p;
     closed_at := closed_at p; exit_reason := exit_reason p; pnl := pnl p;
     pnl_pct := v |}.

(** [self.side == "LONG"]; every other string takes the [else] branch that
    the source comments as SHORT. *)
Definition is_long (p : Position) : bool := String.eqb (side p) "LONG".

(** [Position.update_pnl].  [self.pnl] is assigned before the division by
    [entry_price] can raise, so the object is returned in both cases. *)
Definition update_pnl (p : Position) : result unit * Position :=
  if is_long p then
    let p1 := set_pnl ((current_price p - entry_price p) * size p)%float p in
    match py_div (current_price p1 - entry_price p1)%float (entry_price p1) with
    | Ok q => (Ok tt, set_pnl_pct (q * 100)%float p1)
    | Raise e => (Raise e, p1)
    end
  else
    let p1 := set_pnl ((entry_price p - current_price p) * size p)%float p in
    match py_div (entry_price p1 - current_price p1)%float (entry_price p1) with
    | Ok q => (Ok tt, set_pnl_pct (q * 100)%float p1)
    | Raise e => (Raise e, p1)
    end.

(** [Position.should_stop_loss]. *)
Definition should_stop_loss (p : Position) : bool :=
  if is_long p then PrimFloat.leb (current_price p) (stop_loss_price p)
  else PrimFloat.leb (stop_loss_price p) (current_price p).

(** [Position.should_take_profit]. *)
Definition should_take_profit (p : Position) : bool :=
  if is_long p then PrimFloat.leb (take_profit_price p) (current_price p)
  else PrimFloat.leb (current_price p) (take_profit_price p).

(** [Position.should_activate_trailing]. *)
Definition should_activate_trailing (p : Position) : bool :=
  if trailing_active p then false
  else if is_long p then
    PrimFloat.leb (trailing_activation_price p) (current_price p)
  else PrimFloat.leb (current_price p) (trailing_activation_price p).

(** The candidate stop computed from the current price:
    [current * (1 - d / 100)] for LONG, [current * (1 + d / 100)] otherwise. *)
Definition candidate_stop (p : Position) : float :=
  if is_long p then
    (current_price p * (1 - trailing_distance_pct p / 100))%float
  else
    (current_price p * (1 + trailing_distance_pct p / 100))%float.

(** [Position.update_trailing_stop]. *)
Definition update_trailing_stop (p : Position) : Position :=
  if negb (trailing_active p) then p
  else if is_long p then
    let new_stop := (current_price p * (1 - trailing_distance_pct p / 100))%float in
    if PrimFloat.ltb (trailing_stop_price p) new_stop
    then set_trailing_stop_price new_stop p
    else p
  else
    let new_stop := (current_price p * (1 + trailing_distance_pct p / 100))%float in
    if PrimFloat.ltb new_stop (trailing_stop_price p)
       || PrimFloat.eqb (trailing_stop_price p) 0%float
    then set_trailing_stop_price new_stop p
    else p.

(** Successive price updates, each followed by a call of the ratchet. *)
Definition ratchet_over (prices : list float) (p : Position) : Position :=
  fold_left (fun q c => update_trailing_stop (set_current_price c q)) prices p.

(** Two states of a position with the same identifier, side, current
    price, stop-loss level and take-profit level. *)
Definition same_levels (p q : Position) : Prop :=
  position_id q = position_id p /\
  side q = side p /\
  current_price q = current_price p /\
  stop_loss_price q = stop_loss_price p /\
  take_profit_price q = take_profit_price p.

(** [Position.should_trailing_stop]. *)
Definition should_trailing_stop (p : Position) : bool :=
  if negb (trailing_active p) then false
  else if is_long p then PrimFloat.leb (current_price p) (trailing_stop_price p)
  else PrimFloat.leb (trailing_stop_price p) (current_price p).

End Models.

Arguments Position {T}.

(** ** Python dictionaries

    Insertion-ordered; assigning to a present key keeps its place. *)

Definition dict (V : Type) := list (string * V).

Fixpoint dict_get {V : Type} (k : string) (d : dict V) : option V :=
  match d with
  | [] => None
  | (k', v) :: d' => if String.eqb k k' then Some v else dict_get k d'
  end.

Fixpoint dict_set {V : Type} (k : string) (v : V) (d : dict V) : dict V :=
  match d with
  | [] => [(k, v)]
  | (k', v') :: d' =>
      if String.eqb k k' then (k', v) :: d' else (k', v') :: dict_set k v d'
  end.

(** [d.pop(k, None)]: the dictionary without the key. *)
Fixpoint dict_del {V : Type} (k : string) (d : dict V) : dict V :=
  match d with
  | [] => []
  | (k', v') :: d' =>
      if String.eqb k k' then d' else (k', v') :: dict_del k d'
  end.

Definition dict_keys {V : Type} (d : dict V) : list string := map fst d.
Definition dict_values {V : Type} (d : dict V) : list V := map snd d.

(** The invariant of a Python dictionary: keys are pairwise distinct. *)
Definition dict_wf {V : Type} (d : dict V) : Prop := NoDup (dict_keys d).

(** ** The position store

    The JSON document of [Config.POSITIONS_FILE] as [_load_positions] can
    tell it apart.  A field that is present carries the JSON type that
    [_save_positions] writes for it (the dataclass annotation); it may be
    absent, and the two textual fields may hold any text.  A document in
    which a present field has another JSON type is not represented: Python
    would build from it a [Position] that violates its annotations.  The
    keys of a mapping are pairwise distinct, as [json.load] returns a
    dictionary.  Numbers are kept as floats: [json.dump] prints a float
    with [repr], which [json.load] reads back to the same float (NaN and
    the infinities included). *)

Record StoredRecord := {
  r_position_id : option string;
  r_product_id : option string;
  r_side : option string;
  r_size : option float;
  r_entry_price : option float;
  r_current_price : option float;
  r_stop_loss_price : option float;
  r_take_profit_price : option float;
  r_trailing_activation_price : option float;
  r_trailing_distance_pct : option float;
  r_status : option string;
  r_trailing_active : option bool;
  r_trailing_stop_price : option float;
  r_opened_at : option string;
  r_pnl : option float;
  r_pnl_pct : option float
}.

Inductive StoredEntry :=
| NotARecord                      (* a JSON value that is not an object *)
| Rec (fields : StoredRecord).

Inductive Store :=
| NoFile                          (* [open] raises FileNotFoundError *)
| Unreadable                      (* [open] or [json.load] raises anything else *)
| NotAMapping                     (* valid JSON, but not an object *)
| Mapping (data : dict StoredEntry).

(** ** The order gateway and the environment *)

Inductive GatewayCall :=
| MarketOrder (product side : string) (quote_size : float)
| CloseOrder (product close_side : string) (base_size : float)
| GetProduct (product : string)
| Subscribe (products : list string).

(** ** The monad of engine code

    A computation maps a state to an outcome and a state: a value, a raised
    exception (the mutations done before the [raise] stay), or [Dangling],
    the answer of the model to a reference that is not allocated, which no
    Python state contains and no [except] clause catches. *)

Inductive outcome (A : Type) :=
| Val (a : A)
| Exc (e : exn)
| Dangling.

Arguments Val {A} a.
Arguments Exc {A} e.
Arguments Dangling {A}.

Section Engine.
Context {T : TimeLib}.

(** [Config] and the answers of the outside world.  The [nat] argument of an
    oracle is the number of interactions with the outside world so far. *)
Record Env := {
  ENABLE_TRADING : bool;
  MAX_CONCURRENT_POSITIONS : Z;
  order_accepted : nat -> bool;     (* [rest_client.market_order] returns *)
  quoted_price : nat -> float;      (* [get_current_price]; 0.0 on failure *)
  subscribe_ok : nat -> bool;       (* the websocket subscription succeeds *)
  uuid4 : nat -> string;
  store_writable : nat -> bool;     (* writing the positions file succeeds *)
  utcnow : nat -> datetime
}.

Variable E : Env.

(** The state of the process: the heap of [Position] objects, the position
    set ([PositionManager.positions]), the positions file, the calls made to
    the exchange, the "... triggered" lines of the log, and the interaction
    counter. *)
Record World := {
  heap : list Position;
  positions : dict nat;
  store : Store;
  gateway : list GatewayCall;
  triggers : list (string * ExitReason);
  ticks : nat
}.

Definition with_heap (h : list Position) (w : World) : World :=
  {| heap := h; positions := positions w; store := store w;
     gateway := gateway w; triggers := triggers w; ticks := ticks w |}.

Definition with_positions (d : dict nat) (w : World) : World :=
  {| heap := heap w; positions := d; store := store w;
     gateway := gateway w; triggers := triggers w; ticks := ticks w |}.

Definition with_store (s : Store) (w : World) : World :=
  {| heap := heap w; positions := positions w; store := s;
     gateway := gateway w; triggers := triggers w; ticks := ticks w |}.

Definition with_gateway (g : list GatewayCall) (w : World) : World :=
  {| heap := heap w; positions := positions w; store := store w;
     gateway := g; triggers := triggers w; ticks := ticks w |}.

Definition with_triggers (l : list (string * ExitReason)) (w : World) : World :=
  {| heap := heap w; positions := positions w; store := store w;
     gateway := gateway w; triggers := l; ticks := ticks w |}.

Definition tick (w : World) : World :=
  {| heap := heap w; positions := positions w; store := store w;
     gateway := gateway w; triggers := triggers w; ticks := S (ticks w) |}.

(** Engine code is a state transformer with an outcome. *)

Definition M (A : Type) : Type := World -> outcome A * World.

Definition ret {A : Type} (a : A) : M A := fun w => (Val a, w).

Definition bind {A B : Type} (m : M A) (k : A -> M B) : M B :=
  fun w =>
    match m w with
    | (Val a, w') => k a w'
    | (Exc e, w') => (Exc e, w')
    | (Dangling, w') => (Dangling, w')
    end.

Definition raise {A : Type} (e : exn) : M A := fun w => (Exc e, w).

(** [try: m  except Exception as e: h e]. *)
Definition try_except {A : Type} (m : M A) (h : exn -> M A) : M A :=
  fun w =>
    match m w with
    | (Exc e, w') => h e w'
    | r => r
    end.

Definition lift {A : Type} (r : result A) : M A :=
  match r with
  | Ok a => ret a
  | Raise e => raise e
  end.

Notation "'let*' x := m 'in' k" := (bind m (fun x => k))
  (at level 10, x name, m at level 100, k at level 200).
Notation "m ;;; k" := (bind m (fun _ => k))
  (at level 100, k at level 200, right associativity).

(** Heap access. *)

Definition read (r : nat) : M Position :=
  fun w =>
    match heap w !! r with
    | Some p => (Val p, w)
    | None => (Dangling, w)
    end.

Definition write (r : nat) (p : Position) : M unit :=
  fun w =>
    match heap w !! r with
    | Some _ => (Val tt, with_heap (<[r := p]> (heap w)) w)
    | None => (Dangling, w)
    end.

(** [Position(...)]: a new object. *)
Definition alloc (p : Position) : M nat :=
  fun w => (Val (length (heap w)), with_heap (heap w ++ [p]) w).

(** Interactions with the outside world. *)

Definition ask {A : Type} (oracle : Env -> nat -> A) : M A :=
  fun w => (Val (oracle E (ticks w)), tick w).

Definition call_gateway (c : GatewayCall) : M unit :=
  fun w => (Val tt, with_gateway (gateway w ++ [c]) w).

Definition log_trigger (id : string) (reason : ExitReason) : M unit :=
  fun w => (Val tt, with_triggers (triggers w ++ [(id, reason)]) w).

(** ** [coinbase_client.py] *)

(** [rest_client.market_order(...)]. *)
Definition rest_market_order (c : GatewayCall) : M unit :=
  call_gateway c ;;;
  let* ok := ask order_accepted in
  if ok then ret tt else raise GatewayError.

(** [CoinbaseClient.place_market_order]: the [except] clause logs and
    re-raises. *)
Definition place_market_order (product side : string) (usd : float) : M unit :=
  try_except (rest_market_order (MarketOrder product side usd))
             (fun e => raise e).

(** [CoinbaseClient.close_position]. *)
Definition client_close_position (product side : string) (size : float)
  : M unit :=
  try_except
    (let close_side := if String.eqb side "LONG" then "SELL" else "BUY" in
     rest_market_order (CloseOrder product close_side size))
    (fun e => raise e).

(** [CoinbaseClient.get_current_price]: every failure is turned into 0.0. *)
Definition get_current_price (product : string) : M float :=
  call_gateway (GetProduct product) ;;;
  ask quoted_price.

(** [CoinbaseClient.subscribe_trades]. *)
Definition subscribe_trades (products : list string) : M unit :=
  try_except
    (call_gateway (Subscribe products) ;;;
     let* ok := ask subscribe_ok in
     if ok then ret tt else raise GatewayError)
    (fun e => raise e).

(** ** [position_manager.py] *)

Definition get_positions : M (dict nat) := fun w => (Val (positions w), w).

Definition put_positions (d : dict nat) : M unit :=
  fun w => (Val tt, with_positions d w).

(** [obj.f = v] on the object behind a reference. *)
Definition assign (r : nat) (f : Position -> Position) : M unit :=
  let* p := read r in write r (f p).

(** The objects behind the entries of a dictionary of references. *)
Fixpoint read_all (d : dict nat) : M (dict Position) :=
  match d with
  | [] => ret []
  | (k, r) :: d' =>
      let* p := read r in
      let* ps := read_all d' in
      ret ((k, p) :: ps)
  end.

(** The flat record [_save_positions] writes for one position.  [closed_at]
    and [exit_reason] are not among its keys. *)
Definition to_record (pos : Position) : StoredRecord :=
  {| r_position_id := Some (position_id pos);
     r_product_id := Some (product_id pos);
     r_side := Some (side pos);
     r_size := Some (size pos);
     r_entry_price := Some (entry_price pos);
     r_current_price := Some (current_price pos);
     r_stop_loss_price := Some (stop_loss_price pos);
     r_take_profit_price := Some (take_profit_price pos);
     r_trailing_activation_price := Some (trailing_activation_price pos);
     r_trailing_distance_pct := Some (trailing_distance_pct pos);
     r_status := Some (PositionStatus_value (status pos));
     r_trailing_active := Some (trailing_active pos);
     r_trailing_stop_price := Some (trailing_stop_price pos);
     r_opened_at := Some (isoformat (opened_at pos));
     r_pnl := Some (pnl pos);
     r_pnl_pct := Some (pnl_pct pos) |}.

(** The dictionary comprehension of [_save_positions]. *)
Definition serialize (items : dict Position) : Store :=
  Mapping (map (fun kp => (fst kp, Rec (to_record (snd kp)))) items).

(** [with open(Config.POSITIONS_FILE, 'w') as f: json.dump(data, f)]. *)
Definition write_store (s : Store) : M unit :=
  let* ok := ask store_writable in
  if ok then (fun w => (Val tt, with_store s w)) else raise OSError.

(** [PositionManager._save_positions]: every exception is logged and
    swallowed. *)
Definition _save_positions : M unit :=
  try_except
    (let* d := get_positions in
     let* items := read_all d in
     write_store (serialize items))
    (fun _ => ret tt).

(** [pos_data[key]] on a parsed JSON object. *)
Definition field {A : Type} (o : option A) : result A :=
  match o with
  | Some a => Ok a
  | None => Raise KeyError
  end.

Definition rbind {A B : Type} (r : result A) (k : A -> result B) : result B :=
  match r with
  | Ok a => k a
  | Raise e => Raise e
  end.

(** The [Position(...)] call of [_load_positions] on one stored entry; the
    keyword arguments are evaluated in the order written.  [closed_at] and
    [exit_reason] take their defaults. *)
Definition of_entry (e : StoredEntry) : result Position :=
  match e with
  | NotARecord => Raise TypeError
  | Rec pos_data =>
      rbind (field (r_position_id pos_data)) (fun v_position_id =>
      rbind (field (r_product_id pos_data)) (fun v_product_id =>
      rbind (field (r_side pos_data)) (fun v_side =>
      rbind (field (r_size pos_data)) (fun v_size =>
      rbind (field (r_entry_price pos_data)) (fun v_entry_price =>
      rbind (field (r_current_price pos_data)) (fun v_current_price =>
      rbind (field (r_stop_loss_price pos_data)) (fun v_stop_loss_price =>
      rbind (field (r_take_profit_price pos_data)) (fun v_take_profit_price =>
      rbind (field (r_trailing_activation_price pos_data)) (fun v_activation =>
      rbind (field (r_trailing_distance_pct pos_data)) (fun v_distance =>
      rbind (field (r_status pos_data)) (fun status_text =>
      rbind (PositionStatus_of_value status_text) (fun v_status =>
      rbind (field (r_trailing_active pos_data)) (fun v_trailing_active =>
      rbind (field (r_trailing_stop_price pos_data)) (fun v_trailing_stop =>
      rbind (field (r_opened_at pos_data)) (fun opened_text =>
      rbind (match fromisoformat opened_text with
             | Some d => Ok d
             | None => Raise ValueError
             end) (fun v_opened_at =>
      rbind (field (r_pnl pos_data)) (fun v_pnl =>
      rbind (field (r_pnl_pct pos_data)) (fun v_pnl_pct =>
      Ok {| position_id := v_position_id; product_id := v_product_id;
            side := v_side; size := v_size; entry_price := v_entry_price;
            current_price := v_current_price;
            stop_loss_price := v_stop_loss_price;
            take_profit_price := v_take_profit_price;
            trailing_activation_price := v_activation;
            trailing_distance_pct := v_distance; status := v_status;
            trailing_active := v_trailing_active;
            trailing_stop_price := v_trailing_stop;
            opened_at := v_opened_at; closed_at := None;
            exit_reason := None; pnl := v_pnl;
            pnl_pct := v_pnl_pct |}))))))))))))))))))
  end.

(** [json.load(open(Config.POSITIONS_FILE))] followed by [data.items()]. *)
Definition load_items : M (dict StoredEntry) :=
  fun w =>
    match store w with
    | NoFile => (Exc FileNotFoundError, w)
    | Unreadable => (Exc OSError, w)
    | NotAMapping => (Exc AttributeError, w)
    | Mapping data => (Val data, w)
    end.

(** The [for] loop of [_load_positions]. *)
Fixpoint load_each (items : dict StoredEntry) : M unit :=
  match items with
  | [] => ret tt
  | (position_id, pos_data) :: rest =>
      let* position := lift (of_entry pos_data) in
      let* r := alloc position in
      let* d := get_positions in
      put_positions (dict_set position_id r d) ;;;
      load_each rest
  end.

(** [PositionManager._load_positions]: both [except] clauses only log. *)
Definition _load_positions : M unit :=
  try_except
    (let* items := load_items in load_each items)
    (fun _ => ret tt).

(** [PositionManager.__init__]. *)
Definition PositionManager_init : M unit :=
  put_positions [] ;;;
  _load_positions.

(** The state of a process that starts on a given positions file. *)
Definition boot (s : Store) : World :=
  {| heap := []; positions := []; store := s; gateway := [];
     triggers := []; ticks := 0 |}.

(** [PositionManager.add_position]. *)
Definition add_position (r : nat) : M unit :=
  let* position := read r in
  let* d := get_positions in
  put_positions (dict_set (position_id position) r d) ;;;
  _save_positions.

(** [PositionManager.remove_position]. *)
Definition remove_position (id : string) : M (option nat) :=
  let* d := get_positions in
  let position := dict_get id d in
  put_positions (dict_del id d) ;;;
  match position with
  | Some r => _save_positions ;;; ret (Some r)
  | None => ret None
  end.

(** [PositionManager.get_position]. *)
Definition get_position (id : string) : M (option nat) :=
  let* d := get_positions in ret (dict_get id d).

(** [PositionManager.get_all_positions]. *)
Definition get_all_positions : M (list nat) :=
  let* d := get_positions in ret (dict_values d).

(** [PositionManager.get_active_products].  The order of a Python [set] is
    unspecified; the model keeps the last occurrence of each product. *)
Definition get_active_products : M (list string) :=
  let* d := get_positions in
  let* items := read_all d in
  ret (nodup string_dec (map (fun kp => product_id (snd kp)) items)).

(** The three assignments that mark a position closed. *)
Definition mark_closed (r : nat) (reason : ExitReason) : M unit :=
  assign r (set_status CLOSED) ;;;
  assign r (set_exit_reason (Some reason)) ;;;
  let* now := ask utcnow in
  assign r (set_closed_at (Some now)).

(** [PositionManager._close_position]: the [except] clause logs and
    re-raises. *)
Definition _close_position (r : nat) (reason : ExitReason) : M unit :=
  try_except
    (if negb (ENABLE_TRADING E) then
       mark_closed r reason ;;;
       let* position := read r in
       remove_position (position_id position) ;;;
       ret tt
     else
       let* position := read r in
       client_close_position (product_id position) (side position)
                             (size position) ;;;
       mark_closed r reason ;;;
       let* position := read r in
       remove_position (position_id position) ;;;
       ret tt)
    (fun e => raise e).

(** The trailing-stop activation of [_check_position]. *)
Definition arm_trailing (p : Position) : Position :=
  let p1 := set_status TRAILING (set_trailing_active true p) in
  set_trailing_stop_price (candidate_stop p1) p1.

(** The [if / elif / elif] chain of [_check_position]. *)
Definition exit_decision (p : Position) : option ExitReason :=
  if should_stop_loss p then Some STOP_LOSS
  else if should_trailing_stop p then Some TRAILING_STOP
  else if should_take_profit p then Some TAKE_PROFIT
  else None.

(** The blocks of [_check_position], in the order of the source. *)

(** "Update P&L". *)
Definition check_pnl (r : nat) : M unit :=
  let* position := read r in
  let (res, position) := update_pnl position in
  write r position ;;;
  lift res.

(** "Check trailing stop activation". *)
Definition check_activation (r : nat) : M unit :=
  let* position := read r in
  if negb (trailing_active position) && should_activate_trailing position
  then write r (arm_trailing position) ;;; _save_positions
  else ret tt.

(** "Update trailing stop if active". *)
Definition check_ratchet (r : nat) : M unit :=
  let* position := read r in
  if trailing_active position then
    let old_stop := trailing_stop_price position in
    write r (update_trailing_stop position) ;;;
    let* position := read r in
    if py_ne (trailing_stop_price position) old_stop
    then _save_positions else ret tt
  else ret tt.

(** "Check exit conditions (in priority order)" and "Execute exit if
    needed"; the log line of the chosen trigger is kept. *)
Definition check_exit (r : nat) : M unit :=
  let* position := read r in
  match exit_decision position with
  | Some reason =>
      log_trigger (position_id position) reason ;;;
      _close_position r reason
  | None => ret tt
  end.

(** [PositionManager._check_position]: every exception is logged and
    swallowed. *)
Definition _check_position (r : nat) : M unit :=
  try_except
    (check_pnl r ;;;
     check_activation r ;;;
     check_ratchet r ;;;
     check_exit r)
    (fun _ => ret tt).

(** One pass of [_monitor_loop] over [list(self.positions.items())]. *)
Fixpoint check_each (snapshot : dict nat) : M unit :=
  match snapshot with
  | [] => ret tt
  | (_, r) :: rest => _check_position r ;;; check_each rest
  end.

Definition _monitor_pass : M unit :=
  let* d := get_positions in check_each d.

(** [PositionManager.close_position_manual]. *)
Definition close_position_manual (id : string) : M bool :=
  let* position := get_position id in
  match position with
  | None => ret false
  | Some r => _close_position r MANUAL ;;; ret true
  end.

(** [PositionManager.close_all_positions]. *)
Fixpoint close_each (ids : list string) : M unit :=
  match ids with
  | [] => ret tt
  | id :: rest => close_position_manual id ;;; close_each rest
  end.

Definition close_all_positions : M unit :=
  let* d := get_positions in close_each (dict_keys d).

(** [PositionManager._on_price_update] for a trade on [symbol] at [price]. *)
Fixpoint update_each (refs : list nat) (symbol : string) (price : float)
  : M unit :=
  match refs with
  | [] => ret tt
  | r :: rest =>
      let* position := read r in
      (if String.eqb (product_id position) symbol
       then write r (set_current_price price position)
       else ret tt) ;;;
      update_each rest symbol price
  end.

Definition _on_price_update (symbol : string) (price : float) : M unit :=
  let* d := get_positions in update_each (dict_values d) symbol price.

(** ** [main.py]: the [/webhook] endpoint *)

(** What the attribute [alert.action] holds at run time.  The field is
    annotated [Action], but [TradingViewAlert.Config] sets
    [use_enum_values = True]: pydantic then stores the value of the
    validated member, a plain [str], which has no attribute [value].  An
    alert built without validation keeps the member. *)
Inductive ActionAttr :=
| EnumMember (a : Action)
| EnumValue (s : string).

Record TradingViewAlert := {
  alert_action : ActionAttr;
  alert_symbol : string;
  alert_stop_loss_pct : option float;
  alert_take_profit_pct : option float;
  alert_trailing_activation_pct : option float;
  alert_trailing_distance_pct : float;
  alert_position_size_usd : float
}.

(** The alerts request validation hands to the endpoint. *)
Definition validated (alert : TradingViewAlert) : Prop :=
  exists a, alert_action alert = EnumValue (Action_value a).

(** [alert.action.value]. *)
Definition action_value (a : ActionAttr) : M string :=
  match a with
  | EnumMember m => ret (Action_value m)
  | EnumValue _ => raise AttributeError
  end.

(** [alert.action == Action.X]; [Action] mixes in [str], so a plain string
    equal to the value of the member compares equal. *)
Definition action_is (a : ActionAttr) (m : Action) : bool :=
  match a with
  | EnumMember m' => String.eqb (Action_value m') (Action_value m)
  | EnumValue s => String.eqb s (Action_value m)
  end.

(** The JSON bodies of the responses, as far as the properties need them. *)
Inductive Response :=
| PaperTrade (action symbol : string)
| Opened (side position_id symbol : string) (entry_price size : float)
| NothingToClose (side symbol : string)
| Closed (side position_id symbol : string) (pnl pnl_pct : float)
| ClosedAll (positions_closed : list string).

(** The ["success"] key of a response. *)
Definition success (r : Response) : bool :=
  match r with
  | NothingToClose _ _ => false
  | _ => true
  end.

(** [pct / 100] on an [Optional[float]] field. *)
Definition pct_over_100 (pct : option float) : M float :=
  match pct with
  | Some x => ret (x / 100)%float
  | None => raise TypeError
  end.

(** The two guards shared by the entry handlers. *)
Definition entry_guards (alert : TradingViewAlert) : M unit :=
  let* d := get_positions in
  (if (Z.of_nat (length d) >=? MAX_CONCURRENT_POSITIONS E)%Z
   then raise (HTTPException 400) else ret tt) ;;;
  let* items := read_all d in
  if existsb (fun kp => String.eqb (product_id (snd kp)) (alert_symbol alert))
             items
  then raise (HTTPException 400) else ret tt.

(** [handle_long_entry] ([long = true]) and [handle_short_entry]
    ([long = false]), which differ in the order side and in the signs of the
    three offsets. *)
Definition handle_entry (long : bool) (alert : TradingViewAlert) : M Response :=
  try_except
    (entry_guards alert ;;;
     place_market_order (alert_symbol alert) (if long then "BUY" else "SELL")
                        (alert_position_size_usd alert) ;;;
     let* fill_price := get_current_price (alert_symbol alert) in
     let* position_size :=
       lift (py_div (alert_position_size_usd alert) fill_price) in
     let* sl := pct_over_100 (alert_stop_loss_pct alert) in
     let* tp := pct_over_100 (alert_take_profit_pct alert) in
     let* ta := pct_over_100 (alert_trailing_activation_pct alert) in
     let stop_loss := if long then (fill_price * (1 - sl))%float
                      else (fill_price * (1 + sl))%float in
     let take_profit := if long then (fill_price * (1 + tp))%float
                        else (fill_price * (1 - tp))%float in
     let activation := if long then (fill_price * (1 + ta))%float
                       else (fill_price * (1 - ta))%float in
     let* id := ask uuid4 in
     let* now := ask utcnow in
     let* r := alloc
       {| position_id := id; product_id := alert_symbol alert;
          side := if long then "LONG" else "SHORT"; size := position_size;
          entry_price := fill_price; current_price := fill_price;
          stop_loss_price := stop_loss; take_profit_price := take_profit;
          trailing_activation_price := activation;
          trailing_distance_pct := alert_trailing_distance_pct alert;
          status := ACTIVE; trailing_active := false;
          trailing_stop_price := 0%float; opened_at := now;
          closed_at := None; exit_reason := None; pnl := 0%float;
          pnl_pct := 0%float |} in
     add_position r ;;;
     let* active_products := get_active_products in
     subscribe_trades active_products ;;;
     ret (Opened (if long then "LONG" else "SHORT") id (alert_symbol alert)
                 fill_price position_size))
    (fun e => raise e).

Definition handle_long_entry : TradingViewAlert -> M Response :=
  handle_entry true.

Definition handle_short_entry : TradingViewAlert -> M Response :=
  handle_entry false.

(** The search loop of [handle_exit]: the first open position on that
    symbol and side. *)
Fixpoint find_position (refs : list nat) (symbol side_ : string)
  : M (option nat) :=
  match refs with
  | [] => ret None
  | r :: rest =>
      let* pos := read r in
      if String.eqb (product_id pos) symbol && String.eqb (side pos) side_
      then ret (Some r)
      else find_position rest symbol side_
  end.

(** [handle_exit]. *)
Definition handle_exit (alert : TradingViewAlert) (side_ : string)
  : M Response :=
  try_except
    (let* refs := get_all_positions in
     let* position_to_close := find_position refs (alert_symbol alert) side_ in
     match position_to_close with
     | None => ret (NothingToClose side_ (alert_symbol alert))
     | Some r =>
         let* pos := read r in
         close_position_manual (position_id pos) ;;;
         let* pos := read r in
         ret (Closed side_ (position_id pos) (alert_symbol alert)
                     (pnl pos) (pnl_pct pos))
     end)
    (fun e => raise e).

(** The loop of [handle_close_all] over a copy of the position list. *)
Fixpoint close_listed (refs : list nat) (positions_closed : list string)
  : M (list string) :=
  match refs with
  | [] => ret positions_closed
  | r :: rest =>
      let* pos := read r in
      close_position_manual (position_id pos) ;;;
      let* pos := read r in
      close_listed rest (positions_closed ++ [position_id pos])
  end.

(** [handle_close_all]. *)
Definition handle_close_all : M Response :=
  try_except
    (let* refs := get_all_positions in
     let* positions_closed := close_listed refs [] in
     ret (ClosedAll positions_closed))
    (fun e => raise e).

(** [webhook].  The first statement of the [try] block formats
    [alert.action.value] into a log line; the [except] clause turns every
    exception, the [HTTPException]s of the handlers included, into a 500. *)
Definition webhook (alert : TradingViewAlert) : M Response :=
  try_except
    (action_value (alert_action alert) ;;;
     if negb (ENABLE_TRADING E) then
       let* v := action_value (alert_action alert) in
       ret (PaperTrade v (alert_symbol alert))
     else if action_is (alert_action alert) LONG then handle_long_entry alert
     else if action_is (alert_action alert) SHORT then handle_short_entry alert
     else if action_is (alert_action alert) EXIT_LONG
          then handle_exit alert "LONG"
     else if action_is (alert_action alert) EXIT_SHORT
          then handle_exit alert "SHORT"
     else if action_is (alert_action alert) CLOSE_ALL then handle_close_all
     else raise (HTTPException 400))
    (fun _ => raise (HTTPException 500)).

(** [close_position_endpoint], the handler of [POST /close/{position_id}].
    The 404 is raised inside the [try] block, whose [except Exception]
    clause catches it like any other exception. *)
Inductive CloseResponse :=
| PositionClosed (id : string).

Definition close_position_endpoint (id : string) : M CloseResponse :=
  try_except
    (let* ok := close_position_manual id in
     if ok then ret (PositionClosed id) else raise (HTTPException 404))
    (fun _ => raise (HTTPException 500)).

(** ** [position_manager.py]: starting the monitor

    The two attributes [start_monitoring] works on: the [monitoring] flag
    and whether the task of the monitor loop has been created. *)
Record MonitorState := {
  monitoring : bool;
  task_created : bool
}.

(** [PositionManager.start_monitoring]: a failure of the subscription is
    logged and swallowed. *)
Definition start_monitoring (m : MonitorState) : M MonitorState :=
  if monitoring m then ret m
  else
    let* active_products := get_active_products in
    (match active_products with
     | [] => ret tt
     | _ :: _ =>
         try_except (subscribe_trades active_products) (fun _ => ret tt)
     end) ;;;
    ret {| monitoring := true; task_created := true |}.


(** ** Observations and invariants *)

(** The objects behind a dictionary of references; [None] when one of
    them is not allocated. *)
Fixpoint deref_all (h : list Position) (d : dict nat)
  : option (dict Position) :=
  match d with
  | [] => Some []
  | (k, r) :: d' =>
      match h !! r, deref_all h d' with
      | Some p, Some ps => Some ((k, p) :: ps)
      | _, _ => None
      end
  end.

(** The positions of the set, by value, in order. *)
Definition snapshot (w : World) : option (dict Position) :=
  deref_all (heap w) (positions w).

(** The object behind a reference. *)
Definition object (r : nat) (w : World) : option Position := heap w !! r.

(** The position registered under an identifier. *)
Definition lookup_position (id : string) (w : World) : option Position :=
  r ← dict_get id (positions w); heap w !! r.

(** Every reference of the set is allocated. *)
Definition refs_valid (w : World) : Prop :=
  Forall (fun kr => snd kr < length (heap w)) (positions w).

(** Every position of the set is registered under its own identifier, as
    [add_position] registers it. *)
Definition keyed_by_id (w : World) : Prop :=
  Forall (fun kr => exists p, heap w !! snd kr = Some p /\ position_id p = fst kr)
         (positions w).

(** No object is registered under two identifiers. *)
Definition refs_distinct (w : World) : Prop := NoDup (dict_values (positions w)).

(** From [w] to [w'] no object other than [r] changed, no object was
    created, and no position was added to the set. *)
Definition touches_only (r : nat) (w w' : World) : Prop :=
  length (heap w') = length (heap w) /\
  (forall r', r' <> r -> heap w' !! r' = heap w !! r') /\
  (forall kr, In kr (positions w') -> In kr (positions w)).

(** A position marked closed, as [_close_position] leaves it. *)
Definition closed_as (reason : ExitReason) (now : datetime) (p : Position)
  : Position :=
  set_closed_at (Some now) (set_exit_reason (Some reason) (set_status CLOSED p)).

(** A position as it comes back from the store: [closed_at] and
    [exit_reason] unset. *)
Definition reopened (p : Position) : Position :=
  set_exit_reason None (set_closed_at None p).

(** The entries of a stored mapping that precede the first one
    [Position(...)] rejects. *)
Fixpoint loadable_prefix (items : dict StoredEntry) : dict Position :=
  match items with
  | [] => []
  | (k, e) :: rest =>
      match of_entry e with
      | Ok p => (k, p) :: loadable_prefix rest
      | Raise _ => []
      end
  end.

(** The state after a [_save_positions] that found the positions [items]
    in the set: the file is rewritten when it can be, and left as it was
    otherwise. *)
Definition saved (items : dict Position) (w : World) : World :=
  if store_writable E (ticks w)
  then with_store (serialize items) (tick w)
  else tick w.

(** The position as the exit decision of [_check_position] sees it: after
    the P&L update, the activation and the ratchet. *)
Definition prepared (p : Position) : Position :=
  let p1 := snd (update_pnl p) in
  let p2 := if negb (trailing_active p1) && should_activate_trailing p1
            then arm_trailing p1 else p1 in
  if trailing_active p2 then update_trailing_stop p2 else p2.

(** The trigger one check of a position logs, if any: none when the P&L
    update raises, which ends the check before the decision. *)
Definition chosen_exit (p : Position) : list (string * ExitReason) :=
  match fst (update_pnl p) with
  | Raise _ => []
  | Ok _ =>
      match exit_decision (prepared p) with
      | Some reason => [(position_id p, reason)]
      | None => []
      end
  end.

(** The position set a process starts with on a given store: the records
    that precede the first invalid one, and nothing when the store is
    missing, unreadable or not a mapping. *)
Definition loaded (s : Store) : dict Position :=
  match s with
  | Mapping items =>
      fold_left (fun d kv => dict_set (fst kv) (snd kv) d)
                (loadable_prefix items) []
  | _ => []
  end.

(** A dictionary built by successive assignments. *)
Definition dict_of_list {V : Type} (l : list (string * V)) : dict V :=
  fold_left (fun d kv => dict_set (fst kv) (snd kv) d) l [].

(** A position after a trade on [symbol] at [price] reached
    [_on_price_update]. *)
Definition repriced (symbol : string) (price : float) (p : Position)
  : Position :=
  if String.eqb (product_id p) symbol then set_current_price price p else p.

(** The test of the search loop of [handle_exit]. *)
Definition matches (symbol side_ : string) (p : Position) : bool :=
  String.eqb (product_id p) symbol && String.eqb (side p) side_.

(** The first entry of a list of positions that [handle_exit] would pick. *)
Definition first_match (symbol side_ : string) (items : dict Position)
  : option (string * Position) :=
  List.find (fun kp => matches symbol side_ (snd kp)) items.

(** The position set is at capacity. *)
Definition at_capacity (w : World) : bool :=
  (Z.of_nat (length (positions w)) >=? MAX_CONCURRENT_POSITIONS E)%Z.

(** Some position of a list is on the given instrument. *)
Definition holds_product (symbol : string) (items : dict Position) : bool :=
  existsb (fun kp => String.eqb (product_id (snd kp)) symbol) items.

(** The position an entry handler builds from the fill price, the three
    offsets already divided by 100, the identifier and the clock reading. *)
Definition opened_position (long : bool) (alert : TradingViewAlert)
    (fill_price sl tp ta : float) (id : string) (now : datetime) : Position :=
  {| position_id := id; product_id := alert_symbol alert;
     side := if long then "LONG" else "SHORT";
     size := (alert_position_size_usd alert / fill_price)%float;
     entry_price := fill_price; current_price := fill_price;
     stop_loss_price := if long then (fill_price * (1 - sl))%float
                        else (fill_price * (1 + sl))%float;
     take_profit_price := if long then (fill_price * (1 + tp))%float
                          else (fill_price * (1 - tp))%float;
     trailing_activation_price := if long then (fill_price * (1 + ta))%float
                                  else (fill_price * (1 - ta))%float;
     trailing_distance_pct := alert_trailing_distance_pct alert;
     status := ACTIVE; trailing_active := false;
     trailing_stop_price := 0%float; opened_at := now;
     closed_at := None; exit_reason := None; pnl := 0%float;
     pnl_pct := 0%float |}.

(** The products of a list of positions, each once. *)
Definition products_of (items : dict Position) : list string :=
  nodup string_dec (map (fun kp => product_id (snd kp)) items).

(** The invariant of the position set: distinct identifiers, each position
    registered under its own. *)
Definition well_formed (w : World) : Prop :=
  dict_wf (positions w) /\ keyed_by_id w.


End Engine.

Arguments World {T}.
Arguments M {T} A.

(** ** Sample data *)

(** A stand-in for the [datetime] library: a timestamp is a number of
    seconds, written in decimal. *)
Definition epoch_time : TimeLib :=
  {| datetime := nat;
     isoformat := fun n => NilEmpty.string_of_uint (Nat.to_uint n);
     fromisoformat :=
       fun s => option_map Nat.of_uint (NilEmpty.uint_of_string s) |}.

(** A position as the entry handlers build it: entry at 100, stop-loss and
    take-profit 1.5 % away, trailing activation 0.75 % away, trailing
    distance 0.75 %. *)
Definition sample_position (id product side_ : string) (current : float)
  : @Position epoch_time :=
  {| position_id := id; product_id := product; side := side_;
     size := 0.5%float; entry_price := 100%float; current_price := current;
     stop_loss_price :=
       if String.eqb side_ "LONG" then 98.5%float else 101.5%float;
     take_profit_price :=
       if String.eqb side_ "LONG" then 101.5%float else 98.5%float;
     trailing_activation_price :=
       if String.eqb side_ "LONG" then 100.75%float else 99.25%float;
     trailing_distance_pct := 0.75%float; status := ACTIVE;
     trailing_active := false; trailing_stop_price := 0%float;
     opened_at := (17%nat : @datetime epoch_time); closed_at := None; exit_reason := None;
     pnl := 0%float; pnl_pct := 0%float |}.

(** A SHORT position whose trailing flag is set while the stored stop still
    has its initial value 0.0. *)
Definition short_unset : @Position epoch_time :=
  set_trailing_active true (sample_position "p1" "BTC-USD" "SHORT" 100%float).

(** A LONG position whose levels are crossed (stop-loss above take-profit),
    so that at 100 both the stop-loss and the take-profit conditions hold. *)
Definition crossed_long : @Position epoch_time :=
  {| position_id := "p1"; product_id := "BTC-USD"; side := "LONG";
     size := 0.5%float; entry_price := 100%float; current_price := 100%float;
     stop_loss_price := 101%float; take_profit_price := 99%float;
     trailing_activation_price := 100.75%float;
     trailing_distance_pct := 0.75%float; status := ACTIVE;
     trailing_active := false; trailing_stop_price := 0%float;
     opened_at := (17%nat : @datetime epoch_time); closed_at := None;
     exit_reason := None; pnl := 0%float; pnl_pct := 0%float |}.

(** A position already marked closed. *)
Definition closed_position : @Position epoch_time :=
  closed_as MANUAL (18%nat : @datetime epoch_time)
            (sample_position "p1" "BTC-USD" "LONG" 100%float).

(** Paper mode ([ENABLE_TRADING] false), and live mode with an exchange
    that accepts or refuses every order. *)
Definition paper_env : @Env epoch_time :=
  {| ENABLE_TRADING := false; MAX_CONCURRENT_POSITIONS := 5;
     order_accepted := fun _ => true; quoted_price := fun _ => 100%float;
     subscribe_ok := fun _ => true;
     uuid4 := fun n => NilEmpty.string_of_uint (Nat.to_uint n);
     store_writable := fun _ => true;
     utcnow := fun n => ((20 + n)%nat : @datetime epoch_time) |}.

Definition live_env (accepts : bool) : @Env epoch_time :=
  {| ENABLE_TRADING := true; MAX_CONCURRENT_POSITIONS := 5;
     order_accepted := fun _ => accepts; quoted_price := fun _ => 100%float;
     subscribe_ok := fun _ => true;
     uuid4 := fun n => NilEmpty.string_of_uint (Nat.to_uint n);
     store_writable := fun _ => true;
     utcnow := fun n => ((20 + n)%nat : @datetime epoch_time) |}.

(** A process state with the given objects and position set, no positions
    file and no history. *)
Definition world_of (objects : list (@Position epoch_time))
                    (registered : dict nat) : @World epoch_time :=
  {| heap := objects; positions := registered; store := NoFile;
     gateway := []; triggers := []; ticks := 0 |}.

Definition one_long : @World epoch_time :=
  world_of [sample_position "p1" "BTC-USD" "LONG" 100%float] [("p1", 0)].

Definition one_crossed : @World epoch_time :=
  world_of [crossed_long] [("p1", 0)].

(** One registered position, and a second object with the same
    identifier that is not registered yet. *)
Definition same_id_twice : @World epoch_time :=
  world_of [sample_position "p1" "BTC-USD" "LONG" 100%float;
            sample_position "p1" "ETH-USD" "SHORT" 100%float]
           [("p1", 0)].

(** A set that holds a position already marked closed. *)
Definition one_closed : @World epoch_time :=
  world_of [closed_position] [("p1", 0)].

(** A store whose first record is valid and whose second entry is not a
    record. *)
Definition partly_invalid_store : Store :=
  Mapping [("p1", Rec (to_record
                         (sample_position "p1" "BTC-USD" "LONG" 100%float)));
           ("p2", NotARecord)].

(** The alert of a request [{"action": "EXIT_LONG", "symbol": "BTC-USD", ...}]
    after validation. *)
Definition exit_long_alert : TradingViewAlert :=
  {| alert_action := EnumValue "EXIT_LONG"; alert_symbol := "BTC-USD";
     alert_stop_loss_pct := Some 1.5%float;
     alert_take_profit_pct := Some 1.5%float;
     alert_trailing_activation_pct := Some 0.75%float;
     alert_trailing_distance_pct := 0.75%float;
     alert_position_size_usd := 100%float |}.

(** A LONG position whose entry price is zero: no entry handler builds
    it, but a positions file can hold it. *)
Definition zero_entry_long : @Position epoch_time :=
  {| position_id := "p1"; product_id := "BTC-USD"; side := "LONG";
     size := 0.5%float; entry_price := 0%float; current_price := 100%float;
     stop_loss_price := 98.5%float; take_profit_price := 101.5%float;
     trailing_activation_price := 100.75%float;
     trailing_distance_pct := 0.75%float; status := ACTIVE;
     trailing_active := false; trailing_stop_price := 0%float;
     opened_at := (17%nat : @datetime epoch_time); closed_at := None;
     exit_reason := None; pnl := 0%float; pnl_pct := 0%float |}.

Definition one_zero_entry : @World epoch_time :=
  world_of [zero_entry_long] [("p1", 0)].

(** The sample LONG position with the price below its stop-loss, and with
    the price between its activation price and its take-profit. *)
Definition one_stopped : @World epoch_time :=
  world_of [sample_position "p1" "BTC-USD" "LONG" 98%float] [("p1", 0)].

Definition one_reached : @World epoch_time :=
  world_of [sample_position "p1" "BTC-USD" "LONG" 101%float] [("p1", 0)].

(** A LONG position on one instrument and a SHORT position on another. *)
Definition two_positions : @World epoch_time :=
  world_of [sample_position "p1" "BTC-USD" "LONG" 100%float;
            sample_position "p2" "ETH-USD" "SHORT" 100%float]
           [("p1", 0); ("p2", 1)].

(** A position registered under a key that is not its identifier. *)
Definition misfiled_long : @World epoch_time :=
  world_of [sample_position "p1" "BTC-USD" "LONG" 100%float] [("x", 0)].

(** An alert built without validation, whose action attribute holds the
    member [Action.LONG]. *)
Definition long_alert (symbol : string) : TradingViewAlert :=
  {| alert_action := EnumMember LONG; alert_symbol := symbol;
     alert_stop_loss_pct := Some 1.5%float;
     alert_take_profit_pct := Some 1.5%float;
     alert_trailing_activation_pct := Some 0.75%float;
     alert_trailing_distance_pct := 0.75%float;
     alert_position_size_usd := 100%float |}.

(** Live mode with an exchange that accepts orders but whose price lookup
    fails, so that [get_current_price] returns 0.0. *)
Definition no_quote_env : @Env epoch_time :=
  {| ENABLE_TRADING := true; MAX_CONCURRENT_POSITIONS := 5;
     order_accepted := fun _ => true; quoted_price := fun _ => 0%float;
     subscribe_ok := fun _ => true;
     uuid4 := fun n => NilEmpty.string_of_uint (Nat.to_uint n);
     store_writable := fun _ => true;
     utcnow := fun n => ((20 + n)%nat : @datetime epoch_time) |}.

(** Paper mode with a market-data feed that refuses every subscription. *)
Definition no_feed_env : @Env epoch_time :=
  {| ENABLE_TRADING := false; MAX_CONCURRENT_POSITIONS := 5;
     order_accepted := fun _ => true; quoted_price := fun _ => 100%float;
     subscribe_ok := fun _ => false;
     uuid4 := fun n => NilEmpty.string_of_uint (Nat.to_uint n);
     store_writable := fun _ => true;
     utcnow := fun n => ((20 + n)%nat : @datetime epoch_time) |}.

Definition monitor_off : MonitorState :=
  {| monitoring := false; task_created := false |}.


(** * Properties *)

Section FloatFacts.

Lemma SFcompare_antisym (x y : spec_float) :
  SFcompare y x = option_map CompOpp (SFcompare x y).
Proof.
  destruct x as [sx | sx | | sx mx ex], y as [sy | sy | | sy my ey];
    simpl; try reflexivity;
    try (destruct sx; reflexivity); try (destruct sy; reflexivity);
    try (destruct sx, sy; reflexivity).
  destruct sx, sy; simpl; try reflexivity; f_equal;
    rewrite (Z.compare_antisym ex ey);
    destruct (ex ?= ey)%Z; simpl; try reflexivity.
  - rewrite CompOpp_involutive. symmetry. apply ZC4.
  - apply ZC4.
Qed.

Lemma ltb_asym (x y : float) :
  PrimFloat.ltb x y = true -> PrimFloat.ltb y x = false.
Proof.
  rewrite !ltb_spec. unfold SFltb.
  rewrite (SFcompare_antisym (Prim2SF x) (Prim2SF y)).
  destruct (SFcompare (Prim2SF x) (Prim2SF y)) as [[]|]; simpl; congruence.
Qed.

Lemma SFltb_trans (x y z : spec_float) :
  SFltb x y = true -> SFltb y z = true -> SFltb x z = true.
Proof.
  unfold SFltb.
  destruct x as [sx | sx | | sx mx ex], y as [sy | sy | | sy my ey],
           z as [sz | sz | | sz mz ez]; simpl;
    try discriminate; try reflexivity;
    repeat match goal with s : bool |- _ => destruct s end; simpl;
    try discriminate; try reflexivity.
  all: change (PosDef.Pos.compare_cont Eq) with Pos.compare.
  all: destruct (Z.compare_spec ex ey), (Z.compare_spec ey ez),
         (Z.compare_spec ex ez); simpl; try discriminate; try reflexivity;
       try lia; subst.
  all: destruct (Pos.compare_spec mx my), (Pos.compare_spec my mz),
         (Pos.compare_spec mx mz); simpl; try discriminate; try reflexivity;
       try lia.
Qed.

Lemma ltb_trans (x y z : float) :
  PrimFloat.ltb x y = true -> PrimFloat.ltb y z = true ->
  PrimFloat.ltb x z = true.
Proof. rewrite !ltb_spec. apply SFltb_trans. Qed.

Lemma ltb_irrefl (x : float) : PrimFloat.ltb x x = false.
Proof.
  destruct (PrimFloat.ltb x x) eqn:H; [|reflexivity].
  pose proof (ltb_asym _ _ H). congruence.
Qed.

End FloatFacts.

Section PositionFacts.
Context {T : TimeLib}.

Lemma is_long_true (p : Position) : is_long p = true <-> side p = "LONG".
Proof. unfold is_long. apply String.eqb_eq. Qed.

Lemma is_long_false (p : Position) : is_long p = false <-> side p <> "LONG".
Proof. unfold is_long. apply String.eqb_neq. Qed.

(** C5.  [should_stop_loss] and [should_take_profit] are exactly the
    comparisons of the current price with the stop-loss and take-profit
    levels: at or below the stop and at or above the target for a LONG
    position, the reverse for a SHORT one ([x >= y] is [y <= x]). *)
Theorem trigger_predicates (p : Position) :
  (side p = "LONG" ->
     (should_stop_loss p = true <->
        float_le (current_price p) (stop_loss_price p)) /\
     (should_take_profit p = true <->
        float_le (take_profit_price p) (current_price p))) /\
  (side p = "SHORT" ->
     (should_stop_loss p = true <->
        float_le (stop_loss_price p) (current_price p)) /\
     (should_take_profit p = true <->
        float_le (current_price p) (take_profit_price p))).
Proof.
  unfold should_stop_loss, should_take_profit, float_le, is_long.
  split; intros ->; simpl; split; reflexivity.
Qed.

(** The ratchet changes nothing but the stored trailing stop. *)
Lemma update_trailing_stop_frame (p : Position) :
  update_trailing_stop p =
  set_trailing_stop_price (trailing_stop_price (update_trailing_stop p)) p.
Proof.
  unfold update_trailing_stop.
  repeat match goal with |- context [if ?b then _ else _] => destruct b end;
    destruct p; reflexivity.
Qed.

(** The three cases of the ratchet on an armed position. *)
Lemma update_trailing_stop_cases (p : Position) :
  trailing_active p = true ->
  let old := trailing_stop_price p in
  let new := trailing_stop_price (update_trailing_stop p) in
  (is_long p = true ->
     new = old \/ (new = candidate_stop p /\ float_lt old new)) /\
  (is_long p = false -> PrimFloat.eqb old 0%float = false ->
     new = old \/ (new = candidate_stop p /\ float_lt new old)) /\
  (is_long p = false -> PrimFloat.eqb old 0%float = true ->
     new = candidate_stop p).
Proof.
  intros Hact; cbv zeta.
  unfold update_trailing_stop, candidate_stop, float_lt.
  rewrite Hact; simpl negb; cbv iota.
  destruct (is_long p) eqn:Hl.
  - split; [intros _ | split; discriminate].
    destruct (PrimFloat.ltb (trailing_stop_price p) _) eqn:Hlt; simpl; auto.
  - split; [discriminate|].
    split; intros _ H0; rewrite H0.
    + rewrite orb_false_r.
      destruct (PrimFloat.ltb _ (trailing_stop_price p)) eqn:Hlt; simpl; auto.
    + rewrite orb_true_r. reflexivity.
Qed.

(** C2, as the code has it.  With [trailing_active] set, the ratchet either
    leaves the stored trailing stop alone or replaces it with the candidate
    computed from the current price.  For a LONG position it replaces only
    by a strictly greater value, so the stop never decreases.  For any other
    side it replaces by a strictly smaller value, or when the stored stop
    equals zero (the value it has before it is first set): as long as the
    stored stop is not zero it never increases, and when it is zero the
    candidate is stored whatever it is. *)
Theorem update_trailing_stop_ratchet (p : Position) :
  trailing_active p = true ->
  let old := trailing_stop_price p in
  let new := trailing_stop_price (update_trailing_stop p) in
  (side p = "LONG" ->
     PrimFloat.ltb new old = false /\
     (new = old \/ (new = candidate_stop p /\ float_lt old new))) /\
  (side p <> "LONG" -> PrimFloat.eqb old 0%float = false ->
     PrimFloat.ltb old new = false /\
     (new = old \/ (new = candidate_stop p /\ float_lt new old))) /\
  (side p <> "LONG" -> PrimFloat.eqb old 0%float = true ->
     new = candidate_stop p).
Proof.
  intros Hact; cbv zeta.
  destruct (update_trailing_stop_cases p Hact) as (Hlong & Hshort & Hzero).
  cbv zeta in Hlong, Hshort, Hzero. unfold float_lt in *.
  split; [|split].
  - intros Hs. apply is_long_true in Hs.
    destruct (Hlong Hs) as [-> | [Hc Hlt]].
    + split; [apply ltb_irrefl | now left].
    + split; [now apply ltb_asym | now right].
  - intros Hs H0. apply is_long_false in Hs.
    destruct (Hshort Hs H0) as [-> | [Hc Hlt]].
    + split; [apply ltb_irrefl | now left].
    + split; [now apply ltb_asym | now right].
  - intros Hs H0. apply is_long_false in Hs. now apply Hzero.
Qed.

(** The ratchet keeps the side, the trailing flag and the distance. *)
Lemma ratchet_step_keeps (c : float) (p : Position) :
  let q := update_trailing_stop (set_current_price c p) in
  side q = side p /\ trailing_active q = trailing_active p /\
  trailing_distance_pct q = trailing_distance_pct p.
Proof. cbv zeta. rewrite update_trailing_stop_frame. repeat split. Qed.

(** X3.  Over successive price updates, each followed by a call of the
    ratchet, the stored trailing stop of an armed LONG position never ends
    below its initial value.  For an armed position of another side it never
    ends above its initial value, provided the initial value and every
    candidate on the way differ from zero. *)
Theorem ratchet_successive_calls (prices : list float) (p : Position) :
  trailing_active p = true ->
  let old := trailing_stop_price p in
  let new := trailing_stop_price (ratchet_over prices p) in
  (side p = "LONG" -> new = old \/ float_lt old new) /\
  (side p <> "LONG" ->
   PrimFloat.eqb old 0%float = false ->
   Forall (fun c => PrimFloat.eqb
                      (c * (1 + trailing_distance_pct p / 100))%float 0%float
                    = false) prices ->
   new = old \/ float_lt new old).
Proof.
  cbv zeta. unfold ratchet_over, float_lt. revert p.
  induction prices as [|c prices IH]; intros p Hact; simpl.
  { split; intros; now left. }
  set (q := update_trailing_stop (set_current_price c p)).
  destruct (ratchet_step_keeps c p) as (Hside & Hflag & Hdist). fold q in Hside, Hflag, Hdist.
  assert (Hact' : trailing_active (set_current_price c p) = true) by exact Hact.
  destruct (update_trailing_stop_cases _ Hact') as (Hlong & Hshort & _).
  cbv zeta in Hlong, Hshort. fold q in Hlong, Hshort.
  change (trailing_stop_price (set_current_price c p))
    with (trailing_stop_price p) in *.
  change (is_long (set_current_price c p)) with (is_long p) in *.
  unfold float_lt in *.
  destruct (IH q) as [IHlong IHshort]; [congruence|].
  rewrite Hside in IHlong, IHshort. rewrite Hdist in IHshort.
  split.
  - intros Hs. pose proof Hs as Hl. apply is_long_true in Hl.
    destruct (Hlong Hl) as [Heq | [_ Hlt]], (IHlong Hs) as [Heq' | Hlt'].
    + left. congruence.
    + right. now rewrite <- Heq.
    + right. now rewrite Heq'.
    + right. eapply ltb_trans; eauto.
  - intros Hs H0 Hall. pose proof Hs as Hl. apply is_long_false in Hl.
    apply List.Forall_cons_iff in Hall as [Hc Hall].
    assert (Hq0 : PrimFloat.eqb (trailing_stop_price q) 0%float = false).
    { destruct (Hshort Hl H0) as [-> | [-> _]]; [exact H0|].
      unfold candidate_stop.
      change (is_long (set_current_price c p)) with (is_long p).
      rewrite Hl. exact Hc. }
    destruct (Hshort Hl H0) as [Heq | [_ Hlt]],
             (IHshort Hs Hq0 Hall) as [Heq' | Hlt'].
    + left. congruence.
    + right. now rewrite <- Heq.
    + right. now rewrite Heq'.
    + right. eapply ltb_trans; eauto.
Qed.

Lemma same_levels_refl (p : Position) : same_levels p p.
Proof. repeat split. Qed.

Lemma same_levels_trans (p q s : Position) :
  same_levels p q -> same_levels q s -> same_levels p s.
Proof. unfold same_levels. intuition congruence. Qed.

Lemma same_levels_triggers (p q : Position) :
  same_levels p q ->
  should_stop_loss q = should_stop_loss p /\
  should_take_profit q = should_take_profit p.
Proof.
  intros (_ & Hs & Hc & Hsl & Htp).
  unfold should_stop_loss, should_take_profit, is_long.
  now rewrite Hs, Hc, Hsl, Htp.
Qed.

Lemma update_pnl_levels (p : Position) : same_levels p (snd (update_pnl p)).
Proof.
  unfold update_pnl.
  destruct (is_long p); simpl; destruct (py_div _ _); repeat split.
Qed.

Lemma update_pnl_raises (p : Position) :
  fst (update_pnl p) =
  if PrimFloat.eqb (entry_price p) 0%float
  then Raise ZeroDivisionError else Ok tt.
Proof.
  unfold update_pnl, py_div.
  destruct (is_long p); simpl; destruct (PrimFloat.eqb _ _); reflexivity.
Qed.

Lemma arm_trailing_levels (p : Position) : same_levels p (arm_trailing p).
Proof. repeat split. Qed.

Lemma update_trailing_stop_levels (p : Position) :
  same_levels p (update_trailing_stop p).
Proof. rewrite update_trailing_stop_frame. repeat split. Qed.

Lemma prepared_levels (p : Position) : same_levels p (prepared p).
Proof.
  unfold prepared. cbv zeta.
  set (p1 := snd (update_pnl p)).
  set (p2 := if negb (trailing_active p1) && should_activate_trailing p1
             then arm_trailing p1 else p1).
  assert (H1 : same_levels p p1) by apply update_pnl_levels.
  assert (H2 : same_levels p1 p2).
  { subst p2. destruct (negb (trailing_active p1) && should_activate_trailing p1);
      [apply arm_trailing_levels | apply same_levels_refl]. }
  assert (H3 : same_levels p2 (if trailing_active p2
                               then update_trailing_stop p2 else p2)).
  { destruct (trailing_active p2);
      [apply update_trailing_stop_levels | apply same_levels_refl]. }
  eauto using same_levels_trans.
Qed.

(** The chain of [_check_position] gives the stop-loss the first place,
    the trailing stop the second and the take-profit the third. *)
Lemma exit_decision_priority (p : Position) :
  (should_stop_loss p = true -> exit_decision p = Some STOP_LOSS) /\
  (should_stop_loss p = false -> should_trailing_stop p = true ->
     exit_decision p = Some TRAILING_STOP) /\
  (should_stop_loss p = false -> should_trailing_stop p = false ->
     should_take_profit p = true -> exit_decision p = Some TAKE_PROFIT) /\
  (should_stop_loss p = false -> should_trailing_stop p = false ->
     should_take_profit p = false -> exit_decision p = None).
Proof.
  unfold exit_decision.
  repeat split; intros; repeat match goal with H : _ = _ |- _ => rewrite H end;
    reflexivity.
Qed.

(** *** More on the position entity *)

Lemma set_trailing_stop_price_same (p : Position) :
  set_trailing_stop_price (trailing_stop_price p) p = p.
Proof. now destruct p. Qed.

Lemma update_trailing_stop_armed (p : Position) :
  update_trailing_stop (arm_trailing p) = arm_trailing p.
Proof.
  unfold arm_trailing, update_trailing_stop, candidate_stop, is_long. simpl.
  destruct (String.eqb (side p) "LONG"); simpl; rewrite ltb_irrefl; simpl;
    [reflexivity|].
  match goal with |- (if ?c then _ else _) = _ => destruct c end;
    reflexivity.
Qed.

Lemma arm_trailing_stop (p : Position) :
  trailing_stop_price (arm_trailing p) = candidate_stop p.
Proof.
  unfold arm_trailing, candidate_stop, is_long. simpl.
  now destruct (String.eqb (side p) "LONG").
Qed.

(** X4.  Calling the ratchet twice at the same price is calling it once,
    whatever the side and the state of the position; and on a position that
    was just armed it changes nothing, the stop being already at the
    candidate. *)
Theorem update_trailing_stop_idempotent (p : Position) :
  update_trailing_stop (update_trailing_stop p) = update_trailing_stop p /\
  update_trailing_stop (arm_trailing p) = arm_trailing p /\
  trailing_stop_price (arm_trailing p) = candidate_stop p.
Proof.
  split; [|split].
  - unfold update_trailing_stop at 2 3.
    destruct (trailing_active p) eqn:Hact; simpl.
    2:{ unfold update_trailing_stop. now rewrite Hact. }
    destruct (is_long p) eqn:Hl.
    + destruct (PrimFloat.ltb (trailing_stop_price p) _) eqn:Hlt.
      * unfold update_trailing_stop, is_long in *. simpl. rewrite Hact, Hl.
        simpl. now rewrite ltb_irrefl.
      * unfold update_trailing_stop. rewrite Hact, Hl. simpl. now rewrite Hlt.
    + destruct (PrimFloat.ltb _ (trailing_stop_price p)
                || PrimFloat.eqb (trailing_stop_price p) 0%float) eqn:Hc.
      * unfold update_trailing_stop, is_long in *. simpl. rewrite Hact, Hl.
        simpl. rewrite ltb_irrefl. simpl.
        match goal with |- (if ?c then _ else _) = _ => destruct c end;
          reflexivity.
      * unfold update_trailing_stop. rewrite Hact, Hl. simpl. now rewrite Hc.
  - apply update_trailing_stop_armed.
  - apply arm_trailing_stop.
Qed.

(** [update_pnl] assigns [pnl], and [pnl_pct] unless it raises. *)
Lemma update_pnl_shape (p : Position) :
  exists a b, snd (update_pnl p) = set_pnl_pct b (set_pnl a p).
Proof.
  unfold update_pnl, py_div.
  destruct (is_long p); simpl; destruct (PrimFloat.eqb _ _); simpl;
    eexists _, _; try reflexivity;
    instantiate (1 := pnl_pct p); now destruct p.
Qed.

(** [PositionStatus(text)] accepts exactly the three values of the
    enumeration, and reading back the value of a member gives the member. *)
Lemma PositionStatus_text_roundtrip (text : string) (st : PositionStatus) :
  (PositionStatus_of_value text = Ok st <-> text = PositionStatus_value st) /\
  (PositionStatus_of_value text = Raise ValueError <->
   text <> "ACTIVE" /\ text <> "TRAILING" /\ text <> "CLOSED").
Proof.
  unfold PositionStatus_of_value.
  destruct (String.eqb_spec text "ACTIVE") as [-> | H1].
  { split; split; try discriminate.
    - now intros [= <-].
    - destruct st; simpl; intros [=]; reflexivity.
    - intros (H & _); congruence. }
  destruct (String.eqb_spec text "TRAILING") as [-> | H2].
  { split; split; try discriminate.
    - now intros [= <-].
    - destruct st; simpl; intros [=]; reflexivity.
    - intros (_ & H & _); congruence. }
  destruct (String.eqb_spec text "CLOSED") as [-> | H3].
  { split; split; try discriminate.
    - now intros [= <-].
    - destruct st; simpl; intros [=]; reflexivity.
    - intros (_ & _ & H); congruence. }
  split; split; try discriminate; auto.
  destruct st; simpl; congruence.
Qed.


End PositionFacts.

Lemma trigger_predicates_witness :
  should_stop_loss (sample_position "p1" "BTC-USD" "LONG" 98.5%float) = true /\
  should_take_profit (sample_position "p1" "BTC-USD" "SHORT" 99%float) = false.
Proof.
  split.
  - apply (proj1 (trigger_predicates
                    (sample_position "p1" "BTC-USD" "LONG" 98.5%float))
                 eq_refl).
    reflexivity.
  - destruct (should_take_profit (sample_position "p1" "BTC-USD" "SHORT" 99%float))
      eqn:H; [|reflexivity].
    apply (proj2 (trigger_predicates
                    (sample_position "p1" "BTC-USD" "SHORT" 99%float))
                 eq_refl) in H.
    discriminate H.
Defined.

Lemma update_trailing_stop_ratchet_witness :
  PrimFloat.ltb
    (trailing_stop_price
       (update_trailing_stop
          (arm_trailing (sample_position "p1" "BTC-USD" "LONG" 101%float))))
    (trailing_stop_price
       (arm_trailing (sample_position "p1" "BTC-USD" "LONG" 101%float)))
  = false.
Proof.
  exact (proj1 (proj1 (update_trailing_stop_ratchet
                         (arm_trailing
                            (sample_position "p1" "BTC-USD" "LONG" 101%float))
                         eq_refl)
                      eq_refl)).
Defined.

Lemma ratchet_successive_calls_witness :
  trailing_stop_price
    (ratchet_over [102%float; 100%float; 103%float]
       (arm_trailing (sample_position "p1" "BTC-USD" "LONG" 101%float)))
  = trailing_stop_price
      (arm_trailing (sample_position "p1" "BTC-USD" "LONG" 101%float)) \/
  float_lt
    (trailing_stop_price
       (arm_trailing (sample_position "p1" "BTC-USD" "LONG" 101%float)))
    (trailing_stop_price
       (ratchet_over [102%float; 100%float; 103%float]
          (arm_trailing (sample_position "p1" "BTC-USD" "LONG" 101%float)))).
Proof.
  exact (proj1 (ratchet_successive_calls
                  [102%float; 100%float; 103%float]
                  (arm_trailing
                     (sample_position "p1" "BTC-USD" "LONG" 101%float))
                  eq_refl)
               eq_refl).
Defined.

(** The claim of C2 fails for SHORT when the stored stop is zero: the
    trailing flag is set, and the call raises the stored stop from 0.0 to
    100.75. *)
Lemma update_trailing_stop_short_unset_increases :
  trailing_active short_unset = true /\
  side short_unset = "SHORT" /\
  trailing_stop_price short_unset = 0%float /\
  trailing_stop_price (update_trailing_stop short_unset) = 100.75%float /\
  float_lt (trailing_stop_price short_unset)
           (trailing_stop_price (update_trailing_stop short_unset)).
Proof. repeat split. Qed.

(** ** Dictionaries *)

Section DictFacts.
Context {V : Type}.
Implicit Types (d : dict V) (k : string) (v : V).

Lemma dict_get_set_eq k v d : dict_get k (dict_set k v d) = Some v.
Proof.
  induction d as [|[k' v'] d IH]; simpl.
  - now rewrite String.eqb_refl.
  - destruct (String.eqb k k') eqn:Hk; simpl; rewrite Hk; auto.
Qed.

Lemma dict_get_set_ne k k' v d :
  k <> k' -> dict_get k (dict_set k' v d) = dict_get k d.
Proof.
  intros Hne. induction d as [|[k0 v0] d IH]; simpl.
  - apply String.eqb_neq in Hne. now rewrite Hne.
  - destruct (String.eqb k' k0) eqn:Hk; simpl.
    + apply String.eqb_eq in Hk; subst k0.
      apply String.eqb_neq in Hne. now rewrite Hne.
    + now rewrite IH.
Qed.

Lemma dict_get_None k d : dict_get k d = None <-> ~ In k (dict_keys d).
Proof.
  induction d as [|[k' v'] d IH]; simpl.
  - tauto.
  - destruct (String.eqb k k') eqn:Hk.
    + apply String.eqb_eq in Hk; subst. split; [discriminate | tauto].
    + apply String.eqb_neq in Hk. rewrite IH. split.
      * intros Hn [Heq | Hin]; [congruence | tauto].
      * tauto.
Qed.

Lemma dict_set_length_absent k v d :
  dict_get k d = None -> length (dict_set k v d) = S (length d).
Proof.
  induction d as [|[k' v'] d IH]; simpl; [reflexivity|].
  destruct (String.eqb k k'); [discriminate|].
  intros H; simpl; now rewrite IH.
Qed.

Lemma dict_set_length_present k v d :
  dict_get k d <> None -> length (dict_set k v d) = length d.
Proof.
  induction d as [|[k' v'] d IH]; simpl; [congruence|].
  destruct (String.eqb k k'); [reflexivity|].
  intros H; simpl; now rewrite IH.
Qed.

Lemma dict_keys_set_present k v d :
  dict_get k d <> None -> dict_keys (dict_set k v d) = dict_keys d.
Proof.
  induction d as [|[k' v'] d IH]; simpl; [congruence|].
  destruct (String.eqb k k'); [reflexivity|].
  intros H; simpl; now rewrite IH.
Qed.

Lemma dict_keys_set_absent k v d :
  dict_get k d = None -> dict_keys (dict_set k v d) = dict_keys d ++ [k].
Proof.
  induction d as [|[k' v'] d IH]; simpl; [reflexivity|].
  destruct (String.eqb k k'); [discriminate|].
  intros H; simpl; now rewrite IH.
Qed.

Lemma dict_set_absent k v d :
  dict_get k d = None -> dict_set k v d = d ++ [(k, v)].
Proof.
  induction d as [|[k' v'] d IH]; simpl; [reflexivity|].
  destruct (String.eqb k k'); [discriminate|].
  intros H; now rewrite IH.
Qed.

Lemma dict_wf_set k v d : dict_wf d -> dict_wf (dict_set k v d).
Proof.
  unfold dict_wf. intros Hwf.
  destruct (dict_get k d) eqn:Hg.
  - rewrite dict_keys_set_present; [assumption | congruence].
  - rewrite dict_keys_set_absent by assumption.
    apply NoDup_app. split; [assumption|]. split.
    + intros x Hx Hin. apply list_elem_of_In in Hx.
      apply list_elem_of_In in Hin. simpl in Hin.
      destruct Hin as [<- | []]. now apply dict_get_None in Hg.
    + apply NoDup_singleton.
Qed.

Lemma dict_del_absent k d : dict_get k d = None -> dict_del k d = d.
Proof.
  induction d as [|[k' v'] d IH]; simpl; [reflexivity|].
  destruct (String.eqb k k'); [discriminate|].
  intros H; now rewrite IH.
Qed.

Lemma dict_keys_del_incl k d x :
  In x (dict_keys (dict_del k d)) -> In x (dict_keys d).
Proof.
  induction d as [|[k' v'] d IH]; simpl; [tauto|].
  destruct (String.eqb k k'); simpl; tauto.
Qed.

Lemma dict_get_del_eq k d : dict_wf d -> dict_get k (dict_del k d) = None.
Proof.
  unfold dict_wf.
  induction d as [|[k' v'] d IH]; simpl; [reflexivity|].
  intros Hwf. apply NoDup_cons in Hwf as [Hnin Hwf].
  destruct (String.eqb k k') eqn:Hk; simpl.
  - apply String.eqb_eq in Hk; subst k'.
    apply dict_get_None. intros Hin. apply Hnin. now apply list_elem_of_In.
  - rewrite Hk. auto.
Qed.

Lemma dict_wf_del k d : dict_wf d -> dict_wf (dict_del k d).
Proof.
  unfold dict_wf.
  induction d as [|[k' v'] d IH]; simpl; [auto|].
  intros Hwf. apply NoDup_cons in Hwf as [Hnin Hwf].
  destruct (String.eqb k k'); simpl; [assumption|].
  apply NoDup_cons. split; [|auto].
  intros Hin. apply Hnin. apply list_elem_of_In.
  apply list_elem_of_In in Hin. eapply dict_keys_del_incl; eauto.
Qed.

Lemma dict_del_length_present k d :
  dict_get k d <> None -> S (length (dict_del k d)) = length d.
Proof.
  induction d as [|[k' v'] d IH]; simpl; [congruence|].
  destruct (String.eqb k k'); [reflexivity|].
  intros H; simpl; now rewrite IH.
Qed.

Lemma dict_del_incl k d kv : In kv (dict_del k d) -> In kv d.
Proof.
  induction d as [|[k' v'] d IH]; simpl; [tauto|].
  destruct (String.eqb k k'); simpl; tauto.
Qed.

Lemma dict_set_incl k v d kv :
  In kv (dict_set k v d) -> kv = (k, v) \/ In kv d.
Proof.
  induction d as [|[k' v'] d IH]; simpl.
  - intros [<- | []]. now left.
  - destruct (String.eqb k k') eqn:Hk; simpl.
    + apply String.eqb_eq in Hk; subst k'. intros [<- | Hin]; auto.
    + intros [<- | Hin]; auto. destruct (IH Hin); auto.
Qed.

Lemma dict_get_In k v d : dict_get k d = Some v -> In (k, v) d.
Proof.
  induction d as [|[k' v'] d IH]; simpl; [discriminate|].
  destruct (String.eqb k k') eqn:Hk.
  - apply String.eqb_eq in Hk; subst k'. intros [= ->]. now left.
  - auto.
Qed.

Lemma dict_set_nonempty k v d : dict_set k v d <> [].
Proof.
  destruct d as [|[k' v'] d]; simpl; [discriminate|].
  destruct (String.eqb k k'); discriminate.
Qed.

Lemma fold_dict_set_nonempty (l acc : dict V) :
  acc <> [] ->
  fold_left (fun a kv => dict_set (fst kv) (snd kv) a) l acc <> [].
Proof.
  revert acc. induction l as [|[k v] l IH]; simpl; intros acc Hne; [exact Hne|].
  apply IH. apply dict_set_nonempty.
Qed.

Lemma dict_In_get k v d : dict_wf d -> In (k, v) d -> dict_get k d = Some v.
Proof.
  unfold dict_wf. induction d as [|[k' v'] d IH]; simpl; [tauto|].
  intros Hwf. apply NoDup_cons in Hwf as [Hnin Hwf].
  intros [Heq | Hin].
  - injection Heq as -> ->. now rewrite String.eqb_refl.
  - destruct (String.eqb k k') eqn:Hk; [|auto].
    apply String.eqb_eq in Hk; subst k'. exfalso. apply Hnin.
    apply list_elem_of_In. change k with (fst (k, v)). now apply in_map.
Qed.

Lemma dict_get_del_ne k k' d :
  k <> k' -> dict_get k (dict_del k' d) = dict_get k d.
Proof.
  intros Hne. induction d as [|[k0 v0] d IH]; simpl; [reflexivity|].
  destruct (String.eqb k' k0) eqn:Hk; simpl.
  - apply String.eqb_eq in Hk; subst k0.
    apply String.eqb_neq in Hne. now rewrite Hne.
  - destruct (String.eqb k k0); auto.
Qed.

Lemma fold_dict_del_keys d :
  fold_left (fun a x => dict_del x a) (dict_keys d) d = [].
Proof.
  induction d as [|[k v] d IH]; simpl; [reflexivity|].
  now rewrite String.eqb_refl.
Qed.

Lemma dict_set_In k v d : In (k, v) (dict_set k v d).
Proof. apply dict_get_In, dict_get_set_eq. Qed.


End DictFacts.

(** ** Running engine code *)

Section EngineFacts.
Context {T : TimeLib}.
Variable E : Env.
Implicit Types (w : World) (r : nat) (p q : Position) (d : dict nat).

Lemma bind_val {A B : Type} (m : M A) (k : A -> M B) w a w' :
  m w = (Val a, w') -> bind m k w = k a w'.
Proof. unfold bind. now intros ->. Qed.

Lemma bind_exc {A B : Type} (m : M A) (k : A -> M B) w e w' :
  m w = (Exc e, w') -> bind m k w = (Exc e, w').
Proof. unfold bind. now intros ->. Qed.

Lemma try_val {A : Type} (m : M A) (h : exn -> M A) w a w' :
  m w = (Val a, w') -> try_except m h w = (Val a, w').
Proof. unfold try_except. now intros ->. Qed.

Lemma try_exc {A : Type} (m : M A) (h : exn -> M A) w e w' :
  m w = (Exc e, w') -> try_except m h w = h e w'.
Proof. unfold try_except. now intros ->. Qed.

Lemma try_reraise {A : Type} (m : M A) w :
  try_except m (fun e => raise e) w = m w.
Proof. unfold try_except, raise. destruct (m w) as [[a|e|] w']; reflexivity. Qed.

Lemma read_run w r p : heap w !! r = Some p -> read r w = (Val p, w).
Proof. unfold read. now intros ->. Qed.

Lemma write_run w r p q :
  heap w !! r = Some p ->
  write r q w = (Val tt, with_heap (<[r := q]> (heap w)) w).
Proof. unfold write. now intros ->. Qed.

Lemma lookup_written w r p q :
  heap w !! r = Some p ->
  heap (with_heap (<[r := q]> (heap w)) w) !! r = Some q.
Proof.
  intros H. simpl. apply list_lookup_insert_eq. eapply lookup_lt_Some; eauto.
Qed.

Lemma assign_run w r p (f : Position -> Position) :
  heap w !! r = Some p ->
  assign r f w = (Val tt, with_heap (<[r := f p]> (heap w)) w).
Proof.
  intros H. unfold assign.
  rewrite (bind_val _ _ _ _ _ (read_run _ _ _ H)).
  now apply write_run with (p := p).
Qed.

Lemma read_all_run d w :
  read_all d w =
  match deref_all (heap w) d with
  | Some items => (Val items, w)
  | None => (Dangling, w)
  end.
Proof.
  induction d as [|[k r] d IH]; simpl; [reflexivity|].
  unfold bind at 1. unfold read.
  destruct (heap w !! r) as [p|]; [|reflexivity].
  unfold bind at 1. rewrite IH.
  destruct (deref_all (heap w) d); reflexivity.
Qed.

Lemma refs_valid_deref (h : list Position) d :
  Forall (fun kr => snd kr < length h) d -> is_Some (deref_all h d).
Proof.
  induction 1 as [|[k r] d Hr _ IH]; simpl; [eauto|].
  simpl in Hr. apply lookup_lt_is_Some in Hr as [p Hp]. rewrite Hp.
  destruct IH as [ps ->]. eauto.
Qed.

Lemma refs_valid_snapshot w : refs_valid w -> is_Some (snapshot w).
Proof. apply refs_valid_deref. Qed.

Lemma save_run w items :
  snapshot w = Some items -> _save_positions E w = (Val tt, saved E items w).
Proof.
  intros Hs. unfold _save_positions, try_except, bind at 1, get_positions.
  unfold bind at 1. rewrite read_all_run. fold (snapshot w). rewrite Hs.
  unfold write_store, bind, ask, saved, raise, ret.
  destruct (store_writable E (ticks w)); reflexivity.
Qed.

Lemma heap_saved items w : heap (saved E items w) = heap w.
Proof. unfold saved. now destruct (store_writable E (ticks w)). Qed.

Lemma positions_saved items w : positions (saved E items w) = positions w.
Proof. unfold saved. now destruct (store_writable E (ticks w)). Qed.

Lemma triggers_saved items w : triggers (saved E items w) = triggers w.
Proof. unfold saved. now destruct (store_writable E (ticks w)). Qed.

Lemma gateway_saved items w : gateway (saved E items w) = gateway w.
Proof. unfold saved. now destruct (store_writable E (ticks w)). Qed.

Lemma ticks_saved items w : ticks (saved E items w) = S (ticks w).
Proof. unfold saved. now destruct (store_writable E (ticks w)). Qed.

Lemma store_saved items w :
  store (saved E items w) =
  if store_writable E (ticks w) then serialize items else store w.
Proof. unfold saved. now destruct (store_writable E (ticks w)). Qed.

Lemma with_positions_same w : with_positions (positions w) w = w.
Proof. now destruct w. Qed.

Lemma refs_valid_frame w w' :
  length (heap w') = length (heap w) -> positions w' = positions w ->
  refs_valid w -> refs_valid w'.
Proof. unfold refs_valid. now intros -> ->. Qed.

Lemma refs_valid_del w id :
  refs_valid w -> refs_valid (with_positions (dict_del id (positions w)) w).
Proof.
  unfold refs_valid; simpl. intros H.
  apply List.Forall_forall. intros kr Hin.
  apply dict_del_incl in Hin.
  now apply (proj1 (List.Forall_forall _ _) H).
Qed.

Lemma mark_closed_run w r p reason :
  heap w !! r = Some p ->
  mark_closed E r reason w =
  (Val tt,
   tick (with_heap (<[r := closed_as reason (utcnow E (ticks w)) p]> (heap w)) w)).
Proof.
  intros H. unfold mark_closed.
  pose proof (lookup_written _ _ _ (set_status CLOSED p) H) as H1.
  rewrite (bind_val _ _ _ _ _ (assign_run _ _ _ (set_status CLOSED) H)).
  rewrite (bind_val _ _ _ _ _
             (assign_run _ _ _ (set_exit_reason (Some reason)) H1)).
  pose proof (lookup_written _ _ _
                (set_exit_reason (Some reason) (set_status CLOSED p)) H1) as H2.
  unfold bind at 1, ask.
  erewrite assign_run by exact H2.
  destruct w as [h d s g tr n]; simpl.
  now rewrite !list_insert_insert_eq.
Qed.

Lemma remove_position_run w id :
  refs_valid w ->
  exists w',
    remove_position E id w = (Val (dict_get id (positions w)), w') /\
    heap w' = heap w /\
    positions w' = dict_del id (positions w) /\
    triggers w' = triggers w /\
    gateway w' = gateway w /\
    (dict_get id (positions w) = None -> w' = w) /\
    (dict_get id (positions w) <> None ->
     exists items,
       snapshot w' = Some items /\
       ticks w' = S (ticks w) /\
       store w' =
       if store_writable E (ticks w) then serialize items else store w).
Proof.
  intros Hv. unfold remove_position, bind at 1, get_positions.
  unfold bind at 1, put_positions.
  destruct (dict_get id (positions w)) as [r|] eqn:Hg.
  - destruct (refs_valid_snapshot _ (refs_valid_del _ id Hv)) as [items Hs].
    rewrite (bind_val _ _ _ _ _ (save_run _ _ Hs)). unfold ret.
    eexists; split; [reflexivity|].
    rewrite heap_saved, positions_saved, triggers_saved, gateway_saved.
    repeat split; try reflexivity; [discriminate|].
    intros _. exists items.
    unfold snapshot in *.
    rewrite heap_saved, positions_saved, ticks_saved, store_saved.
    repeat split; assumption.
  - unfold ret. rewrite (dict_del_absent _ _ Hg), with_positions_same.
    eexists; split; [reflexivity|].
    repeat split; try reflexivity. congruence.
Qed.

(** The order [CoinbaseClient.close_position] submits for a position. *)
Lemma client_close_position_run w product side_ size_ :
  client_close_position E product side_ size_ w =
  (if order_accepted E (ticks w) then Val tt else Exc GatewayError,
   tick (with_gateway
           (gateway w ++
            [CloseOrder product
                        (if String.eqb side_ "LONG" then "SELL" else "BUY")
                        size_]) w)).
Proof.
  unfold client_close_position. rewrite try_reraise.
  unfold rest_market_order, bind, call_gateway, ask, ret, raise; simpl.
  destruct (order_accepted E (ticks w)); reflexivity.
Qed.

(** The common tail of both branches of [_close_position]: mark the
    position closed, then remove it from the set under its identifier. *)
Lemma close_tail_run w r p reason :
  heap w !! r = Some p -> refs_valid w ->
  exists w',
    bind (mark_closed E r reason)
         (fun _ => bind (read r)
            (fun position =>
               bind (remove_position E (position_id position))
                    (fun _ => ret tt))) w = (Val tt, w') /\
    heap w' = <[r := closed_as reason (utcnow E (ticks w)) p]> (heap w) /\
    positions w' = dict_del (position_id p) (positions w) /\
    triggers w' = triggers w /\
    gateway w' = gateway w /\
    (dict_get (position_id p) (positions w) = None -> store w' = store w) /\
    (dict_get (position_id p) (positions w) <> None ->
     exists items,
       snapshot w' = Some items /\
       store w' =
       if store_writable E (S (ticks w)) then serialize items else store w).
Proof.
  intros H Hv.
  rewrite (bind_val _ _ _ _ _ (mark_closed_run _ _ _ reason H)).
  set (c := closed_as reason (utcnow E (ticks w)) p).
  set (w1 := tick (with_heap (<[r := c]> (heap w)) w)).
  assert (H1 : heap w1 !! r = Some c) by exact (lookup_written _ _ _ c H).
  assert (Hv1 : refs_valid w1).
  { apply (refs_valid_frame w); [apply length_insert | reflexivity | exact Hv]. }
  rewrite (bind_val _ _ _ _ _ (read_run _ _ _ H1)).
  destruct (remove_position_run w1 (position_id c) Hv1)
    as (w' & Hrun & Hh & Hp & Ht & Hg & Hnone & Hsome).
  rewrite (bind_val _ _ _ _ _ Hrun). unfold ret.
  exists w'. change (position_id c) with (position_id p) in *.
  change (positions w1) with (positions w) in *.
  repeat split; try assumption.
  - intros Hn. now rewrite (Hnone Hn).
  - intros Hn. destruct (Hsome Hn) as (items & Hs & _ & Hst).
    exists items. split; assumption.
Qed.

(** A close that goes through: paper mode, or an order the exchange
    accepts.  [t] is the reading of the interaction counter at which the
    closing timestamp is taken. *)
Lemma close_position_run w r p reason :
  heap w !! r = Some p -> refs_valid w ->
  ENABLE_TRADING E = false \/ order_accepted E (ticks w) = true ->
  exists w' t,
    _close_position E r reason w = (Val tt, w') /\
    heap w' = <[r := closed_as reason (utcnow E t) p]> (heap w) /\
    positions w' = dict_del (position_id p) (positions w) /\
    triggers w' = triggers w /\
    gateway w' =
      (if ENABLE_TRADING E
       then gateway w ++
            [CloseOrder (product_id p)
                        (if String.eqb (side p) "LONG" then "SELL" else "BUY")
                        (size p)]
       else gateway w) /\
    (dict_get (position_id p) (positions w) = None -> store w' = store w) /\
    (dict_get (position_id p) (positions w) <> None ->
     exists items,
       snapshot w' = Some items /\
       store w' =
       if store_writable E (S t) then serialize items else store w).
Proof.
  intros H Hv Hmode.
  destruct (ENABLE_TRADING E) eqn:Hlive.
  - destruct Hmode as [Hmode | Hacc]; [discriminate|].
    pose proof (client_close_position_run w (product_id p) (side p) (size p))
      as Hc.
    rewrite Hacc in Hc.
    match type of Hc with _ = (_, ?x) => set (w0 := x) in * end.
    destruct (close_tail_run w0 r p reason H Hv) as (w' & Hrun & Hrest).
    exists w', (ticks w0). split; [|exact Hrest].
    unfold _close_position. rewrite try_reraise, Hlive. simpl.
    rewrite (bind_val _ _ _ _ _ (read_run _ _ _ H)).
    rewrite (bind_val _ _ _ _ _ Hc). exact Hrun.
  - destruct (close_tail_run w r p reason H Hv) as (w' & Hrun & Hrest).
    exists w', (ticks w). split; [|exact Hrest].
    unfold _close_position. rewrite try_reraise, Hlive. exact Hrun.
Qed.

(** A close the exchange refuses. *)
Lemma close_position_refused w r p reason :
  ENABLE_TRADING E = true -> heap w !! r = Some p ->
  order_accepted E (ticks w) = false ->
  _close_position E r reason w =
  (Exc GatewayError,
   tick (with_gateway
           (gateway w ++
            [CloseOrder (product_id p)
                        (if String.eqb (side p) "LONG" then "SELL" else "BUY")
                        (size p)]) w)).
Proof.
  intros Hlive H Hacc. unfold _close_position. rewrite try_reraise.
  rewrite Hlive. simpl.
  rewrite (bind_val _ _ _ _ _ (read_run _ _ _ H)).
  pose proof (client_close_position_run w (product_id p) (side p) (size p))
    as Hc.
  rewrite Hacc in Hc. now rewrite (bind_exc _ _ _ _ _ Hc).
Qed.

Lemma keyed_lookup w id r :
  keyed_by_id w -> dict_get id (positions w) = Some r ->
  exists p, heap w !! r = Some p /\ position_id p = id.
Proof.
  unfold keyed_by_id. generalize (positions w) as d.
  induction d as [|[k r'] d IH]; simpl; [discriminate|].
  intros Hk. apply List.Forall_cons_iff in Hk as [Hhd Htl].
  destruct (String.eqb id k) eqn:Heq.
  - intros [= <-]. apply String.eqb_eq in Heq; subst k. exact Hhd.
  - auto.
Qed.

Lemma get_position_run w id :
  get_position id w = (Val (dict_get id (positions w)), w).
Proof. reflexivity. Qed.

Lemma refs_valid_set w r p id :
  heap w !! r = Some p -> refs_valid w ->
  refs_valid (with_positions (dict_set id r (positions w)) w).
Proof.
  unfold refs_valid; simpl. intros H. apply lookup_lt_Some in H.
  generalize (positions w) as d.
  induction d as [|[k r'] d IH]; simpl; intros Hv.
  - repeat constructor. exact H.
  - apply List.Forall_cons_iff in Hv as [Hhd Htl].
    destruct (String.eqb id k); constructor; auto.
Qed.

Lemma add_position_run w r p :
  heap w !! r = Some p -> refs_valid w ->
  exists items,
    snapshot (with_positions (dict_set (position_id p) r (positions w)) w)
      = Some items /\
    add_position E r w =
    (Val tt,
     saved E items
           (with_positions (dict_set (position_id p) r (positions w)) w)).
Proof.
  intros H Hv.
  destruct (refs_valid_snapshot _ (refs_valid_set w r p (position_id p) H Hv))
    as [items Hs].
  exists items. split; [exact Hs|].
  unfold add_position.
  rewrite (bind_val _ _ _ _ _ (read_run _ _ _ H)).
  unfold bind at 1, get_positions. unfold bind at 1, put_positions.
  now apply save_run.
Qed.

(** *** One check of a position *)

Lemma check_pnl_run w r p :
  heap w !! r = Some p ->
  check_pnl r w =
  (match fst (update_pnl p) with Ok _ => Val tt | Raise e => Exc e end,
   with_heap (<[r := snd (update_pnl p)]> (heap w)) w).
Proof.
  intros H. unfold check_pnl.
  rewrite (bind_val _ _ _ _ _ (read_run _ _ _ H)).
  destruct (update_pnl p) as [res p1]; simpl.
  rewrite (bind_val _ _ _ _ _ (write_run _ _ _ p1 H)).
  destruct res as [[]|e]; reflexivity.
Qed.

Lemma check_activation_run w r p :
  heap w !! r = Some p -> refs_valid w ->
  exists w',
    check_activation E r w = (Val tt, w') /\
    heap w' =
      <[r := if negb (trailing_active p) && should_activate_trailing p
             then arm_trailing p else p]> (heap w) /\
    positions w' = positions w /\
    triggers w' = triggers w /\
    gateway w' = gateway w.
Proof.
  intros H Hv. unfold check_activation.
  rewrite (bind_val _ _ _ _ _ (read_run _ _ _ H)).
  destruct (negb (trailing_active p) && should_activate_trailing p).
  - rewrite (bind_val _ _ _ _ _ (write_run _ _ _ (arm_trailing p) H)).
    set (w1 := with_heap (<[r := arm_trailing p]> (heap w)) w).
    assert (Hv1 : refs_valid w1).
    { apply (refs_valid_frame w); [apply length_insert | reflexivity | exact Hv]. }
    destruct (refs_valid_snapshot _ Hv1) as [items Hs].
    rewrite (save_run _ _ Hs). eexists; split; [reflexivity|].
    rewrite heap_saved, positions_saved, triggers_saved, gateway_saved.
    repeat split.
  - exists w. split; [reflexivity|].
    rewrite (list_insert_id _ _ _ H). repeat split.
Qed.

Lemma check_ratchet_run w r p :
  heap w !! r = Some p -> refs_valid w ->
  exists w',
    check_ratchet E r w = (Val tt, w') /\
    heap w' =
      <[r := if trailing_active p then update_trailing_stop p else p]> (heap w) /\
    positions w' = positions w /\
    triggers w' = triggers w /\
    gateway w' = gateway w.
Proof.
  intros H Hv. unfold check_ratchet.
  rewrite (bind_val _ _ _ _ _ (read_run _ _ _ H)).
  destruct (trailing_active p).
  - rewrite (bind_val _ _ _ _ _ (write_run _ _ _ (update_trailing_stop p) H)).
    set (w1 := with_heap (<[r := update_trailing_stop p]> (heap w)) w).
    assert (H1 : heap w1 !! r = Some (update_trailing_stop p))
      by exact (lookup_written _ _ _ _ H).
    rewrite (bind_val _ _ _ _ _ (read_run _ _ _ H1)).
    destruct (py_ne _ _).
    + assert (Hv1 : refs_valid w1).
      { apply (refs_valid_frame w);
          [apply length_insert | reflexivity | exact Hv]. }
      destruct (refs_valid_snapshot _ Hv1) as [items Hs].
      rewrite (save_run _ _ Hs). eexists; split; [reflexivity|].
      rewrite heap_saved, positions_saved, triggers_saved, gateway_saved.
      repeat split.
    + exists w1. repeat split.
  - exists w. split; [reflexivity|].
    rewrite (list_insert_id _ _ _ H). repeat split.
Qed.

Lemma touches_only_refl r w : touches_only r w w.
Proof. repeat split; auto. Qed.

Lemma touches_only_trans r w1 w2 w3 :
  touches_only r w1 w2 -> touches_only r w2 w3 -> touches_only r w1 w3.
Proof.
  intros (Hl1 & Hh1 & Hp1) (Hl2 & Hh2 & Hp2). repeat split.
  - congruence.
  - intros r' Hne. rewrite Hh2, Hh1; auto.
  - auto.
Qed.

Lemma touches_only_write r w w' q :
  heap w' = <[r := q]> (heap w) -> positions w' = positions w ->
  touches_only r w w'.
Proof.
  intros Hh Hp. repeat split.
  - rewrite Hh. apply length_insert.
  - intros r' Hne. rewrite Hh. apply list_lookup_insert_ne. congruence.
  - now rewrite Hp.
Qed.

Lemma touches_only_valid r w w' :
  touches_only r w w' -> refs_valid w -> refs_valid w'.
Proof.
  intros (Hl & _ & Hp) Hv. unfold refs_valid in *.
  apply List.Forall_forall. intros kr Hin. rewrite Hl.
  now apply (proj1 (List.Forall_forall _ _) Hv), Hp.
Qed.

Lemma close_position_triggers w r p reason :
  heap w !! r = Some p -> refs_valid w ->
  exists o w',
    _close_position E r reason w = (o, w') /\
    o <> Dangling /\
    triggers w' = triggers w /\
    touches_only r w w'.
Proof.
  intros H Hv.
  destruct (ENABLE_TRADING E) eqn:Hlive;
    [destruct (order_accepted E (ticks w)) eqn:Hacc|].
  - destruct (close_position_run w r p reason H Hv (or_intror Hacc))
      as (w' & t & Hrun & Hh & Hp & Ht & _).
    exists (Val tt), w'.
    repeat split; try assumption; try discriminate.
    + rewrite Hh. apply length_insert.
    + intros r' Hne. rewrite Hh. apply list_lookup_insert_ne. congruence.
    + intros kr. rewrite Hp. apply dict_del_incl.
  - rewrite (close_position_refused w r p reason Hlive H Hacc).
    do 2 eexists. split; [reflexivity|].
    repeat split; auto; discriminate.
  - destruct (close_position_run w r p reason H Hv (or_introl Hlive))
      as (w' & t & Hrun & Hh & Hp & Ht & _).
    exists (Val tt), w'.
    repeat split; try assumption; try discriminate.
    + rewrite Hh. apply length_insert.
    + intros r' Hne. rewrite Hh. apply list_lookup_insert_ne. congruence.
    + intros kr. rewrite Hp. apply dict_del_incl.
Qed.

Lemma check_exit_run w r p :
  heap w !! r = Some p -> refs_valid w ->
  exists o w',
    check_exit E r w = (o, w') /\
    o <> Dangling /\
    triggers w' =
      triggers w ++
      match exit_decision p with
      | Some reason => [(position_id p, reason)]
      | None => []
      end /\
    touches_only r w w'.
Proof.
  intros H Hv. unfold check_exit.
  rewrite (bind_val _ _ _ _ _ (read_run _ _ _ H)).
  destruct (exit_decision p) as [reason|].
  - unfold bind at 1, log_trigger.
    set (w1 := with_triggers _ w).
    destruct (close_position_triggers w1 r p reason H Hv)
      as (o & w' & Hrun & Ho & Ht & Hto).
    exists o, w'. repeat split; try assumption; apply Hto.
  - exists (Val tt), w. split; [reflexivity|]. split; [discriminate|].
    split; [now rewrite app_nil_r | apply touches_only_refl].
Qed.

Lemma check_position_run w r p :
  heap w !! r = Some p -> refs_valid w ->
  exists w',
    _check_position E r w = (Val tt, w') /\
    triggers w' = triggers w ++ chosen_exit p /\
    touches_only r w w'.
Proof.
  intros H Hv. unfold _check_position, chosen_exit, prepared.
  pose proof (check_pnl_run w r p H) as Hpnl.
  pose proof (update_pnl_levels p) as Hlev.
  destruct (update_pnl p) as [res p1]; simpl in *.
  set (w1 := with_heap (<[r := p1]> (heap w)) w) in *.
  assert (Hto1 : touches_only r w w1)
    by (now apply touches_only_write with (q := p1)).
  destruct res as [[]|e].
  2:{ rewrite (try_exc _ _ _ _ _ (bind_exc _ _ _ _ _ Hpnl)).
      eexists; split; [reflexivity|]. simpl.
      split; [now rewrite app_nil_r | exact Hto1]. }
  assert (H1 : heap w1 !! r = Some p1) by exact (lookup_written _ _ _ _ H).
  assert (Hv1 : refs_valid w1) by exact (touches_only_valid _ _ _ Hto1 Hv).
  destruct (check_activation_run w1 r p1 H1 Hv1)
    as (w2 & Hact & Hh2 & Hp2 & Ht2 & _).
  set (p2 := if negb (trailing_active p1) && should_activate_trailing p1
             then arm_trailing p1 else p1) in *.
  assert (Hto2 : touches_only r w1 w2)
    by (now apply touches_only_write with (q := p2)).
  assert (Hlt : r < length (heap w)) by (eapply lookup_lt_Some; eauto).
  assert (H2 : heap w2 !! r = Some p2).
  { rewrite Hh2. apply list_lookup_insert_eq.
    simpl. now rewrite length_insert. }
  assert (Hv2 : refs_valid w2) by exact (touches_only_valid _ _ _ Hto2 Hv1).
  destruct (check_ratchet_run w2 r p2 H2 Hv2)
    as (w3 & Hrat & Hh3 & Hp3 & Ht3 & _).
  set (p3 := if trailing_active p2 then update_trailing_stop p2 else p2) in *.
  assert (Hto3 : touches_only r w2 w3)
    by (now apply touches_only_write with (q := p3)).
  assert (H3 : heap w3 !! r = Some p3).
  { rewrite Hh3. apply list_lookup_insert_eq.
    rewrite Hh2. simpl. now rewrite !length_insert. }
  assert (Hv3 : refs_valid w3) by exact (touches_only_valid _ _ _ Hto3 Hv2).
  destruct (check_exit_run w3 r p3 H3 Hv3)
    as (o & w4 & Hexit & Ho & Ht4 & Hto4).
  assert (Hbody :
    bind (check_pnl r)
         (fun _ => bind (check_activation E r)
            (fun _ => bind (check_ratchet E r)
               (fun _ => check_exit E r))) w = (o, w4)).
  { rewrite (bind_val _ _ _ _ _ Hpnl), (bind_val _ _ _ _ _ Hact).
    now rewrite (bind_val _ _ _ _ _ Hrat). }
  exists w4. split; [|split].
  - unfold try_except. rewrite Hbody.
    destruct o as [[]|e|]; [reflexivity | reflexivity | congruence].
  - rewrite Ht4, Ht3, Ht2.
    assert (Hid : position_id p3 = position_id p).
    { transitivity (position_id p2); [|transitivity (position_id p1)].
      - subst p3. destruct (trailing_active p2); [|reflexivity].
        apply update_trailing_stop_levels.
      - subst p2. destruct (_ && _); reflexivity.
      - apply Hlev. }
    now rewrite Hid.
  - eauto using touches_only_trans.
Qed.

(** One pass of the monitor loop checks every position of the set as it
    was when the pass began. *)
Lemma check_each_run (snap : dict nat) : forall w,
  refs_valid w ->
  Forall (fun kr => snd kr < length (heap w)) snap ->
  NoDup (dict_values snap) ->
  exists w' items,
    deref_all (heap w) snap = Some items /\
    check_each E snap w = (Val tt, w') /\
    triggers w' =
      triggers w ++ concat (map (fun kp => chosen_exit (snd kp)) items).
Proof.
  induction snap as [|[k r] snap IH]; intros w Hv Hsnap Hnd.
  - exists w, []. simpl. repeat split. now rewrite app_nil_r.
  - apply List.Forall_cons_iff in Hsnap as [Hr Hsnap]. simpl in Hr.
    unfold dict_values in Hnd. simpl in Hnd.
    apply NoDup_cons in Hnd as [Hnin Hnd].
    destruct (lookup_lt_is_Some_2 _ _ Hr) as [p Hp].
    destruct (check_position_run w r p Hp Hv) as (w1 & Hrun & Ht & Hto).
    assert (Hv1 : refs_valid w1) by exact (touches_only_valid _ _ _ Hto Hv).
    destruct Hto as (Hlen & Hsame & _).
    assert (Hsnap1 : Forall (fun kr => snd kr < length (heap w1)) snap)
      by now rewrite Hlen.
    destruct (IH w1 Hv1 Hsnap1 Hnd) as (w' & items & Hd & Hrest & Ht').
    assert (Hd0 : deref_all (heap w) snap = Some items).
    { rewrite <- Hd. clear - Hsame Hnin.
      induction snap as [|[k' r'] snap IHs]; simpl; [reflexivity|].
      assert (r' <> r).
      { intros ->. apply Hnin. simpl. left. }
      rewrite Hsame by assumption. rewrite IHs; [reflexivity|].
      intros Hin. apply Hnin. simpl. now right. }
    exists w', ((k, p) :: items). simpl. rewrite Hp, Hd0.
    split; [reflexivity|]. split.
    + now rewrite (bind_val _ _ _ _ _ Hrun).
    + rewrite Ht', Ht. now rewrite <- app_assoc.
Qed.

Lemma monitor_pass_run w :
  refs_valid w -> refs_distinct w ->
  exists w' items,
    snapshot w = Some items /\
    _monitor_pass E w = (Val tt, w') /\
    triggers w' =
      triggers w ++ concat (map (fun kp => chosen_exit (snd kp)) items).
Proof.
  intros Hv Hd. unfold _monitor_pass, bind at 1, get_positions.
  now apply check_each_run.
Qed.

(** *** Saving and loading *)

Lemma deref_all_valid (h : list Position) d ds :
  deref_all h d = Some ds -> Forall (fun kr => snd kr < length h) d.
Proof.
  revert ds. induction d as [|[k r] d IH]; simpl; intros ds; [constructor|].
  destruct (h !! r) as [p|] eqn:Hr; [|discriminate].
  destruct (deref_all h d) as [ps|]; [|discriminate].
  intros _. constructor; [|eauto].
  simpl. eapply lookup_lt_Some; eauto.
Qed.

Lemma deref_all_keys (h : list Position) d ds :
  deref_all h d = Some ds -> dict_keys ds = dict_keys d.
Proof.
  revert ds. induction d as [|[k r] d IH]; simpl; intros ds.
  - now intros [= <-].
  - destruct (h !! r) as [p|]; [|discriminate].
    destruct (deref_all h d) as [ps|]; [|discriminate].
    intros [= <-]. simpl. f_equal. eauto.
Qed.

Lemma deref_all_app (h : list Position) x d :
  Forall (fun kr => snd kr < length h) d ->
  deref_all (h ++ [x]) d = deref_all h d.
Proof.
  induction 1 as [|[k r] d Hr _ IH]; simpl; [reflexivity|].
  simpl in Hr. now rewrite (lookup_app_l _ _ _ Hr), IH.
Qed.

Lemma deref_all_set (h : list Position) d ds k r p :
  deref_all h d = Some ds -> h !! r = Some p ->
  deref_all h (dict_set k r d) = Some (dict_set k p ds).
Proof.
  intros Hd Hr. revert ds Hd.
  induction d as [|[k' r'] d IH]; simpl; intros ds.
  - intros [= <-]. simpl. now rewrite Hr.
  - destruct (h !! r') as [p'|] eqn:Hr'; [|discriminate].
    destruct (deref_all h d) as [ps|] eqn:Hps; [|discriminate].
    intros [= <-]. simpl.
    destruct (String.eqb k k'); simpl.
    + now rewrite Hr, Hps.
    + now rewrite Hr', (IH ps eq_refl).
Qed.

Lemma load_each_run items : forall w ds,
  snapshot w = Some ds ->
  exists o w',
    load_each items w = (o, w') /\
    o <> Dangling /\
    snapshot w' =
      Some (fold_left (fun a kv => dict_set (fst kv) (snd kv) a)
                      (loadable_prefix items) ds) /\
    store w' = store w /\ gateway w' = gateway w /\ triggers w' = triggers w.
Proof.
  induction items as [|[k e] items IH]; intros w ds Hs.
  - exists (Val tt), w. simpl. repeat split; [discriminate | exact Hs].
  - simpl. destruct (of_entry e) as [p|err].
    + unfold bind at 1; simpl. unfold bind at 1, alloc.
      unfold bind at 1, get_positions. unfold bind at 1, put_positions.
      set (w2 := with_positions _ _).
      assert (Hs2 : snapshot w2 = Some (dict_set k p ds)).
      { unfold snapshot in *. simpl.
        apply deref_all_set.
        - rewrite deref_all_app; [exact Hs|]. eapply deref_all_valid; eauto.
        - now apply list_lookup_middle. }
      destruct (IH w2 (dict_set k p ds) Hs2) as (o & w' & Hrun & Ho & Hrest).
      exists o, w'. split; [exact Hrun|]. split; [exact Ho|]. exact Hrest.
    + exists (Exc err), w. unfold bind, lift, raise.
      repeat split; [discriminate | exact Hs].
Qed.

Lemma init_run (s : Store) :
  exists w',
    PositionManager_init (boot s) = (Val tt, w') /\
    snapshot w' = Some (loaded s) /\
    store w' = s.
Proof.
  unfold PositionManager_init, bind at 1, put_positions. simpl.
  change (with_positions [] (boot s)) with (boot s).
  unfold _load_positions, try_except, bind, load_items.
  destruct s as [| | |items]; simpl;
    try (eexists; split; [reflexivity|]; split; reflexivity).
  destruct (load_each_run items (boot (Mapping items)) [] eq_refl)
    as (o & w' & Hrun & Ho & Hs & Hst & _).
  rewrite Hrun. exists w'.
  destruct o as [[]|e|]; [| |congruence]; (split; [reflexivity|]);
    split; assumption.
Qed.

Lemma status_roundtrip (st : PositionStatus) :
  PositionStatus_of_value (PositionStatus_value st) = Ok st.
Proof. now destruct st. Qed.

Lemma of_entry_to_record p :
  (forall t : datetime, fromisoformat (isoformat t) = Some t) ->
  of_entry (Rec (to_record p)) = Ok (reopened p).
Proof.
  intros Hiso. unfold of_entry, to_record, rbind, field; simpl.
  rewrite status_roundtrip, Hiso. now destruct p.
Qed.

Lemma reopened_open p :
  closed_at p = None -> exit_reason p = None -> reopened p = p.
Proof. destruct p; simpl. now intros -> ->. Qed.

Lemma loadable_prefix_serialized (items : dict Position) :
  (forall t : datetime, fromisoformat (isoformat t) = Some t) ->
  loadable_prefix (map (fun kp => (fst kp, Rec (to_record (snd kp)))) items)
  = map (fun kp => (fst kp, reopened (snd kp))) items.
Proof.
  intros Hiso. induction items as [|[k p] items IH]; [reflexivity|].
  cbn [map fst snd loadable_prefix].
  now rewrite (of_entry_to_record p Hiso), IH.
Qed.

Lemma fold_dict_set_fresh {V : Type} (l acc : dict V) :
  NoDup (dict_keys (acc ++ l)) ->
  fold_left (fun a kv => dict_set (fst kv) (snd kv) a) l acc = acc ++ l.
Proof.
  revert acc. induction l as [|[k v] l IH]; intros acc Hnd; simpl.
  - now rewrite app_nil_r.
  - assert (Hfresh : dict_get k acc = None).
    { apply dict_get_None. intros Hin.
      unfold dict_keys in Hnd. rewrite map_app in Hnd. simpl in Hnd.
      apply NoDup_app in Hnd as (_ & Hdisj & _).
      apply (Hdisj k); [now apply list_elem_of_In | left]. }
    rewrite (dict_set_absent _ _ _ Hfresh).
    rewrite IH; rewrite <- app_assoc; [reflexivity | exact Hnd].
Qed.

Lemma dict_of_list_wf {V : Type} (l : dict V) :
  dict_wf l -> dict_of_list l = l.
Proof. intros H. unfold dict_of_list. now rewrite fold_dict_set_fresh. Qed.

Lemma reopened_all_open (items : dict Position) :
  Forall (fun kp => closed_at (snd kp) = None /\ exit_reason (snd kp) = None)
         items ->
  map (fun kp => (fst kp, reopened (snd kp))) items = items.
Proof.
  induction 1 as [|[k q] l [Hc He] _ IH]; [reflexivity|].
  cbn [map fst snd] in *. now rewrite (reopened_open q Hc He), IH.
Qed.

(** *** Invariants of the position set *)

Lemma keyed_refs_valid w : keyed_by_id w -> refs_valid w.
Proof.
  unfold keyed_by_id, refs_valid. apply List.Forall_impl.
  intros [k r] (p & Hp & _). simpl in *. eapply lookup_lt_Some; eauto.
Qed.

Lemma keyed_refs_distinct w :
  keyed_by_id w -> dict_wf (positions w) -> refs_distinct w.
Proof.
  unfold keyed_by_id, dict_wf, refs_distinct, dict_values, dict_keys.
  generalize (positions w) as d.
  induction d as [|[k r] d IH]; simpl; intros Hk Hwf; [constructor|].
  apply List.Forall_cons_iff in Hk as [(p & Hp & Hid) Hk].
  apply NoDup_cons in Hwf as [Hnin Hwf]. simpl in *.
  apply NoDup_cons. split; [|auto].
  intros Hin. apply Hnin.
  apply list_elem_of_In in Hin. apply List.in_map_iff in Hin.
  destruct Hin as ([k' r'] & Heq & Hin). simpl in Heq; subst r'.
  destruct (proj1 (List.Forall_forall _ _) Hk _ Hin) as (p' & Hp' & Hid').
  simpl in *. rewrite Hp in Hp'. injection Hp' as <-.
  rewrite Hid in Hid'. subst k'.
  apply list_elem_of_In. apply List.in_map_iff. now exists (k, r).
Qed.

Lemma add_position_keeps_keyed w r p :
  heap w !! r = Some p -> keyed_by_id w -> dict_wf (positions w) ->
  keyed_by_id (snd (add_position E r w)) /\
  dict_wf (positions (snd (add_position E r w))).
Proof.
  intros H Hk Hwf.
  destruct (add_position_run w r p H (keyed_refs_valid w Hk))
    as (items & _ & Hrun).
  rewrite Hrun. simpl. unfold keyed_by_id.
  rewrite heap_saved, positions_saved. simpl. split.
  - apply List.Forall_forall. intros kr Hin.
    apply dict_set_incl in Hin as [-> | Hin]; [exists p; split; [exact H | reflexivity]|].
    exact (proj1 (List.Forall_forall _ _) Hk _ Hin).
  - now apply dict_wf_set.
Qed.

Lemma close_position_keeps_keyed w r p reason :
  heap w !! r = Some p -> keyed_by_id w -> dict_wf (positions w) ->
  keyed_by_id (snd (_close_position E r reason w)) /\
  dict_wf (positions (snd (_close_position E r reason w))).
Proof.
  intros H Hk Hwf. pose proof (keyed_refs_valid w Hk) as Hv.
  assert (Hcase :
    (exists t, heap (snd (_close_position E r reason w))
                = <[r := closed_as reason t p]> (heap w) /\
               positions (snd (_close_position E r reason w))
                = dict_del (position_id p) (positions w)) \/
    (heap (snd (_close_position E r reason w)) = heap w /\
     positions (snd (_close_position E r reason w)) = positions w)).
  { destruct (ENABLE_TRADING E) eqn:Hlive;
      [destruct (order_accepted E (ticks w)) eqn:Hacc|].
    - destruct (close_position_run w r p reason H Hv (or_intror Hacc))
        as (w' & t & Hrun & Hh & Hp & _).
      rewrite Hrun. left. eauto.
    - rewrite (close_position_refused w r p reason Hlive H Hacc). now right.
    - destruct (close_position_run w r p reason H Hv (or_introl Hlive))
        as (w' & t & Hrun & Hh & Hp & _).
      rewrite Hrun. left. eauto. }
  destruct Hcase as [(t & Hh & Hp) | (Hh & Hp)]; unfold keyed_by_id;
    rewrite Hh, Hp; [|split; assumption].
  split; [|now apply dict_wf_del].
  apply List.Forall_forall. intros [k r'] Hin. apply dict_del_incl in Hin.
  destruct (proj1 (List.Forall_forall _ _) Hk _ Hin) as (q & Hq & Hid).
  simpl in *. destruct (decide (r' = r)) as [-> | Hne].
  - exists (closed_as reason t p). split.
    + apply list_lookup_insert_eq. eapply lookup_lt_Some; eauto.
    + simpl. congruence.
  - exists q. split; [|exact Hid].
    rewrite list_lookup_insert_ne; [exact Hq | congruence].
Qed.

(** *** The shape of the state after a check *)

Lemma update_pnl_keeps (p : Position) :
  let p1 := snd (update_pnl p) in
  trailing_active p1 = trailing_active p /\
  trailing_stop_price p1 = trailing_stop_price p /\
  should_activate_trailing p1 = should_activate_trailing p /\
  trailing_stop_price (update_trailing_stop p1)
    = trailing_stop_price (update_trailing_stop p).
Proof.
  cbv zeta. destruct (update_pnl_shape p) as (a & b & ->).
  repeat split.
  unfold update_trailing_stop, is_long; simpl.
  repeat match goal with |- context [if ?c then _ else _] => destruct c end;
    reflexivity.
Qed.

Lemma close_position_shape w r p reason :
  heap w !! r = Some p -> refs_valid w ->
  exists o w' q,
    _close_position E r reason w = (o, w') /\
    o <> Dangling /\
    heap w' = <[r := q]> (heap w) /\
    position_id q = position_id p /\
    (positions w' = positions w \/
     positions w' = dict_del (position_id p) (positions w)) /\
    triggers w' = triggers w /\
    (ENABLE_TRADING E = false -> gateway w' = gateway w).
Proof.
  intros H Hv.
  destruct (ENABLE_TRADING E) eqn:Hlive;
    [destruct (order_accepted E (ticks w)) eqn:Hacc|].
  - destruct (close_position_run w r p reason H Hv (or_intror Hacc))
      as (w' & t & Hrun & Hh & Hp & Ht & _).
    exists (Val tt), w', (closed_as reason (utcnow E t) p).
    repeat split; auto; discriminate.
  - eexists (Exc GatewayError), _, p.
    split; [exact (close_position_refused w r p reason Hlive H Hacc)|].
    simpl. rewrite (list_insert_id _ _ _ H).
    repeat split; auto; discriminate.
  - destruct (close_position_run w r p reason H Hv (or_introl Hlive))
      as (w' & t & Hrun & Hh & Hp & Ht & Hg & _).
    exists (Val tt), w', (closed_as reason (utcnow E t) p).
    rewrite Hlive in Hg.
    repeat split; auto; discriminate.
Qed.

Lemma check_position_shape w r p :
  heap w !! r = Some p -> refs_valid w ->
  exists w' q,
    _check_position E r w = (Val tt, w') /\
    heap w' = <[r := q]> (heap w) /\
    position_id q = position_id p /\
    (positions w' = positions w \/
     positions w' = dict_del (position_id p) (positions w)) /\
    (ENABLE_TRADING E = false -> gateway w' = gateway w).
Proof.
  intros H Hv. unfold _check_position.
  pose proof (check_pnl_run w r p H) as Hpnl.
  pose proof (update_pnl_levels p) as Hlev.
  destruct (update_pnl p) as [res p1]; simpl in *.
  set (w1 := with_heap (<[r := p1]> (heap w)) w) in *.
  assert (Hid1 : position_id p1 = position_id p) by apply Hlev.
  destruct res as [[]|e].
  2:{ rewrite (try_exc _ _ _ _ _ (bind_exc _ _ _ _ _ Hpnl)).
      exists w1, p1. repeat split; auto. }
  assert (Hlt : r < length (heap w)) by (eapply lookup_lt_Some; eauto).
  assert (H1 : heap w1 !! r = Some p1) by exact (lookup_written _ _ _ _ H).
  assert (Hv1 : refs_valid w1).
  { apply (refs_valid_frame w); [apply length_insert | reflexivity | exact Hv]. }
  destruct (check_activation_run w1 r p1 H1 Hv1)
    as (w2 & Hact & Hh2 & Hp2 & Ht2 & Hg2).
  set (p2 := if negb (trailing_active p1) && should_activate_trailing p1
             then arm_trailing p1 else p1) in *.
  assert (Hid2 : position_id p2 = position_id p).
  { subst p2. destruct (_ && _); exact Hid1. }
  simpl in Hh2. rewrite list_insert_insert_eq in Hh2.
  assert (H2 : heap w2 !! r = Some p2).
  { rewrite Hh2. now apply list_lookup_insert_eq. }
  assert (Hv2 : refs_valid w2).
  { apply (refs_valid_frame w1); [|exact Hp2|exact Hv1].
    rewrite Hh2. simpl. now rewrite !length_insert. }
  destruct (check_ratchet_run w2 r p2 H2 Hv2)
    as (w3 & Hrat & Hh3 & Hp3 & Ht3 & Hg3).
  set (p3 := if trailing_active p2 then update_trailing_stop p2 else p2) in *.
  assert (Hid3 : position_id p3 = position_id p).
  { subst p3. destruct (trailing_active p2); [|exact Hid2].
    rewrite <- Hid2. apply update_trailing_stop_levels. }
  rewrite Hh2, list_insert_insert_eq in Hh3.
  assert (H3 : heap w3 !! r = Some p3).
  { rewrite Hh3. now apply list_lookup_insert_eq. }
  assert (Hv3 : refs_valid w3).
  { apply (refs_valid_frame w2); [|exact Hp3|exact Hv2].
    rewrite Hh3, Hh2. now rewrite !length_insert. }
  assert (Hexit : exists o w4 q,
    check_exit E r w3 = (o, w4) /\ o <> Dangling /\
    heap w4 = <[r := q]> (heap w3) /\ position_id q = position_id p3 /\
    (positions w4 = positions w3 \/
     positions w4 = dict_del (position_id p3) (positions w3)) /\
    (ENABLE_TRADING E = false -> gateway w4 = gateway w3)).
  { unfold check_exit. rewrite (bind_val _ _ _ _ _ (read_run _ _ _ H3)).
    destruct (exit_decision p3) as [reason|].
    - unfold bind at 1, log_trigger. set (w3' := with_triggers _ w3).
      destruct (close_position_shape w3' r p3 reason H3 Hv3)
        as (o & w4 & q & Hrun & Ho & Hh & Hq & Hp & _ & Hg).
      exists o, w4, q. repeat split; assumption.
    - exists (Val tt), w3, p3. rewrite (list_insert_id _ _ _ H3).
      repeat split; auto; discriminate. }
  destruct Hexit as (o & w4 & q & Hexit & Ho & Hh4 & Hq & Hp4 & Hg4).
  exists w4, q. split; [|split; [|split; [|split]]].
  - unfold try_except.
    rewrite (bind_val _ _ _ _ _ Hpnl), (bind_val _ _ _ _ _ Hact),
      (bind_val _ _ _ _ _ Hrat), Hexit.
    destruct o as [[]|e|]; [reflexivity | reflexivity | congruence].
  - rewrite Hh4, Hh3. apply list_insert_insert_eq.
  - congruence.
  - rewrite Hid3, Hp3, Hp2 in Hp4. exact Hp4.
  - intros Hpaper. rewrite (Hg4 Hpaper), Hg3, Hg2. reflexivity.
Qed.

Lemma keyed_update w w' r p q :
  keyed_by_id w -> heap w !! r = Some p ->
  heap w' = <[r := q]> (heap w) -> position_id q = position_id p ->
  (forall kr, In kr (positions w') -> In kr (positions w)) ->
  keyed_by_id w'.
Proof.
  intros Hk H Hh Hq Hsub. unfold keyed_by_id in *.
  apply List.Forall_forall. intros [k r'] Hin.
  destruct (proj1 (List.Forall_forall _ _) Hk _ (Hsub _ Hin)) as (x & Hx & Hid).
  simpl in *. rewrite Hh. destruct (decide (r' = r)) as [-> | Hne].
  - exists q. split.
    + apply list_lookup_insert_eq. eapply lookup_lt_Some; eauto.
    + rewrite Hx in H. injection H as ->. congruence.
  - exists x. split; [|exact Hid].
    rewrite list_lookup_insert_ne; [exact Hx | congruence].
Qed.

Lemma check_position_keeps w r p :
  heap w !! r = Some p -> well_formed w ->
  exists w',
    _check_position E r w = (Val tt, w') /\
    well_formed w' /\
    length (heap w') = length (heap w) /\
    (forall kr, In kr (positions w') -> In kr (positions w)) /\
    (ENABLE_TRADING E = false -> gateway w' = gateway w).
Proof.
  intros H [Hwf Hk].
  destruct (check_position_shape w r p H (keyed_refs_valid w Hk))
    as (w' & q & Hrun & Hh & Hq & Hp & Hg).
  assert (Hsub : forall kr, In kr (positions w') -> In kr (positions w)).
  { intros kr. destruct Hp as [-> | ->]; [auto | apply dict_del_incl]. }
  exists w'. split; [exact Hrun|]. split; [split|].
  - destruct Hp as [-> | ->]; [exact Hwf | now apply dict_wf_del].
  - eapply keyed_update; eauto.
  - split; [rewrite Hh; apply length_insert|]. split; assumption.
Qed.

Lemma check_each_keeps (snap : dict nat) : forall w,
  well_formed w ->
  Forall (fun kr => snd kr < length (heap w)) snap ->
  exists w',
    check_each E snap w = (Val tt, w') /\
    well_formed w' /\
    length (heap w') = length (heap w) /\
    (forall kr, In kr (positions w') -> In kr (positions w)) /\
    (ENABLE_TRADING E = false -> gateway w' = gateway w).
Proof.
  induction snap as [|[k r] snap IH]; intros w Hw Hsnap.
  - exists w. simpl. repeat split; auto; apply Hw.
  - apply List.Forall_cons_iff in Hsnap as [Hr Hsnap]. simpl in Hr.
    destruct (lookup_lt_is_Some_2 _ _ Hr) as [p Hp].
    destruct (check_position_keeps w r p Hp Hw)
      as (w1 & Hrun & Hw1 & Hlen & Hsub & Hg).
    assert (Hsnap1 : Forall (fun kr => snd kr < length (heap w1)) snap)
      by now rewrite Hlen.
    destruct (IH w1 Hw1 Hsnap1) as (w' & Hrest & Hw' & Hlen' & Hsub' & Hg').
    exists w'. simpl. rewrite (bind_val _ _ _ _ _ Hrun).
    split; [exact Hrest|]. split; [exact Hw'|].
    split; [congruence|]. split; [auto|].
    intros Hpaper. now rewrite (Hg' Hpaper), (Hg Hpaper).
Qed.


(** *** Price updates *)

Lemma repriced_idem symbol price (p : Position) :
  repriced symbol price (repriced symbol price p) = repriced symbol price p.
Proof.
  unfold repriced.
  destruct (String.eqb (product_id p) symbol) eqn:H; simpl; now rewrite H.
Qed.

Lemma update_each_run symbol price refs : forall w,
  Forall (fun r => r < length (heap w)) refs ->
  exists h,
    update_each refs symbol price w = (Val tt, with_heap h w) /\
    length h = length (heap w) /\
    (forall r p, heap w !! r = Some p ->
       (In r refs -> h !! r = Some (repriced symbol price p)) /\
       (~ In r refs -> h !! r = Some p)).
Proof.
  induction refs as [|r0 refs IH]; intros w Hv.
  - exists (heap w). split; [now destruct w|]. split; [reflexivity|].
    intros r p H. split; [intros [] | intros _; exact H].
  - apply List.Forall_cons_iff in Hv as [Hr Hv].
    destruct (lookup_lt_is_Some_2 _ _ Hr) as [p0 Hp0].
    set (h1 := <[r0 := repriced symbol price p0]> (heap w)).
    assert (Hw : (if String.eqb (product_id p0) symbol
                  then write r0 (set_current_price price p0)
                  else ret tt) w = (Val tt, with_heap h1 w)).
    { subst h1. unfold repriced. destruct (String.eqb _ _).
      - exact (write_run _ _ _ _ Hp0).
      - rewrite (list_insert_id _ _ _ Hp0). now destruct w. }
    destruct (IH (with_heap h1 w)) as (h & Hrun & Hlen & Hobj).
    { simpl. subst h1. now rewrite length_insert. }
    exists h. split; [|split].
    + simpl. rewrite (bind_val _ _ _ _ _ (read_run _ _ _ Hp0)).
      rewrite (bind_val _ _ _ _ _ Hw). exact Hrun.
    + rewrite Hlen. simpl. subst h1. apply length_insert.
    + intros r p H. destruct (decide (r = r0)) as [-> | Hne].
      * rewrite Hp0 in H. injection H as <-.
        assert (H1 : heap (with_heap h1 w) !! r0
                     = Some (repriced symbol price p0)).
        { simpl. subst h1. now apply list_lookup_insert_eq. }
        destruct (Hobj _ _ H1) as [Hin Hnin].
        split; [|intros Hc; exfalso; apply Hc; now left].
        intros _. destruct (in_dec Nat.eq_dec r0 refs) as [Hi | Hi].
        -- now rewrite (Hin Hi), repriced_idem.
        -- exact (Hnin Hi).
      * assert (H1 : heap (with_heap h1 w) !! r = Some p).
        { simpl. subst h1. rewrite list_lookup_insert_ne; congruence. }
        destruct (Hobj _ _ H1) as [Hin Hnin]. split.
        -- intros [Heq | Hi]; [congruence | exact (Hin Hi)].
        -- intros Hc. apply Hnin. intros Hi. apply Hc. now right.
Qed.

Lemma deref_all_map (f : Position -> Position) (h h' : list Position) d :
  forall items,
  (forall kr p, In kr d -> h !! snd kr = Some p -> h' !! snd kr = Some (f p)) ->
  deref_all h d = Some items ->
  deref_all h' d = Some (map (fun kp => (fst kp, f (snd kp))) items).
Proof.
  induction d as [|[k r] d IH]; simpl; intros items Hf.
  - now intros [= <-].
  - destruct (h !! r) as [p|] eqn:Hr; [|discriminate].
    destruct (deref_all h d) as [ps|] eqn:Hps; [|discriminate].
    intros [= <-].
    pose proof (Hf (k, r) p (or_introl eq_refl) Hr) as Hh. simpl in Hh.
    rewrite Hh, (IH ps); [reflexivity | | reflexivity].
    intros kr q Hin. apply Hf. now right.
Qed.

(** *** Manual closes *)

Lemma close_manual_absent w id :
  dict_get id (positions w) = None ->
  close_position_manual E id w = (Val false, w).
Proof.
  intros H. unfold close_position_manual.
  rewrite (bind_val _ _ _ _ _ (get_position_run w id)). now rewrite H.
Qed.

Lemma close_manual_present w id r p :
  dict_get id (positions w) = Some r -> heap w !! r = Some p ->
  refs_valid w ->
  ENABLE_TRADING E = false \/ order_accepted E (ticks w) = true ->
  exists w' t,
    close_position_manual E id w = (Val true, w') /\
    heap w' = <[r := closed_as MANUAL (utcnow E t) p]> (heap w) /\
    positions w' = dict_del (position_id p) (positions w) /\
    triggers w' = triggers w /\
    (ENABLE_TRADING E = false -> gateway w' = gateway w).
Proof.
  intros Hid H Hv Hmode.
  destruct (close_position_run w r p MANUAL H Hv Hmode)
    as (w' & t & Hrun & Hh & Hp & Ht & Hg & _).
  exists w', t. split; [|repeat split; auto].
  - unfold close_position_manual.
    rewrite (bind_val _ _ _ _ _ (get_position_run w id)), Hid.
    now rewrite (bind_val _ _ _ _ _ Hrun).
  - intros Hpaper. now rewrite Hpaper in Hg.
Qed.

Lemma close_manual_refused w id r p :
  dict_get id (positions w) = Some r -> heap w !! r = Some p ->
  ENABLE_TRADING E = true -> order_accepted E (ticks w) = false ->
  close_position_manual E id w =
  (Exc GatewayError,
   tick (with_gateway
           (gateway w ++
            [CloseOrder (product_id p)
                        (if String.eqb (side p) "LONG" then "SELL" else "BUY")
                        (size p)]) w)).
Proof.
  intros Hid H Hlive Hacc. unfold close_position_manual.
  rewrite (bind_val _ _ _ _ _ (get_position_run w id)), Hid.
  apply bind_exc. now apply close_position_refused.
Qed.

Lemma unregistered_after_close w id r p :
  well_formed w -> dict_get id (positions w) = Some r ->
  heap w !! r = Some p ->
  position_id p = id /\
  forall k, ~ In (k, r) (dict_del id (positions w)).
Proof.
  intros [Hwf Hk] Hid H.
  destruct (keyed_lookup w id r Hk Hid) as (p' & Hp' & Hpid).
  rewrite H in Hp'. injection Hp' as <-. split; [exact Hpid|].
  intros k Hin.
  pose proof (dict_del_incl _ _ _ Hin) as Hin0.
  destruct (proj1 (List.Forall_forall _ _) Hk _ Hin0) as (q & Hq & Hqid).
  simpl in *. rewrite H in Hq. injection Hq as <-.
  assert (Hkid : k = id) by congruence. rewrite Hkid in Hin.
  pose proof (dict_In_get _ _ _ (dict_wf_del id _ Hwf) Hin) as Hget.
  rewrite (dict_get_del_eq id _ Hwf) in Hget. discriminate.
Qed.

Lemma close_each_run ids : forall w,
  well_formed w ->
  ENABLE_TRADING E = false \/ (forall t, order_accepted E t = true) ->
  exists w',
    close_each E ids w = (Val tt, w') /\
    well_formed w' /\
    positions w' = fold_left (fun a x => dict_del x a) ids (positions w) /\
    (ENABLE_TRADING E = false -> gateway w' = gateway w) /\
    (forall r, (forall k, ~ In (k, r) (positions w)) ->
       heap w' !! r = heap w !! r) /\
    (forall id r p, In id ids -> dict_get id (positions w) = Some r ->
       heap w !! r = Some p ->
       exists t, heap w' !! r = Some (closed_as MANUAL (utcnow E t) p)).
Proof.
  induction ids as [|id0 ids IH]; intros w Hw Hmode.
  - exists w. simpl. repeat split; auto; try apply Hw. intros ? ? ? [].
  - destruct (dict_get id0 (positions w)) as [r0|] eqn:Hid0.
    + destruct Hw as [Hwf Hk].
      destruct (keyed_lookup w id0 r0 Hk Hid0) as (p0 & Hp0 & Hpid0).
      assert (Hmode0 : ENABLE_TRADING E = false \/
                       order_accepted E (ticks w) = true)
        by (destruct Hmode; auto).
      destruct (close_manual_present w id0 r0 p0 Hid0 Hp0
                  (keyed_refs_valid w Hk) Hmode0)
        as (w1 & t & Hrun & Hh1 & Hp1 & _ & Hg1).
      rewrite Hpid0 in Hp1.
      destruct (unregistered_after_close w id0 r0 p0 (conj Hwf Hk) Hid0 Hp0)
        as [_ Hgone].
      assert (Hw1 : well_formed w1).
      { split; [rewrite Hp1; now apply dict_wf_del|].
        apply (keyed_update w w1 r0 p0 _ Hk Hp0 Hh1); [reflexivity|].
        intros kr. rewrite Hp1. apply dict_del_incl. }
      destruct (IH w1 Hw1 Hmode) as (w' & Hrest & Hw' & Hp' & Hg' & Hfr & Hcl).
      exists w'. simpl. rewrite (bind_val _ _ _ _ _ Hrun).
      split; [exact Hrest|]. split; [exact Hw'|].
      split; [now rewrite Hp', Hp1|].
      split; [intros Hpaper; now rewrite (Hg' Hpaper), (Hg1 Hpaper)|]. split.
      * intros r Hr. rewrite Hfr.
        -- rewrite Hh1. apply list_lookup_insert_ne. intros <-.
           apply (Hr id0). now apply dict_get_In.
        -- intros k Hin. rewrite Hp1 in Hin. apply (Hr k).
           now apply dict_del_incl in Hin.
      * intros id r p Hin Hid H.
        destruct (String.eqb id id0) eqn:Heq.
        -- apply String.eqb_eq in Heq; subst id.
           rewrite Hid0 in Hid. injection Hid as <-.
           rewrite Hp0 in H. injection H as <-.
           exists t. rewrite Hfr.
           ++ rewrite Hh1. apply list_lookup_insert_eq.
              eapply lookup_lt_Some; eauto.
           ++ intros k. rewrite Hp1. apply Hgone.
        -- apply String.eqb_neq in Heq.
           destruct Hin as [-> | Hin]; [congruence|].
           assert (Hne : r <> r0).
           { intros ->. rewrite Hp0 in H. injection H as <-.
             destruct (keyed_lookup w id r0 Hk Hid) as (q & Hq & Hqid).
             rewrite Hp0 in Hq. injection Hq as <-. congruence. }
           apply (Hcl id r p Hin).
           ++ rewrite Hp1. now rewrite dict_get_del_ne.
           ++ rewrite Hh1. rewrite list_lookup_insert_ne; [exact H | congruence].
    + destruct (IH w Hw Hmode) as (w' & Hrest & Hw' & Hp' & Hg' & Hfr & Hcl).
      exists w'. simpl.
      rewrite (bind_val _ _ _ _ _ (close_manual_absent w id0 Hid0)).
      split; [exact Hrest|]. split; [exact Hw'|].
      split; [now rewrite Hp', (dict_del_absent _ _ Hid0)|].
      split; [exact Hg'|]. split; [exact Hfr|].
      intros id r p [-> | Hin] Hid H; [congruence|]. now apply (Hcl id r p).
Qed.

(** *** The search loop of the exit handler *)

Lemma find_position_run symbol side_ w d : forall items,
  deref_all (heap w) d = Some items ->
  exists o,
    find_position (dict_values d) symbol side_ w = (Val o, w) /\
    match first_match symbol side_ items with
    | None => o = None
    | Some (k, p) => exists r, o = Some r /\ In (k, r) d /\ heap w !! r = Some p
    end.
Proof.
  induction d as [|[k r] d IH]; simpl; intros items.
  - intros [= <-]. exists None. split; reflexivity.
  - destruct (heap w !! r) as [p|] eqn:Hr; [|discriminate].
    destruct (deref_all (heap w) d) as [ps|] eqn:Hps; [|discriminate].
    intros [= <-].
    rewrite (bind_val _ _ _ _ _ (read_run _ _ _ Hr)).
    unfold first_match; simpl. unfold matches at 1.
    destruct (String.eqb (product_id p) symbol && String.eqb (side p) side_).
    + exists (Some r). split; [reflexivity|]. exists r. auto.
    + destruct (IH ps eq_refl) as (o & Hrun & Hspec).
      exists o. split; [exact Hrun|].
      fold (first_match symbol side_ ps).
      destruct (first_match symbol side_ ps) as [[k' p']|]; [|exact Hspec].
      destruct Hspec as (r' & -> & Hin & Hp). exists r'. auto.
Qed.

(** *** The exchange client *)

Lemma place_market_order_run w product side_ usd :
  place_market_order E product side_ usd w =
  (if order_accepted E (ticks w) then Val tt else Exc GatewayError,
   tick (with_gateway (gateway w ++ [MarketOrder product side_ usd]) w)).
Proof.
  unfold place_market_order. rewrite try_reraise.
  unfold rest_market_order, bind, call_gateway, ask, ret, raise; simpl.
  destruct (order_accepted E (ticks w)); reflexivity.
Qed.

Lemma get_current_price_run w product :
  get_current_price E product w =
  (Val (quoted_price E (ticks w)),
   tick (with_gateway (gateway w ++ [GetProduct product]) w)).
Proof. reflexivity. Qed.

Lemma subscribe_trades_run w products :
  subscribe_trades E products w =
  (if subscribe_ok E (ticks w) then Val tt else Exc GatewayError,
   tick (with_gateway (gateway w ++ [Subscribe products]) w)).
Proof.
  unfold subscribe_trades. rewrite try_reraise.
  unfold bind, call_gateway, ask, ret, raise; simpl.
  destruct (subscribe_ok E (ticks w)); reflexivity.
Qed.

Lemma get_active_products_run w items :
  snapshot w = Some items ->
  get_active_products w = (Val (products_of items), w).
Proof.
  intros Hs. unfold get_active_products, bind at 1, get_positions.
  unfold bind at 1. rewrite read_all_run. fold (snapshot w). now rewrite Hs.
Qed.

Lemma products_of_spec (items : dict Position) s :
  In s (products_of items) <->
  exists kp, In kp items /\ product_id (snd kp) = s.
Proof.
  unfold products_of. rewrite nodup_In, in_map_iff.
  split; intros (kp & H1 & H2); exists kp; split; assumption.
Qed.

Lemma entry_guards_run w alert items :
  snapshot w = Some items ->
  entry_guards E alert w =
  (if at_capacity E w || holds_product (alert_symbol alert) items
   then Exc (HTTPException 400) else Val tt, w).
Proof.
  intros Hs. unfold entry_guards, bind at 1, get_positions, at_capacity.
  destruct (Z.of_nat (length (positions w)) >=? MAX_CONCURRENT_POSITIONS E)%Z;
    [reflexivity|].
  unfold bind at 1, ret. unfold bind at 1. rewrite read_all_run.
  fold (snapshot w). rewrite Hs. simpl. unfold holds_product.
  destruct (existsb _ items); reflexivity.
Qed.


Lemma handle_entry_guard_400 w alert items :
  snapshot w = Some items ->
  at_capacity E w || holds_product (alert_symbol alert) items = true ->
  handle_long_entry E alert w = (Exc (HTTPException 400), w) /\
  handle_short_entry E alert w = (Exc (HTTPException 400), w).
Proof.
  intros Hs Hc. pose proof (entry_guards_run w alert items Hs) as Hg.
  rewrite Hc in Hg.
  split; unfold handle_long_entry, handle_short_entry, handle_entry;
    rewrite try_reraise; exact (bind_exc _ _ _ _ _ Hg).
Qed.


Lemma bind_ret {A B : Type} (a : A) (k : A -> M B) w : bind (ret a) k w = k a w.
Proof. reflexivity. Qed.


(** *** Start-up, decoding and the close-all handler *)

Lemma PositionStatus_of_value_inv text st :
  PositionStatus_of_value text = Ok st -> text = PositionStatus_value st.
Proof.
  unfold PositionStatus_of_value.
  destruct (String.eqb_spec text "ACTIVE") as [-> | _]; [now intros [= <-]|].
  destruct (String.eqb_spec text "TRAILING") as [-> | _]; [now intros [= <-]|].
  destruct (String.eqb_spec text "CLOSED") as [-> | _]; [now intros [= <-]|].
  discriminate.
Qed.

Lemma keyed_items (h : list Position) d : forall items,
  deref_all h d = Some items ->
  (Forall (fun kr => exists p, h !! snd kr = Some p /\ position_id p = fst kr) d
   <-> Forall (fun kp => position_id (snd kp) = fst kp) items).
Proof.
  induction d as [|[k r] d IH]; simpl; intros items.
  - intros [= <-]. split; constructor.
  - destruct (h !! r) as [p|] eqn:Hr; [|discriminate].
    destruct (deref_all h d) as [ps|] eqn:Hps; [|discriminate].
    intros [= <-]. rewrite !List.Forall_cons_iff, (IH ps eq_refl). simpl.
    split; intros [Hhd Htl]; (split; [|exact Htl]).
    + destruct Hhd as (q & Hq & Hid). rewrite Hr in Hq.
      injection Hq as <-. exact Hid.
    + exists p. rewrite Hr. auto.
Qed.

Lemma fold_dict_set_wf {V : Type} (l acc : dict V) :
  dict_wf acc ->
  dict_wf (fold_left (fun a kv => dict_set (fst kv) (snd kv) a) l acc).
Proof.
  revert acc. induction l as [|[k v] l IH]; simpl; intros acc Hwf; [exact Hwf|].
  apply IH. now apply dict_wf_set.
Qed.

Lemma close_listed_run d : forall w acc,
  positions w = d -> well_formed w ->
  ENABLE_TRADING E = false \/ (forall t, order_accepted E t = true) ->
  exists w',
    close_listed E (dict_values d) acc w = (Val (acc ++ dict_keys d), w') /\
    close_each E (dict_keys d) w = (Val tt, w').
Proof.
  induction d as [|[k r] d IH]; intros w acc Hd Hw Hmode.
  - exists w. simpl. now rewrite app_nil_r.
  - destruct Hw as [Hwf Hk].
    assert (Hid : dict_get k (positions w) = Some r).
    { rewrite Hd. simpl. now rewrite String.eqb_refl. }
    destruct (keyed_lookup w k r Hk Hid) as (p & Hp & Hpid).
    assert (Hmode0 : ENABLE_TRADING E = false \/
                     order_accepted E (ticks w) = true)
      by (destruct Hmode; auto).
    destruct (close_manual_present w k r p Hid Hp (keyed_refs_valid w Hk) Hmode0)
      as (w1 & t & Hrun & Hh1 & Hp1 & _).
    rewrite Hpid in Hp1.
    assert (Hd1 : positions w1 = d).
    { rewrite Hp1, Hd. simpl. now rewrite String.eqb_refl. }
    assert (Hw1 : well_formed w1).
    { split; [rewrite Hp1; now apply dict_wf_del|].
      apply (keyed_update w w1 r p _ Hk Hp Hh1); [reflexivity|].
      intros kr. rewrite Hp1. apply dict_del_incl. }
    assert (Hr1 : heap w1 !! r = Some (closed_as MANUAL (utcnow E t) p)).
    { rewrite Hh1. apply list_lookup_insert_eq. eapply lookup_lt_Some; eauto. }
    destruct (IH w1 (acc ++ [k]) Hd1 Hw1 Hmode) as (w' & Hl & He).
    exists w'. cbn [dict_values dict_keys map fst snd close_listed close_each].
    split.
    + rewrite (bind_val _ _ _ _ _ (read_run _ _ _ Hp)), Hpid.
      rewrite (bind_val _ _ _ _ _ Hrun).
      rewrite (bind_val _ _ _ _ _ (read_run _ _ _ Hr1)).
      simpl position_id. rewrite Hpid.
      unfold dict_values, dict_keys in Hl. rewrite Hl.
      now rewrite <- app_assoc.
    + now rewrite (bind_val _ _ _ _ _ Hrun).
Qed.

Lemma close_listed_refused w k r d p acc :
  positions w = (k, r) :: d -> heap w !! r = Some p -> position_id p = k ->
  ENABLE_TRADING E = true -> order_accepted E (ticks w) = false ->
  close_listed E (dict_values (positions w)) acc w =
  (Exc GatewayError,
   tick (with_gateway
           (gateway w ++
            [CloseOrder (product_id p)
                        (if String.eqb (side p) "LONG" then "SELL" else "BUY")
                        (size p)]) w)).
Proof.
  intros Hd Hp Hpid Hlive Hacc.
  assert (Hid : dict_get k (positions w) = Some r).
  { rewrite Hd. simpl. now rewrite String.eqb_refl. }
  rewrite Hd. cbn [dict_values map snd close_listed].
  rewrite (bind_val _ _ _ _ _ (read_run _ _ _ Hp)), Hpid.
  apply bind_exc. exact (close_manual_refused w k r p Hid Hp Hlive Hacc).
Qed.


(** *** A check that exits *)

Lemma check_position_exit_run w r p reason :
  heap w !! r = Some p -> refs_valid w ->
  PrimFloat.eqb (entry_price p) 0%float = false ->
  exit_decision (prepared p) = Some reason ->
  ENABLE_TRADING E = false \/ (forall t, order_accepted E t = true) ->
  exists w' t,
    _check_position E r w = (Val tt, w') /\
    heap w' = <[r := closed_as reason (utcnow E t) (prepared p)]> (heap w) /\
    positions w' = dict_del (position_id p) (positions w) /\
    triggers w' = triggers w ++ [(position_id p, reason)] /\
    (ENABLE_TRADING E = false -> gateway w' = gateway w).
Proof.
  intros H Hv H0 Hexit Hmode. unfold _check_position.
  pose proof (check_pnl_run w r p H) as Hpnl.
  rewrite update_pnl_raises, H0 in Hpnl.
  pose proof (prepared_levels p) as (Hid & _).
  unfold prepared in Hexit, Hid |- *. cbv zeta in Hexit, Hid |- *.
  set (p1 := snd (update_pnl p)) in *.
  set (w1 := with_heap (<[r := p1]> (heap w)) w) in *.
  assert (Hlt : r < length (heap w)) by (eapply lookup_lt_Some; eauto).
  assert (H1 : heap w1 !! r = Some p1) by exact (lookup_written _ _ _ _ H).
  assert (Hv1 : refs_valid w1).
  { apply (refs_valid_frame w); [apply length_insert | reflexivity | exact Hv]. }
  destruct (check_activation_run w1 r p1 H1 Hv1)
    as (w2 & Hact & Hh2 & Hp2 & Ht2 & Hg2).
  set (p2 := if negb (trailing_active p1) && should_activate_trailing p1
             then arm_trailing p1 else p1) in *.
  simpl in Hh2. rewrite list_insert_insert_eq in Hh2.
  assert (H2 : heap w2 !! r = Some p2).
  { rewrite Hh2. now apply list_lookup_insert_eq. }
  assert (Hv2 : refs_valid w2).
  { apply (refs_valid_frame w1); [|exact Hp2|exact Hv1].
    rewrite Hh2. simpl. now rewrite !length_insert. }
  destruct (check_ratchet_run w2 r p2 H2 Hv2)
    as (w3 & Hrat & Hh3 & Hp3 & Ht3 & Hg3).
  set (p3 := if trailing_active p2 then update_trailing_stop p2 else p2) in *.
  rewrite Hh2, list_insert_insert_eq in Hh3.
  assert (H3 : heap w3 !! r = Some p3).
  { rewrite Hh3. now apply list_lookup_insert_eq. }
  assert (Hv3 : refs_valid w3).
  { apply (refs_valid_frame w2); [|exact Hp3|exact Hv2].
    rewrite Hh3, Hh2. now rewrite !length_insert. }
  set (w4 := with_triggers (triggers w3 ++ [(position_id p3, reason)]) w3).
  assert (Hmode4 : ENABLE_TRADING E = false \/
                   order_accepted E (ticks w4) = true)
    by (destruct Hmode; auto).
  destruct (close_position_run w4 r p3 reason H3 Hv3 Hmode4)
    as (w' & t & Hrun & Hh & Hp & Ht & Hg & _).
  exists w', t. split; [|split; [|split; [|split]]].
  - unfold try_except.
    rewrite (bind_val _ _ _ _ _ Hpnl), (bind_val _ _ _ _ _ Hact),
      (bind_val _ _ _ _ _ Hrat).
    unfold check_exit. rewrite (bind_val _ _ _ _ _ (read_run _ _ _ H3)).
    rewrite Hexit. unfold bind at 1, log_trigger. fold w4.
    now rewrite Hrun.
  - rewrite Hh. simpl. rewrite Hh3. apply list_insert_insert_eq.
  - rewrite Hp. simpl. now rewrite Hid, Hp3, Hp2.
  - rewrite Ht. simpl. now rewrite Hid, Ht3, Ht2.
  - intros Hpaper. rewrite Hpaper in Hg. rewrite Hg. simpl.
    now rewrite Hg3, Hg2.
Qed.


End EngineFacts.

(** ** The properties of the specification *)

Section EngineClaims.
Context {T : TimeLib}.
Implicit Types (w : World) (r : nat) (p q : Position) (d : dict nat).

(** C4.  In live mode, when the exchange refuses the closing order,
    [_close_position] raises and changes neither the position set, nor the
    position, nor the store: the position stays under monitoring.  The same
    holds for a manual close of a registered position, which propagates the
    error. *)
Theorem close_position_gateway_error_keeps_position (E : Env) w r p reason :
  ENABLE_TRADING E = true ->
  heap w !! r = Some p ->
  order_accepted E (ticks w) = false ->
  (exists w',
     _close_position E r reason w = (Exc GatewayError, w') /\
     positions w' = positions w /\ heap w' = heap w /\ store w' = store w) /\
  (forall id, dict_get id (positions w) = Some r ->
     exists w',
       close_position_manual E id w = (Exc GatewayError, w') /\
       positions w' = positions w /\ heap w' = heap w /\ store w' = store w).
Proof.
  intros Hlive H Hacc.
  pose proof (close_position_refused E w r p reason Hlive H Hacc) as Hrun.
  split.
  - eexists; split; [exact Hrun|]. repeat split.
  - intros id Hid. eexists; split.
    + unfold close_position_manual.
      rewrite (bind_val _ _ _ _ _ (get_position_run w id)), Hid.
      rewrite (bind_exc _ _ _ _ _
                 (close_position_refused E w r p MANUAL Hlive H Hacc)).
      reflexivity.
    + repeat split.
Qed.

(** C8.  In paper mode, closing a position that is registered under its
    identifier returns normally, makes no call to the exchange, leaves the
    position CLOSED with the given reason and the current time as closing
    timestamp, and removes it from the set.  A live close that the exchange
    accepts ends in the same position set with the position marked in the
    same way; it differs by the order it submits. *)
Theorem close_position_paper_mode (E : Env) w r p reason :
  ENABLE_TRADING E = false ->
  heap w !! r = Some p ->
  refs_valid w ->
  dict_wf (positions w) ->
  dict_get (position_id p) (positions w) = Some r ->
  exists w',
    _close_position E r reason w = (Val tt, w') /\
    gateway w' = gateway w /\
    heap w' !! r = Some (closed_as reason (utcnow E (ticks w)) p) /\
    status (closed_as reason (utcnow E (ticks w)) p) = CLOSED /\
    exit_reason (closed_as reason (utcnow E (ticks w)) p) = Some reason /\
    closed_at (closed_as reason (utcnow E (ticks w)) p)
      = Some (utcnow E (ticks w)) /\
    positions w' = dict_del (position_id p) (positions w) /\
    dict_get (position_id p) (positions w') = None /\
    S (length (positions w')) = length (positions w) /\
    (forall E' : Env,
       ENABLE_TRADING E' = true -> order_accepted E' (ticks w) = true ->
       exists w'' t,
         _close_position E' r reason w = (Val tt, w'') /\
         heap w'' !! r = Some (closed_as reason (utcnow E' t) p) /\
         positions w'' = positions w' /\
         gateway w'' =
           gateway w ++
           [CloseOrder (product_id p)
                       (if String.eqb (side p) "LONG" then "SELL" else "BUY")
                       (size p)]).
Proof.
  intros Hpaper H Hv Hwf Hid.
  assert (Hlt : r < length (heap w)) by (eapply lookup_lt_Some; eauto).
  unfold _close_position. rewrite try_reraise, Hpaper. simpl.
  destruct (close_tail_run E w r p reason H Hv)
    as (w' & Hrun & Hh & Hp & _ & Hg & _).
  exists w'. split; [exact Hrun|]. split; [exact Hg|].
  split; [rewrite Hh; now apply list_lookup_insert_eq|].
  do 3 (split; [reflexivity|]).
  split; [exact Hp|].
  split; [rewrite Hp; now apply dict_get_del_eq|].
  split; [rewrite Hp; apply dict_del_length_present; congruence|].
  intros E' Hlive Hacc.
  destruct (close_position_run E' w r p reason H Hv (or_intror Hacc))
    as (w'' & t & Hrun' & Hh' & Hp' & _ & Hg' & _).
  exists w'', t. split; [exact Hrun'|].
  split; [rewrite Hh'; now apply list_lookup_insert_eq|].
  split; [congruence|].
  now rewrite Hg', Hlive.
Qed.

(** C7.  For an identifier under which an open position is registered, a
    manual close that goes through (paper mode, or an order the exchange
    accepts) returns [True]; a second manual close of the same identifier
    returns [False] and leaves the whole state, the position set included,
    as the first call left it.  More generally a manual close of an
    identifier that is not registered returns [False] and changes nothing. *)
Theorem close_position_manual_twice (E : Env) w id :
  dict_wf (positions w) ->
  keyed_by_id w ->
  (forall r,
     dict_get id (positions w) = Some r ->
     ENABLE_TRADING E = false \/ order_accepted E (ticks w) = true ->
     exists w1,
       close_position_manual E id w = (Val true, w1) /\
       close_position_manual E id w1 = (Val false, w1) /\
       length (positions (snd (close_position_manual E id w1)))
         = length (positions w1) /\
       S (length (positions w1)) = length (positions w)) /\
  (dict_get id (positions w) = None ->
     close_position_manual E id w = (Val false, w)).
Proof.
  intros Hwf Hk. split.
  - intros r Hid Hmode.
    destruct (keyed_lookup w id r Hk Hid) as (p & H & Hpid).
    destruct (close_position_run E w r p MANUAL H (keyed_refs_valid w Hk) Hmode)
      as (w1 & t & Hrun & _ & Hp & _).
    rewrite Hpid in Hp.
    assert (Hgone : dict_get id (positions w1) = None).
    { rewrite Hp. now apply dict_get_del_eq. }
    assert (Hsecond : close_position_manual E id w1 = (Val false, w1)).
    { unfold close_position_manual.
      now rewrite (bind_val _ _ _ _ _ (get_position_run w1 id)), Hgone. }
    exists w1. split; [|split; [exact Hsecond|split]].
    + unfold close_position_manual.
      rewrite (bind_val _ _ _ _ _ (get_position_run w id)), Hid.
      now rewrite (bind_val _ _ _ _ _ Hrun).
    + now rewrite Hsecond.
    + rewrite Hp. apply dict_del_length_present. congruence.
  - intros Hnone. unfold close_position_manual.
    now rewrite (bind_val _ _ _ _ _ (get_position_run w id)), Hnone.
Qed.

(** C3, as the code has it.  [add_position] never fails.  It registers the
    position under its identifier: appended to the set when the identifier
    is absent, and put in the place of the position registered before when
    it is present (the size of the set is then unchanged).  In both cases
    the set is then saved: the file holds the new set whenever it can be
    written. *)
Theorem add_position_inserts_or_replaces (E : Env) w r p :
  heap w !! r = Some p ->
  refs_valid w ->
  exists w',
    add_position E r w = (Val tt, w') /\
    heap w' = heap w /\
    positions w' = dict_set (position_id p) r (positions w) /\
    dict_get (position_id p) (positions w') = Some r /\
    (dict_get (position_id p) (positions w) = None ->
       positions w' = positions w ++ [(position_id p, r)]) /\
    (dict_get (position_id p) (positions w) <> None ->
       length (positions w') = length (positions w)) /\
    exists items,
      snapshot w' = Some items /\
      store w' =
      if store_writable E (ticks w) then serialize items else store w.
Proof.
  intros H Hv.
  destruct (add_position_run E w r p H Hv) as (items & Hs & Hrun).
  eexists. split; [exact Hrun|].
  rewrite heap_saved, positions_saved, store_saved. simpl.
  split; [reflexivity|]. split; [reflexivity|].
  split; [apply dict_get_set_eq|].
  split; [apply dict_set_absent|].
  split; [apply dict_set_length_present|].
  exists items. split; [|reflexivity].
  unfold snapshot in *. now rewrite heap_saved, positions_saved.
Qed.

(** C1.  One check of a position returns normally and logs exactly the
    trigger [chosen_exit] names: none when the P&L update raises, otherwise
    the first of stop-loss, trailing stop and take-profit that holds for the
    position as the decision sees it.  In particular, when both the
    stop-loss and the take-profit conditions hold, the trigger is STOP_LOSS
    (whenever there is one) and never TAKE_PROFIT.  One pass of the monitor
    loop takes this decision for every position of the set. *)
Theorem check_position_priority (E : Env) w r p :
  heap w !! r = Some p ->
  refs_valid w ->
  (exists w',
     _check_position E r w = (Val tt, w') /\
     triggers w' = triggers w ++ chosen_exit p) /\
  ((should_stop_loss (prepared p) = true ->
      exit_decision (prepared p) = Some STOP_LOSS) /\
   (should_stop_loss (prepared p) = false ->
    should_trailing_stop (prepared p) = true ->
      exit_decision (prepared p) = Some TRAILING_STOP) /\
   (should_stop_loss (prepared p) = false ->
    should_trailing_stop (prepared p) = false ->
    should_take_profit (prepared p) = true ->
      exit_decision (prepared p) = Some TAKE_PROFIT) /\
   (should_stop_loss (prepared p) = false ->
    should_trailing_stop (prepared p) = false ->
    should_take_profit (prepared p) = false ->
      exit_decision (prepared p) = None)) /\
  (should_stop_loss p = true -> should_take_profit p = true ->
     chosen_exit p =
       (if PrimFloat.eqb (entry_price p) 0%float
        then [] else [(position_id p, STOP_LOSS)]) /\
     ~ In (position_id p, TAKE_PROFIT) (chosen_exit p)) /\
  (refs_distinct w ->
   exists w' items,
     snapshot w = Some items /\
     _monitor_pass E w = (Val tt, w') /\
     triggers w' =
       triggers w ++ concat (map (fun kp => chosen_exit (snd kp)) items)).
Proof.
  intros H Hv. split.
  { destruct (check_position_run E w r p H Hv) as (w' & Hrun & Ht & _).
    exists w'. split; assumption. }
  split; [apply exit_decision_priority|].
  split; [|now apply monitor_pass_run].
  intros Hsl _.
  destruct (same_levels_triggers _ _ (prepared_levels p)) as [Hsl' _].
  rewrite Hsl in Hsl'.
  assert (Hdec : exit_decision (prepared p) = Some STOP_LOSS)
    by now apply exit_decision_priority.
  unfold chosen_exit. rewrite update_pnl_raises, Hdec.
  destruct (PrimFloat.eqb (entry_price p) 0%float); simpl.
  - tauto.
  - split; [reflexivity|]. intros [[=]|[]].
Qed.

(** C6, as the code has it.  Saving a position set and starting a new
    process on the file written brings back, under the same identifiers and
    in the same order, every position with every attribute as it was, except
    [closed_at] and [exit_reason], which are not stored and come back unset.
    A set whose positions have both unset, as every open position has,
    comes back unchanged.  The timestamps are assumed to survive
    [isoformat] followed by [fromisoformat]. *)
Theorem save_load_roundtrip (E : Env) w items :
  (forall t : datetime, fromisoformat (isoformat t) = Some t) ->
  snapshot w = Some items ->
  dict_wf (positions w) ->
  store_writable E (ticks w) = true ->
  exists w1 w2,
    _save_positions E w = (Val tt, w1) /\
    store w1 = serialize items /\
    PositionManager_init (boot (store w1)) = (Val tt, w2) /\
    snapshot w2 = Some (map (fun kp => (fst kp, reopened (snd kp))) items) /\
    (Forall (fun kp => closed_at (snd kp) = None /\ exit_reason (snd kp) = None)
            items ->
     snapshot w2 = Some items).
Proof.
  intros Hiso Hs Hwf Hwr.
  destruct (init_run (serialize items)) as (w2 & Hinit & Hs2 & _).
  assert (Hloaded : loaded (serialize items)
                    = map (fun kp => (fst kp, reopened (snd kp))) items).
  { unfold loaded, serialize.
    rewrite (loadable_prefix_serialized items Hiso).
    apply dict_of_list_wf. unfold dict_wf, dict_keys.
    rewrite map_map. simpl.
    change (map (fun x => fst x) items) with (dict_keys items).
    rewrite (deref_all_keys _ _ _ Hs). exact Hwf. }
  exists (saved E items w), w2.
  rewrite store_saved, Hwr.
  split; [now apply save_run|]. split; [reflexivity|].
  split; [exact Hinit|].
  rewrite Hs2, Hloaded. split; [reflexivity|].
  intros Hopen. now rewrite (reopened_all_open items Hopen).
Qed.

(** C9, as the code has it.  Whatever the store holds, the manager starts
    without raising.  It starts with an empty position set when the file is
    missing, unreadable or not a mapping, and when the first record is
    invalid; when a later record is invalid it starts with the positions
    loaded before that record. *)
Theorem load_never_raises (s : Store) :
  exists w',
    PositionManager_init (boot s) = (Val tt, w') /\
    snapshot w' = Some (loaded s) /\
    (s = NoFile \/ s = Unreadable \/ s = NotAMapping -> positions w' = []) /\
    (forall k e rest err,
       s = Mapping ((k, e) :: rest) -> of_entry e = Raise err ->
       positions w' = []) /\
    (forall k e rest p,
       s = Mapping ((k, e) :: rest) -> of_entry e = Ok p ->
       snapshot w' =
         Some (fold_left (fun a kv => dict_set (fst kv) (snd kv) a)
                         (loadable_prefix rest) [(k, p)]) /\
       positions w' <> []).
Proof.
  destruct (init_run s) as (w' & Hinit & Hs & _).
  assert (Hempty : loaded s = [] -> positions w' = []).
  { intros Hl. rewrite Hl in Hs. unfold snapshot in Hs.
    destruct (positions w') as [|[k r] d]; [reflexivity|]. simpl in Hs.
    destruct (heap w' !! r); [|discriminate].
    destruct (deref_all (heap w') d); discriminate. }
  exists w'. split; [exact Hinit|]. split; [exact Hs|].
  split; [|split].
  - intros [-> | [-> | ->]]; now apply Hempty.
  - intros k e rest err -> He. apply Hempty. simpl. now rewrite He.
  - intros k e rest p -> He. split.
    + rewrite Hs. simpl. now rewrite He.
    + intros Hp. unfold snapshot in Hs.
      rewrite Hp in Hs. simpl in Hs. rewrite He in Hs. simpl in Hs.
      injection Hs as Hs. symmetry in Hs. revert Hs.
      apply fold_dict_set_nonempty. discriminate.
Qed.

(** X2.  An alert that went through request validation makes [webhook]
    answer with status 500, in paper mode and in live mode alike, because
    the first statement reads [alert.action.value] on a plain string.  The
    state is left as it was and no handler is reached. *)
Lemma webhook_validated_alert_500 (E : Env) alert w :
  validated alert -> webhook E alert w = (Exc (HTTPException 500), w).
Proof.
  intros [a Ha]. unfold webhook. rewrite Ha.
  erewrite try_exc; [reflexivity|]. apply bind_exc. reflexivity.
Qed.

(** X1.  In paper mode no alert, whatever its action attribute holds,
    changes the state of the process; an alert whose action attribute is an
    enumeration member gets the paper-trade response. *)
Lemma webhook_paper_mode_frame (E : Env) alert w :
  ENABLE_TRADING E = false ->
  snd (webhook E alert w) = w /\
  (forall a, alert_action alert = EnumMember a ->
     webhook E alert w
       = (Val (PaperTrade (Action_value a) (alert_symbol alert)), w)).
Proof.
  intros Hpaper. unfold webhook. rewrite Hpaper. simpl.
  destruct (alert_action alert) as [a|s]; simpl.
  - split; [reflexivity|]. now intros ? [= <-].
  - split; [reflexivity|]. discriminate.
Qed.

End EngineClaims.

(** ** Further properties of the code *)

Section EngineExtras.
Context {T : TimeLib}.
Implicit Types (w : World) (r : nat) (p q : Position) (d : dict nat).

(** X5.  A position whose entry price is zero is never closed by the
    monitor: every check ends at the P&L update, which raises on the
    division; the P&L is refreshed, and nothing else happens, whatever the
    prices and the triggers. *)
Theorem check_position_zero_entry (E : Env) w r p :
  heap w !! r = Some p ->
  PrimFloat.eqb (entry_price p) 0%float = true ->
  _check_position E r w =
  (Val tt,
   with_heap (<[r := set_pnl (pnl (snd (update_pnl p))) p]> (heap w)) w).
Proof.
  intros H H0. unfold _check_position.
  pose proof (check_pnl_run w r p H) as Hpnl.
  assert (Hres : fst (update_pnl p) = Raise ZeroDivisionError)
    by (now rewrite update_pnl_raises, H0).
  assert (Hobj : snd (update_pnl p) = set_pnl (pnl (snd (update_pnl p))) p).
  { unfold update_pnl, py_div. destruct (is_long p); simpl; now rewrite H0. }
  rewrite Hres in Hpnl.
  rewrite (try_exc _ _ _ _ _ (bind_exc _ _ _ _ _ Hpnl)).
  now rewrite <- Hobj.
Qed.

(** X6.  A check that neither arms the trailing stop, nor moves it, nor
    exits writes nothing but the position itself: the store is not
    rewritten, no order is sent, nothing is logged, the set is unchanged. *)
Theorem check_position_quiet (E : Env) w r p :
  heap w !! r = Some p ->
  PrimFloat.eqb (entry_price p) 0%float = false ->
  should_activate_trailing p = false ->
  (trailing_active p = true ->
   py_ne (trailing_stop_price (update_trailing_stop p))
         (trailing_stop_price p) = false) ->
  exit_decision (prepared p) = None ->
  _check_position E r w
    = (Val tt, with_heap (<[r := prepared p]> (heap w)) w).
Proof.
  intros H H0 Hact Hmove Hexit. unfold _check_position.
  pose proof (check_pnl_run w r p H) as Hpnl.
  rewrite update_pnl_raises, H0 in Hpnl.
  destruct (update_pnl_keeps p) as (Hta & Hts & Hsa & Hus).
  unfold prepared in *. set (p1 := snd (update_pnl p)) in *.
  rewrite Hsa, Hact, andb_false_r in *.
  set (w1 := with_heap (<[r := p1]> (heap w)) w) in *.
  assert (H1 : heap w1 !! r = Some p1) by exact (lookup_written _ _ _ _ H).
  assert (Hlt : r < length (heap w)) by (eapply lookup_lt_Some; eauto).
  unfold try_except. rewrite (bind_val _ _ _ _ _ Hpnl).
  assert (Hca : check_activation E r w1 = (Val tt, w1)).
  { unfold check_activation. rewrite (bind_val _ _ _ _ _ (read_run _ _ _ H1)).
    now rewrite Hsa, andb_false_r. }
  rewrite (bind_val _ _ _ _ _ Hca).
  destruct (trailing_active p1) eqn:Hflag.
  - set (w2 := with_heap (<[r := update_trailing_stop p1]> (heap w1)) w1).
    assert (H2 : heap w2 !! r = Some (update_trailing_stop p1))
      by exact (lookup_written _ _ _ _ H1).
    assert (Hcr : check_ratchet E r w1 = (Val tt, w2)).
    { unfold check_ratchet. rewrite (bind_val _ _ _ _ _ (read_run _ _ _ H1)).
      rewrite Hflag.
      rewrite (bind_val _ _ _ _ _ (write_run _ _ _ (update_trailing_stop p1) H1)).
      fold w2. rewrite (bind_val _ _ _ _ _ (read_run _ _ _ H2)).
      rewrite Hus, Hts, Hmove; [reflexivity | congruence]. }
    rewrite (bind_val _ _ _ _ _ Hcr).
    unfold check_exit. rewrite (bind_val _ _ _ _ _ (read_run _ _ _ H2)).
    rewrite Hexit. unfold ret. f_equal.
    subst w2 w1. destruct w; simpl. now rewrite list_insert_insert_eq.
  - assert (Hcr : check_ratchet E r w1 = (Val tt, w1)).
    { unfold check_ratchet. rewrite (bind_val _ _ _ _ _ (read_run _ _ _ H1)).
      now rewrite Hflag. }
    rewrite (bind_val _ _ _ _ _ Hcr).
    unfold check_exit. rewrite (bind_val _ _ _ _ _ (read_run _ _ _ H1)).
    now rewrite Hexit.
Qed.

(** X10.  A check, and a whole pass of the monitor loop, keep the invariant
    of the position set (distinct identifiers, each position under its
    own), never add a position to the set, never create an object, and in
    paper mode never call the exchange. *)
Theorem monitor_pass_keeps_invariant (E : Env) w :
  well_formed w ->
  (forall r p, heap w !! r = Some p ->
     exists w',
       _check_position E r w = (Val tt, w') /\
       well_formed w' /\
       length (heap w') = length (heap w) /\
       (forall kr, In kr (positions w') -> In kr (positions w)) /\
       (ENABLE_TRADING E = false -> gateway w' = gateway w)) /\
  (exists w',
     _monitor_pass E w = (Val tt, w') /\
     well_formed w' /\
     length (heap w') = length (heap w) /\
     (forall kr, In kr (positions w') -> In kr (positions w)) /\
     (ENABLE_TRADING E = false -> gateway w' = gateway w)).
Proof.
  intros Hw. split.
  - intros r p H. exact (check_position_keeps E w r p H Hw).
  - unfold _monitor_pass, bind at 1, get_positions.
    apply check_each_keeps; [exact Hw|].
    apply keyed_refs_valid, Hw.
Qed.

(** X11.  A trade on [symbol] at [price] sets the current price of every
    position of the set on that instrument and leaves every other
    position, and every object outside the set, as it was.  It never
    raises; the set, the store, the gateway and the log are unchanged: a
    price update is not persisted. *)
Theorem on_price_update_reprices w symbol price items :
  snapshot w = Some items ->
  exists h,
    _on_price_update symbol price w = (Val tt, with_heap h w) /\
    snapshot (with_heap h w)
      = Some (map (fun kp => (fst kp, repriced symbol price (snd kp))) items) /\
    (forall r, ~ In r (dict_values (positions w)) -> h !! r = heap w !! r).
Proof.
  intros Hs.
  destruct (update_each_run symbol price (dict_values (positions w)) w)
    as (h & Hrun & Hlen & Hobj).
  { unfold dict_values. apply List.Forall_map.
    exact (deref_all_valid _ _ _ Hs). }
  exists h. split; [exact Hrun|]. split.
  - unfold snapshot; simpl. apply deref_all_map with (h := heap w); [|exact Hs].
    intros kr p Hin Hp. apply (Hobj _ _ Hp).
    unfold dict_values. now apply in_map.
  - intros r Hr. destruct (heap w !! r) as [p|] eqn:Hp.
    + now apply (Hobj _ _ Hp).
    + apply lookup_ge_None. rewrite Hlen. now apply lookup_ge_None.
Qed.

(** X12.  [get_active_products] returns every instrument of the position
    set exactly once, and nothing else; it reads the set without changing
    anything. *)
Theorem get_active_products_unique w items :
  snapshot w = Some items ->
  exists products,
    get_active_products w = (Val products, w) /\
    List.NoDup products /\
    (forall s, In s products <->
               exists kp, In kp items /\ product_id (snd kp) = s).
Proof.
  intros Hs. exists (products_of items). split; [|split].
  - now apply get_active_products_run.
  - unfold products_of. apply NoDup_nodup.
  - apply products_of_spec.
Qed.

(** X13.  [remove_position] returns the position registered under the
    identifier, or None; afterwards the identifier is not registered.  A
    removal shrinks the set by one and rewrites the store (when it can be
    written) with the remaining positions; for an identifier that is not
    registered nothing at all happens, the store is not rewritten. *)
Theorem remove_position_pops (E : Env) w id :
  well_formed w ->
  exists w',
    remove_position E id w = (Val (dict_get id (positions w)), w') /\
    positions w' = dict_del id (positions w) /\
    dict_get id (positions w') = None /\
    heap w' = heap w /\ gateway w' = gateway w /\
    (dict_get id (positions w) = None -> w' = w) /\
    (dict_get id (positions w) <> None ->
       S (length (positions w')) = length (positions w) /\
       exists items,
         snapshot w' = Some items /\
         store w' =
         if store_writable E (ticks w) then serialize items else store w).
Proof.
  intros [Hwf Hk].
  destruct (remove_position_run E w id (keyed_refs_valid w Hk))
    as (w' & Hrun & Hh & Hp & _ & Hg & Habs & Hpres).
  exists w'. split; [exact Hrun|]. split; [exact Hp|].
  split; [rewrite Hp; now apply dict_get_del_eq|].
  split; [exact Hh|]. split; [exact Hg|]. split; [exact Habs|].
  intros Hreg. split; [rewrite Hp; now apply dict_del_length_present|].
  destruct (Hpres Hreg) as (items & Hs & _ & Hst). eauto.
Qed.

(** X14.  In paper mode, or when the exchange accepts every order,
    [close_all_positions] returns with an empty position set; every
    position that was registered is marked CLOSED with reason MANUAL and
    is otherwise unchanged; in paper mode no order is sent. *)
Theorem close_all_positions_empties (E : Env) w :
  well_formed w ->
  ENABLE_TRADING E = false \/ (forall t, order_accepted E t = true) ->
  exists w',
    close_all_positions E w = (Val tt, w') /\
    positions w' = [] /\
    (ENABLE_TRADING E = false -> gateway w' = gateway w) /\
    (forall id r p, dict_get id (positions w) = Some r ->
       heap w !! r = Some p ->
       exists t, heap w' !! r = Some (closed_as MANUAL (utcnow E t) p)).
Proof.
  intros Hw Hmode.
  destruct (close_each_run E (dict_keys (positions w)) w Hw Hmode)
    as (w' & Hrun & _ & Hp & Hg & _ & Hcl).
  exists w'. split; [exact Hrun|].
  split; [rewrite Hp; apply fold_dict_del_keys|]. split; [exact Hg|].
  intros id r p Hid H. apply (Hcl id r p); [|exact Hid|exact H].
  apply dict_get_In in Hid. unfold dict_keys.
  change id with (fst (id, r)). now apply in_map.
Qed.

(** X15.  In live mode [close_all_positions] stops at the first refused
    order: the gateway error propagates, the refused order is the only
    call made, and the whole position set (the first position and those
    after it, which are not attempted) stays as it was. *)
Theorem close_all_positions_stops_at_refusal (E : Env) w id r p d :
  positions w = (id, r) :: d -> heap w !! r = Some p ->
  ENABLE_TRADING E = true -> order_accepted E (ticks w) = false ->
  close_all_positions E w =
  (Exc GatewayError,
   tick (with_gateway
           (gateway w ++
            [CloseOrder (product_id p)
                        (if String.eqb (side p) "LONG" then "SELL" else "BUY")
                        (size p)]) w)).
Proof.
  intros Hpos H Hlive Hacc.
  assert (Hid : dict_get id (positions w) = Some r).
  { rewrite Hpos. simpl. now rewrite String.eqb_refl. }
  change (close_all_positions E w)
    with (close_each E (dict_keys (positions w)) w).
  rewrite Hpos. cbn [dict_keys map fst close_each].
  apply bind_exc. exact (close_manual_refused E w id r p Hid H Hlive Hacc).
Qed.

(** X16.  [handle_exit] acts on the first position of the set, in
    insertion order, that is on the instrument and the side of the alert.
    With no such position it answers "nothing to close" and changes
    nothing.  Otherwise, when the close goes through, that position, and
    no other, is marked CLOSED with reason MANUAL and leaves the set, and
    the response carries its identifier and its P&L as last computed;
    when the exchange refuses the order the error propagates and the set
    is unchanged. *)
Theorem handle_exit_first_match (E : Env) w alert side_ items :
  well_formed w -> snapshot w = Some items ->
  match first_match (alert_symbol alert) side_ items with
  | None =>
      handle_exit E alert side_ w
      = (Val (NothingToClose side_ (alert_symbol alert)), w)
  | Some (id, p) =>
      exists r,
        dict_get id (positions w) = Some r /\ heap w !! r = Some p /\
        (ENABLE_TRADING E = false \/ order_accepted E (ticks w) = true ->
         exists w' t,
           handle_exit E alert side_ w
           = (Val (Closed side_ id (alert_symbol alert) (pnl p) (pnl_pct p)),
              w') /\
           heap w' = <[r := closed_as MANUAL (utcnow E t) p]> (heap w) /\
           positions w' = dict_del id (positions w)) /\
        (ENABLE_TRADING E = true -> order_accepted E (ticks w) = false ->
         exists w',
           handle_exit E alert side_ w = (Exc GatewayError, w') /\
           heap w' = heap w /\ positions w' = positions w /\
           store w' = store w)
  end.
Proof.
  intros [Hwf Hk] Hs.
  destruct (find_position_run (alert_symbol alert) side_ w (positions w)
              items Hs) as (o & Hfind & Hspec).
  assert (Hall : get_all_positions w = (Val (dict_values (positions w)), w))
    by reflexivity.
  unfold handle_exit.
  destruct (first_match (alert_symbol alert) side_ items) as [[id p]|].
  - destruct Hspec as (r & -> & Hin & Hp).
    pose proof (dict_In_get _ _ _ Hwf Hin) as Hid.
    destruct (keyed_lookup w id r Hk Hid) as (p' & Hp' & Hpid).
    rewrite Hp in Hp'. injection Hp' as <-.
    exists r. split; [exact Hid|]. split; [exact Hp|]. split.
    + intros Hmode.
      destruct (close_manual_present E w id r p Hid Hp
                  (keyed_refs_valid w Hk) Hmode)
        as (w' & t & Hrun & Hh & Hpos & _).
      exists w', t. rewrite Hpid in Hpos.
      split; [|split; assumption].
      rewrite try_reraise, (bind_val _ _ _ _ _ Hall),
        (bind_val _ _ _ _ _ Hfind), (bind_val _ _ _ _ _ (read_run _ _ _ Hp)).
      rewrite Hpid, (bind_val _ _ _ _ _ Hrun).
      assert (Hr' : heap w' !! r = Some (closed_as MANUAL (utcnow E t) p)).
      { rewrite Hh. apply list_lookup_insert_eq. eapply lookup_lt_Some; eauto. }
      rewrite (bind_val _ _ _ _ _ (read_run _ _ _ Hr')).
      simpl. now rewrite Hpid.
    + intros Hlive Hacc.
      exists (tick (with_gateway
                (gateway w ++
                 [CloseOrder (product_id p)
                    (if String.eqb (side p) "LONG" then "SELL" else "BUY")
                    (size p)]) w)).
      split; [|split; [|split]; reflexivity].
      rewrite try_reraise, (bind_val _ _ _ _ _ Hall),
        (bind_val _ _ _ _ _ Hfind), (bind_val _ _ _ _ _ (read_run _ _ _ Hp)).
      rewrite Hpid. apply bind_exc.
      exact (close_manual_refused E w id r p Hid Hp Hlive Hacc).
  - subst o.
    now rewrite try_reraise, (bind_val _ _ _ _ _ Hall),
      (bind_val _ _ _ _ _ Hfind).
Qed.


(** X17.  An entry is rejected before anything happens when the position
    set is at capacity or already holds a position on the instrument:
    HTTPException(400), no call to the exchange, state unchanged.  When
    the guards pass and the exchange refuses the order, the gateway error
    propagates; the order is the only call made and no position is
    created or registered. *)
Theorem handle_entry_rejected (E : Env) w (long : bool) alert items :
  snapshot w = Some items ->
  (at_capacity E w || holds_product (alert_symbol alert) items = true ->
   handle_entry E long alert w = (Exc (HTTPException 400), w)) /\
  (at_capacity E w || holds_product (alert_symbol alert) items = false ->
   order_accepted E (ticks w) = false ->
   handle_entry E long alert w =
   (Exc GatewayError,
    tick (with_gateway
            (gateway w ++
             [MarketOrder (alert_symbol alert) (if long then "BUY" else "SELL")
                          (alert_position_size_usd alert)]) w))).
Proof.
  intros Hs. pose proof (entry_guards_run E w alert items Hs) as Hg.
  split; intros Hc; rewrite Hc in Hg; unfold handle_entry;
    rewrite try_reraise.
  - exact (bind_exc _ _ _ _ _ Hg).
  - intros Hacc. rewrite (bind_val _ _ _ _ _ Hg). apply bind_exc.
    now rewrite place_market_order_run, Hacc.
Qed.

(** X18.  An accepted entry order can end untracked.  When the price
    lookup that follows the order yields 0.0 (what get_current_price
    returns on any failure) the handler raises ZeroDivisionError, and
    when one of the three optional percentages of the alert is None it
    raises TypeError: the order has been submitted and accepted, but no
    position is created, registered or saved. *)
Theorem handle_entry_untracked_order (E : Env) w (long : bool) alert items :
  snapshot w = Some items ->
  at_capacity E w || holds_product (alert_symbol alert) items = false ->
  order_accepted E (ticks w) = true ->
  PrimFloat.eqb (quoted_price E (S (ticks w))) 0%float = true \/
  alert_stop_loss_pct alert = None \/
  alert_take_profit_pct alert = None \/
  alert_trailing_activation_pct alert = None ->
  let w1 := tick (with_gateway
                    (gateway w ++
                     [MarketOrder (alert_symbol alert)
                                  (if long then "BUY" else "SELL")
                                  (alert_position_size_usd alert)]) w) in
  handle_entry E long alert w =
  (Exc (if PrimFloat.eqb (quoted_price E (S (ticks w))) 0%float
        then ZeroDivisionError else TypeError),
   tick (with_gateway (gateway w1 ++ [GetProduct (alert_symbol alert)]) w1)).
Proof.
  intros Hs Hc Hacc Hbad w1.
  pose proof (entry_guards_run E w alert items Hs) as Hg. rewrite Hc in Hg.
  pose proof (place_market_order_run E w (alert_symbol alert)
                (if long then "BUY" else "SELL")
                (alert_position_size_usd alert)) as Ho.
  rewrite Hacc in Ho. fold w1 in Ho.
  unfold handle_entry. rewrite try_reraise.
  rewrite (bind_val _ _ _ _ _ Hg), (bind_val _ _ _ _ _ Ho).
  rewrite (bind_val _ _ _ _ _ (get_current_price_run E w1 (alert_symbol alert))).
  change (ticks w1) with (S (ticks w)).
  unfold py_div.
  destruct (PrimFloat.eqb (quoted_price E (S (ticks w))) 0%float);
    [reflexivity|].
  destruct (alert_stop_loss_pct alert) as [sl|]; [|reflexivity].
  destruct (alert_take_profit_pct alert) as [tp|]; [|reflexivity].
  destruct (alert_trailing_activation_pct alert) as [ta|]; [|reflexivity].
  destruct Hbad as [? | [? | [? | ?]]]; discriminate.
Qed.

(** X19.  An entry that passes the guards, whose order is accepted, whose
    fill price is not zero and whose three percentages are present
    creates one position: on the instrument of the alert, ACTIVE, not
    trailing, entered at the fill price, of size USD / fill price, with
    the three levels on the side of the fill price that its direction
    asks for.  The position is registered under a fresh identifier and
    saved before the market-data subscription is renewed; the
    subscription covers the instrument.  When the subscription fails the
    handler raises, and the position stays registered and saved. *)
Theorem handle_entry_opens (E : Env) w (long : bool) alert items sl tp ta :
  snapshot w = Some items ->
  at_capacity E w || holds_product (alert_symbol alert) items = false ->
  order_accepted E (ticks w) = true ->
  PrimFloat.eqb (quoted_price E (1 + ticks w)) 0%float = false ->
  alert_stop_loss_pct alert = Some sl ->
  alert_take_profit_pct alert = Some tp ->
  alert_trailing_activation_pct alert = Some ta ->
  let fill := quoted_price E (1 + ticks w) in
  let id := uuid4 E (2 + ticks w) in
  let p := opened_position long alert fill (sl / 100)%float (tp / 100)%float
                           (ta / 100)%float id (utcnow E (3 + ticks w)) in
  exists w' products,
    handle_entry E long alert w =
      (if subscribe_ok E (5 + ticks w)
       then Val (Opened (if long then "LONG" else "SHORT") id
                        (alert_symbol alert) fill (size p))
       else Exc GatewayError, w') /\
    heap w' = heap w ++ [p] /\
    positions w' = dict_set id (length (heap w)) (positions w) /\
    snapshot w' = Some (dict_set id p items) /\
    store w' = (if store_writable E (4 + ticks w)
                then serialize (dict_set id p items) else store w) /\
    gateway w' =
      gateway w ++
      [MarketOrder (alert_symbol alert) (if long then "BUY" else "SELL")
                   (alert_position_size_usd alert);
       GetProduct (alert_symbol alert);
       Subscribe products] /\
    In (alert_symbol alert) products.
Proof.
  intros Hs Hc Hacc Hfill Hsl Htp Hta fill id p.
  pose proof (entry_guards_run E w alert items Hs) as Hg. rewrite Hc in Hg.
  pose proof (place_market_order_run E w (alert_symbol alert)
                (if long then "BUY" else "SELL")
                (alert_position_size_usd alert)) as Ho.
  rewrite Hacc in Ho.
  match type of Ho with _ = (_, ?x) => set (w1 := x) in * end.
  pose proof (get_current_price_run E w1 (alert_symbol alert)) as Hq.
  change (quoted_price E (ticks w1)) with fill in Hq.
  match type of Hq with _ = (_, ?x) => set (w2 := x) in * end.
  set (w3 := tick (tick w2)).
  set (w4 := with_heap (heap w3 ++ [p]) w3).
  set (r := length (heap w)).
  assert (Hr : heap w4 !! r = Some p).
  { simpl. subst r. rewrite lookup_app_r by lia.
    now rewrite Nat.sub_diag. }
  assert (Hv : Forall (fun kr => snd kr < length (heap w)) (positions w))
    by exact (deref_all_valid _ _ _ Hs).
  assert (Hv4 : refs_valid w4).
  { unfold refs_valid; simpl. eapply List.Forall_impl; [|exact Hv].
    intros kr Hlt. rewrite length_app. simpl in *. lia. }
  destruct (add_position_run E w4 r p Hr Hv4) as (items' & Hs' & Hadd).
  change (position_id p) with id in *.
  set (w5 := with_positions (dict_set id r (positions w4)) w4) in *.
  assert (Hitems : items' = dict_set id p items).
  { assert (Hd : deref_all (heap w ++ [p]) (positions w) = Some items)
      by (rewrite deref_all_app; assumption).
    pose proof (deref_all_set _ _ _ id r p Hd Hr) as Hset.
    unfold snapshot in Hs'. simpl in Hs', Hset. congruence. }
  subst items'.
  set (w6 := saved E (dict_set id p items) w5) in *.
  assert (Hs6 : snapshot w6 = Some (dict_set id p items)).
  { unfold snapshot. subst w6. now rewrite heap_saved, positions_saved. }
  pose proof (get_active_products_run w6 _ Hs6) as Hprod.
  set (products := products_of (dict_set id p items)) in *.
  pose proof (subscribe_trades_run E w6 products) as Hsub.
  assert (Ht6 : ticks w6 = 5 + ticks w).
  { subst w6. now rewrite ticks_saved. }
  rewrite Ht6 in Hsub.
  match type of Hsub with _ = (_, ?x) => set (w7 := x) in * end.
  exists w7, products. split; [|split; [|split; [|split; [|split; [|split]]]]].
  - unfold handle_entry. rewrite try_reraise.
    rewrite (bind_val _ _ _ _ _ Hg), (bind_val _ _ _ _ _ Ho),
      (bind_val _ _ _ _ _ Hq).
    unfold py_div. fold fill in Hfill. rewrite Hfill, Hsl, Htp, Hta.
    cbn [lift pct_over_100].
    rewrite !bind_ret.
    unfold bind at 1, ask. unfold bind at 1. unfold bind at 1, alloc.
    change (with_heap _ (tick (tick w2))) with w4.
    change (length (heap (tick (tick w2)))) with r.
    rewrite (bind_val _ _ _ _ _ Hadd), (bind_val _ _ _ _ _ Hprod).
    unfold bind at 1. rewrite Hsub.
    destruct (subscribe_ok E (5 + ticks w)); reflexivity.
  - simpl. subst w6. now rewrite heap_saved.
  - simpl. subst w6. now rewrite positions_saved.
  - unfold snapshot. simpl. subst w6.
    rewrite heap_saved, positions_saved.
    unfold snapshot in Hs'. exact Hs'.
  - simpl. subst w6. now rewrite store_saved.
  - simpl. subst w6. rewrite gateway_saved. simpl.
    now rewrite <- !app_assoc.
  - apply products_of_spec. exists (id, p). split; [apply dict_set_In|].
    reflexivity.
Qed.

(** X20.  [webhook] raises nothing but HTTPException(500): the 400 of an
    entry handler (position set at capacity, or instrument already held)
    reaches the client as a 500, with the state unchanged. *)
Theorem webhook_raises_only_500 (E : Env) w alert :
  (forall e, fst (webhook E alert w) = Exc e -> e = HTTPException 500) /\
  (forall a items,
     ENABLE_TRADING E = true ->
     alert_action alert = EnumMember a -> a = LONG \/ a = SHORT ->
     snapshot w = Some items ->
     at_capacity E w || holds_product (alert_symbol alert) items = true ->
     webhook E alert w = (Exc (HTTPException 500), w)).
Proof.
  split.
  - intros e. unfold webhook, try_except.
    match goal with |- context [match ?m with _ => _ end] =>
      destruct m as [[res|e'|] w'] end; simpl; congruence.
  - intros a items Hlive Ha Hside Hs Hc.
    destruct (handle_entry_guard_400 E w alert items Hs Hc) as [Hl Hsh].
    unfold webhook. erewrite try_exc; [reflexivity|].
    rewrite Ha, Hlive. simpl.
    destruct Hside as [-> | ->]; simpl; [exact Hl | exact Hsh].
Qed.

(** X21.  [close_position_endpoint] never answers 404: its own
    HTTPException(404) for an identifier that is not registered is raised
    inside the try block and comes out as HTTPException(500), as does a
    gateway error; the state is unchanged for an unknown identifier.  A
    registered position whose close goes through is closed with reason
    MANUAL and removed. *)
Theorem close_position_endpoint_never_404 (E : Env) w id :
  (forall e, fst (close_position_endpoint E id w) = Exc e ->
             e = HTTPException 500) /\
  (dict_get id (positions w) = None ->
   close_position_endpoint E id w = (Exc (HTTPException 500), w)) /\
  (forall r p,
     dict_get id (positions w) = Some r -> heap w !! r = Some p ->
     refs_valid w ->
     ENABLE_TRADING E = false \/ order_accepted E (ticks w) = true ->
     exists w' t,
       close_position_endpoint E id w = (Val (PositionClosed id), w') /\
       heap w' = <[r := closed_as MANUAL (utcnow E t) p]> (heap w) /\
       positions w' = dict_del (position_id p) (positions w)).
Proof.
  split; [|split].
  - intros e. unfold close_position_endpoint, try_except.
    match goal with |- context [match ?m with _ => _ end] =>
      destruct m as [[res|e'|] w'] end; simpl; congruence.
  - intros Hid. unfold close_position_endpoint.
    erewrite try_exc; [reflexivity|].
    now rewrite (bind_val _ _ _ _ _ (close_manual_absent E w id Hid)).
  - intros r p Hid H Hv Hmode.
    destruct (close_manual_present E w id r p Hid H Hv Hmode)
      as (w' & t & Hrun & Hh & Hp & _).
    exists w', t. split; [|split; assumption].
    unfold close_position_endpoint. apply try_val.
    now rewrite (bind_val _ _ _ _ _ Hrun).
Qed.

(** X22.  [start_monitoring] never raises.  When monitoring is already
    on, or the position set is empty, it makes no call and changes
    nothing but (in the second case) its own flag and task; otherwise it
    makes exactly one subscription request, for the instruments of the
    set, and a failure of that request is swallowed: monitoring is
    switched on all the same. *)
Theorem start_monitoring_never_raises (E : Env) w m items :
  snapshot w = Some items ->
  exists w',
    start_monitoring E m w =
      (Val (if monitoring m then m
            else {| monitoring := true; task_created := true |}), w') /\
    heap w' = heap w /\ positions w' = positions w /\ store w' = store w /\
    (monitoring m = true \/ items = [] -> w' = w) /\
    (monitoring m = false -> items <> [] ->
     exists products,
       gateway w' = gateway w ++ [Subscribe products] /\
       forall s, In s products <->
                 exists kp, In kp items /\ product_id (snd kp) = s).
Proof.
  intros Hs. unfold start_monitoring.
  destruct (monitoring m) eqn:Hm.
  { exists w. repeat split; auto. discriminate. }
  rewrite (bind_val _ _ _ _ _ (get_active_products_run w items Hs)).
  destruct (products_of items) as [|s0 rest] eqn:Hprod.
  - exists w. split; [reflexivity|]. repeat split; auto.
    intros _ Hne. exfalso. destruct items as [|kp items']; [congruence|].
    assert (Hin : In (product_id (snd kp)) (products_of (kp :: items'))).
    { apply products_of_spec. exists kp. split; [now left | reflexivity]. }
    rewrite Hprod in Hin. destruct Hin.
  - pose proof (subscribe_trades_run E w (s0 :: rest)) as Hsub.
    match type of Hsub with _ = (_, ?x) => set (w1 := x) in * end.
    exists w1. split; [|split; [|split; [|split; [|split]]]];
      try reflexivity.
    + unfold bind at 1, try_except. rewrite Hsub.
      destruct (subscribe_ok E (ticks w)); reflexivity.
    + intros [Hc | ->]; [discriminate|].
      unfold products_of in Hprod. simpl in Hprod. discriminate.
    + intros _ _. exists (s0 :: rest). split; [reflexivity|].
      rewrite <- Hprod. apply products_of_spec.
Qed.


(** X23.  The operations of the position manager keep the invariant of
    the position set (distinct identifiers, each position registered
    under its own), whatever their outcome: registering a position,
    removing one, closing one (also when the exchange refuses), a manual
    close, and a price update. *)
Theorem operations_keep_invariant (E : Env) w :
  well_formed w ->
  (forall r p, heap w !! r = Some p ->
     well_formed (snd (add_position E r w))) /\
  (forall id, well_formed (snd (remove_position E id w))) /\
  (forall r p reason, heap w !! r = Some p ->
     well_formed (snd (_close_position E r reason w))) /\
  (forall id, well_formed (snd (close_position_manual E id w))) /\
  (forall symbol price, well_formed (snd (_on_price_update symbol price w))).
Proof.
  intros [Hwf Hk]. pose proof (keyed_refs_valid w Hk) as Hv.
  assert (Hclose : forall r p reason, heap w !! r = Some p ->
            well_formed (snd (_close_position E r reason w))).
  { intros r p reason H.
    destruct (close_position_keeps_keyed E w r p reason H Hk Hwf).
    now split. }
  split; [|split; [|split; [|split]]].
  - intros r p H. destruct (add_position_keeps_keyed E w r p H Hk Hwf).
    now split.
  - intros id.
    destruct (remove_position_run E w id Hv) as (w' & Hrun & Hh & Hp & _).
    rewrite Hrun. simpl. split; [rewrite Hp; now apply dict_wf_del|].
    unfold keyed_by_id. rewrite Hh, Hp.
    apply List.Forall_forall. intros kr Hin. apply dict_del_incl in Hin.
    exact (proj1 (List.Forall_forall _ _) Hk _ Hin).
  - exact Hclose.
  - intros id. unfold close_position_manual.
    rewrite (bind_val _ _ _ _ _ (get_position_run w id)).
    destruct (dict_get id (positions w)) as [r|] eqn:Hid; [|now split].
    destruct (keyed_lookup w id r Hk Hid) as (p & Hp & _).
    pose proof (Hclose r p MANUAL Hp) as Hw'. unfold bind.
    destruct (_close_position E r MANUAL w) as [[[]|e|] w']; exact Hw'.
  - intros symbol price.
    destruct (update_each_run symbol price (dict_values (positions w)) w)
      as (h & Hrun & _ & Hobj).
    { unfold dict_values. now apply List.Forall_map. }
    change (_on_price_update symbol price w)
      with (update_each (dict_values (positions w)) symbol price w).
    rewrite Hrun. split; [exact Hwf|].
    apply List.Forall_forall. intros kr Hin.
    destruct (proj1 (List.Forall_forall _ _) Hk _ Hin) as (p & Hp & Hid).
    exists (repriced symbol price p). split.
    + apply (Hobj _ _ Hp). unfold dict_values. now apply in_map.
    + rewrite <- Hid. unfold repriced. now destruct (String.eqb _ _).
Qed.

(** X24.  The position manager starts, on any store, with distinct
    identifiers in its set.  Positions are registered under the keys of
    the stored mapping, not under their own position_id field: the set
    satisfies the whole invariant exactly when every record that was
    loaded sits under its own identifier, as is the case in every file
    [_save_positions] writes from a set that satisfies it. *)
Theorem startup_invariant (s : Store) :
  exists w',
    PositionManager_init (boot s) = (Val tt, w') /\
    dict_wf (positions w') /\
    (well_formed w' <->
     Forall (fun kp => position_id (snd kp) = fst kp) (loaded s)) /\
    (forall items : dict Position,
       (forall t : datetime, fromisoformat (isoformat t) = Some t) ->
       dict_wf items ->
       Forall (fun kp => position_id (snd kp) = fst kp) items ->
       s = serialize items ->
       well_formed w').
Proof.
  destruct (init_run s) as (w' & Hrun & Hs & _).
  assert (Hwf : dict_wf (positions w')).
  { unfold dict_wf. rewrite <- (deref_all_keys _ _ _ Hs).
    destruct s; simpl; try constructor.
    apply fold_dict_set_wf. constructor. }
  assert (Hiff : well_formed w' <->
            Forall (fun kp => position_id (snd kp) = fst kp) (loaded s)).
  { unfold well_formed, keyed_by_id.
    rewrite (keyed_items _ _ _ Hs). tauto. }
  exists w'. split; [exact Hrun|]. split; [exact Hwf|].
  split; [exact Hiff|].
  intros items Hiso Hwfi Hki ->. apply Hiff.
  unfold loaded, serialize. rewrite (loadable_prefix_serialized items Hiso).
  fold (dict_of_list (map (fun kp => (fst kp, reopened (snd kp))) items)).
  rewrite dict_of_list_wf.
  - apply List.Forall_map. eapply List.Forall_impl; [|exact Hki].
    intros [k q] Hq. exact Hq.
  - unfold dict_wf, dict_keys. rewrite map_map. exact Hwfi.
Qed.

(** X25.  [_close_position] removes the position under its position_id
    field, not under the key it is registered with.  A position that is
    registered under another key (it can only come from a positions file
    that was edited by hand) is marked CLOSED by a close that goes
    through, but stays in the set, and the store is not rewritten. *)
Theorem close_position_misfiled_stays (E : Env) w r p reason :
  heap w !! r = Some p -> refs_valid w ->
  dict_get (position_id p) (positions w) = None ->
  ENABLE_TRADING E = false \/ order_accepted E (ticks w) = true ->
  exists w' t,
    _close_position E r reason w = (Val tt, w') /\
    heap w' = <[r := closed_as reason (utcnow E t) p]> (heap w) /\
    positions w' = positions w /\
    store w' = store w.
Proof.
  intros H Hv Habs Hmode.
  destruct (close_position_run E w r p reason H Hv Hmode)
    as (w' & t & Hrun & Hh & Hp & _ & _ & Hst & _).
  exists w', t. split; [exact Hrun|]. split; [exact Hh|].
  split; [now rewrite Hp, dict_del_absent | auto].
Qed.

(** X26.  A stored entry loads exactly when it is a record with all
    sixteen keys, a status text that is the value of a member of
    PositionStatus and an opening time the datetime library can parse;
    the position then carries the stored values, and its closing time and
    exit reason are unset. *)
Theorem of_entry_decodes (e : StoredEntry) (p : Position) :
  of_entry e = Ok p <->
  exists rec text,
    e = Rec rec /\
    r_position_id rec = Some (position_id p) /\
    r_product_id rec = Some (product_id p) /\
    r_side rec = Some (side p) /\
    r_size rec = Some (size p) /\
    r_entry_price rec = Some (entry_price p) /\
    r_current_price rec = Some (current_price p) /\
    r_stop_loss_price rec = Some (stop_loss_price p) /\
    r_take_profit_price rec = Some (take_profit_price p) /\
    r_trailing_activation_price rec = Some (trailing_activation_price p) /\
    r_trailing_distance_pct rec = Some (trailing_distance_pct p) /\
    r_status rec = Some (PositionStatus_value (status p)) /\
    r_trailing_active rec = Some (trailing_active p) /\
    r_trailing_stop_price rec = Some (trailing_stop_price p) /\
    r_opened_at rec = Some text /\
    fromisoformat text = Some (opened_at p) /\
    r_pnl rec = Some (pnl p) /\
    r_pnl_pct rec = Some (pnl_pct p) /\
    closed_at p = None /\ exit_reason p = None.
Proof.
  split.
  - destruct e as [|rec]; [discriminate|].
    destruct rec as [f1 f2 f3 f4 f5 f6 f7 f8 f9 f10 f11 f12 f13 f14 f15 f16].
    unfold of_entry, rbind, field; simpl.
    destruct f1; [|discriminate]. destruct f2; [|discriminate].
    destruct f3; [|discriminate]. destruct f4; [|discriminate].
    destruct f5; [|discriminate]. destruct f6; [|discriminate].
    destruct f7; [|discriminate]. destruct f8; [|discriminate].
    destruct f9; [|discriminate]. destruct f10; [|discriminate].
    destruct f11 as [status_text|]; [|discriminate].
    destruct (PositionStatus_of_value status_text) as [st|err] eqn:Hst;
      [|discriminate].
    destruct f12; [|discriminate]. destruct f13; [|discriminate].
    destruct f14 as [opened_text|]; [|discriminate].
    destruct (fromisoformat opened_text) as [opened|] eqn:Hiso;
      [|discriminate].
    destruct f15; [|discriminate]. destruct f16; [|discriminate].
    intros [= <-]. apply (PositionStatus_of_value_inv) in Hst. subst.
    eexists _, opened_text. simpl. repeat split. exact Hiso.
  - intros (rec & text & -> & H1 & H2 & H3 & H4 & H5 & H6 & H7 & H8 & H9
            & H10 & H11 & H12 & H13 & H14 & Hiso & H15 & H16 & Hc & He).
    unfold of_entry, rbind, field.
    rewrite H1, H2, H3, H4, H5, H6, H7, H8, H9, H10, H11, H12, H13, H14,
      H15, H16, status_roundtrip, Hiso.
    destruct p; simpl in *. now subst.
Qed.

(** X27.  [handle_close_all] closes the positions in insertion order and
    answers with their identifiers in that order; in paper mode, or when
    the exchange accepts every order, it ends in the state
    [close_all_positions] ends in: an empty position set, every position
    marked CLOSED with reason MANUAL.  In live mode a refusal of the
    first order makes it raise the gateway error with the position set
    unchanged. *)
Theorem handle_close_all_closes_in_order (E : Env) w :
  well_formed w ->
  (ENABLE_TRADING E = false \/ (forall t, order_accepted E t = true) ->
   exists w',
     handle_close_all E w = (Val (ClosedAll (dict_keys (positions w))), w') /\
     close_all_positions E w = (Val tt, w') /\
     positions w' = [] /\
     (ENABLE_TRADING E = false -> gateway w' = gateway w) /\
     (forall id r p, dict_get id (positions w) = Some r ->
        heap w !! r = Some p ->
        exists t, heap w' !! r = Some (closed_as MANUAL (utcnow E t) p))) /\
  (ENABLE_TRADING E = true -> order_accepted E (ticks w) = false ->
   positions w <> [] ->
   exists w',
     handle_close_all E w = (Exc GatewayError, w') /\
     positions w' = positions w /\ heap w' = heap w /\ store w' = store w).
Proof.
  intros Hw.
  assert (Hall : get_all_positions w = (Val (dict_values (positions w)), w))
    by reflexivity.
  split.
  - intros Hmode.
    destruct (close_listed_run E (positions w) w [] eq_refl Hw Hmode)
      as (w' & Hl & He).
    destruct (close_each_run E (dict_keys (positions w)) w Hw Hmode)
      as (w'' & Hrun & _ & Hp & Hg & _ & Hcl).
    rewrite He in Hrun. injection Hrun as <-.
    exists w'. split; [|split; [exact He|split; [|split; [exact Hg|]]]].
    + unfold handle_close_all. rewrite try_reraise.
      rewrite (bind_val _ _ _ _ _ Hall), (bind_val _ _ _ _ _ Hl).
      reflexivity.
    + rewrite Hp. apply fold_dict_del_keys.
    + intros id r p Hid H. apply (Hcl id r p); [|exact Hid|exact H].
      apply dict_get_In in Hid. unfold dict_keys.
      change id with (fst (id, r)). now apply in_map.
  - intros Hlive Hacc Hne.
    destruct (positions w) as [|[k r] d] eqn:Hd; [congruence|].
    assert (Hid : dict_get k (positions w) = Some r).
    { rewrite Hd. simpl. now rewrite String.eqb_refl. }
    destruct (keyed_lookup w k r (proj2 Hw) Hid) as (p & Hp & Hpid).
    pose proof (close_listed_refused E w k r d p [] Hd Hp Hpid Hlive Hacc)
      as Hl.
    eexists. split; [|split; [|split]].
    + unfold handle_close_all. rewrite try_reraise.
      rewrite (bind_val _ _ _ _ _ Hall). rewrite Hd in Hl.
      exact (bind_exc _ _ _ _ _ Hl).
    + exact Hd.
    + reflexivity.
    + reflexivity.
Qed.


(** X8.  When the exit decision of a check finds a trigger, and the
    close goes through (paper mode, or an exchange that accepts), the
    check logs that trigger once, marks the position CLOSED with the
    trigger as exit reason and removes it from the set; in paper mode no
    order is sent. *)
Theorem check_position_exit_closes (E : Env) w r p reason :
  heap w !! r = Some p -> refs_valid w ->
  PrimFloat.eqb (entry_price p) 0%float = false ->
  exit_decision (prepared p) = Some reason ->
  ENABLE_TRADING E = false \/ (forall t, order_accepted E t = true) ->
  exists w' t,
    _check_position E r w = (Val tt, w') /\
    heap w' = <[r := closed_as reason (utcnow E t) (prepared p)]> (heap w) /\
    positions w' = dict_del (position_id p) (positions w) /\
    triggers w' = triggers w ++ [(position_id p, reason)] /\
    (ENABLE_TRADING E = false -> gateway w' = gateway w).
Proof. apply check_position_exit_run. Qed.

(** X9.  A trade that takes the price to or beyond the stop-loss level of
    a registered position, followed by a check of that position, closes
    it: the check logs STOP_LOSS, whatever the trailing stop and the
    take-profit say, the position is marked CLOSED at that price with
    exit reason STOP_LOSS, and its identifier is no longer registered. *)
Theorem stop_loss_after_price_update (E : Env) w r p price :
  well_formed w ->
  dict_get (position_id p) (positions w) = Some r ->
  heap w !! r = Some p ->
  PrimFloat.eqb (entry_price p) 0%float = false ->
  should_stop_loss (set_current_price price p) = true ->
  ENABLE_TRADING E = false \/ (forall t, order_accepted E t = true) ->
  exists w1 w2 q,
    _on_price_update (product_id p) price w = (Val tt, w1) /\
    _check_position E r w1 = (Val tt, w2) /\
    triggers w2 = triggers w ++ [(position_id p, STOP_LOSS)] /\
    dict_get (position_id p) (positions w2) = None /\
    heap w2 !! r = Some q /\
    status q = CLOSED /\ exit_reason q = Some STOP_LOSS /\
    current_price q = price.
Proof.
  intros [Hwf Hk] Hid H H0 Hsl Hmode.
  pose proof (keyed_refs_valid w Hk) as Hv.
  destruct (update_each_run (product_id p) price (dict_values (positions w)) w)
    as (h & Hrun & Hlen & Hobj).
  { unfold dict_values. now apply List.Forall_map. }
  set (q0 := set_current_price price p) in *.
  assert (Hq0 : h !! r = Some q0).
  { rewrite (proj1 (Hobj _ _ H)).
    - unfold repriced. now rewrite String.eqb_refl.
    - apply dict_get_In in Hid. unfold dict_values.
      change r with (snd (position_id p, r)). now apply in_map. }
  set (w1 := with_heap h w) in *.
  assert (Hv1 : refs_valid w1).
  { apply (refs_valid_frame w); [exact Hlen | reflexivity | exact Hv]. }
  assert (Hexit : exit_decision (prepared q0) = Some STOP_LOSS).
  { apply exit_decision_priority.
    now rewrite (proj1 (same_levels_triggers _ _ (prepared_levels q0))). }
  destruct (check_position_exit_run E w1 r q0 STOP_LOSS Hq0 Hv1 H0 Hexit Hmode)
    as (w2 & t & Hcheck & Hh & Hp & Ht & _).
  exists w1, w2, (closed_as STOP_LOSS (utcnow E t) (prepared q0)).
  split; [exact Hrun|]. split; [exact Hcheck|].
  split; [exact Ht|]. split; [|split; [|repeat split]].
  - rewrite Hp. simpl. now apply dict_get_del_eq.
  - rewrite Hh. apply list_lookup_insert_eq. eapply lookup_lt_Some; eauto.
  - simpl. apply (prepared_levels q0).
Qed.


(** X7.  A check that finds the activation price reached on a position
    that is not trailing yet arms the trailing stop: the position becomes
    TRAILING with its stop at the candidate computed from the current
    price, and the position set is saved, once (the ratchet that follows
    finds the stop where the activation put it).  This is for a candidate
    that is a number and a check that does not exit. *)
Theorem check_position_arms (E : Env) w r p :
  heap w !! r = Some p -> refs_valid w ->
  PrimFloat.eqb (entry_price p) 0%float = false ->
  trailing_active p = false ->
  should_activate_trailing p = true ->
  PrimFloat.eqb (candidate_stop p) (candidate_stop p) = true ->
  exit_decision (prepared p) = None ->
  exists items,
    snapshot (with_heap (<[r := prepared p]> (heap w)) w) = Some items /\
    _check_position E r w =
      (Val tt, saved E items (with_heap (<[r := prepared p]> (heap w)) w)) /\
    prepared p = arm_trailing (snd (update_pnl p)) /\
    status (prepared p) = TRAILING /\
    trailing_active (prepared p) = true /\
    trailing_stop_price (prepared p) = candidate_stop p.
Proof.
  intros H Hv H0 Hoff Hreach Hnum Hexit.
  pose proof (check_pnl_run w r p H) as Hpnl.
  rewrite update_pnl_raises, H0 in Hpnl.
  destruct (update_pnl_keeps p) as (Hta & _ & Hsa & _).
  assert (Hcand : candidate_stop (snd (update_pnl p)) = candidate_stop p).
  { destruct (update_pnl_shape p) as (a & b & ->). reflexivity. }
  set (p1 := snd (update_pnl p)) in *.
  rewrite Hoff in Hta. rewrite Hreach in Hsa.
  assert (Hprep : prepared p = arm_trailing p1).
  { unfold prepared. cbv zeta. fold p1. rewrite Hta, Hsa. simpl.
    apply update_trailing_stop_armed. }
  rewrite Hprep in *.
  set (p2 := arm_trailing p1) in *.
  set (w1 := with_heap (<[r := p1]> (heap w)) w) in *.
  set (w2 := with_heap (<[r := p2]> (heap w)) w).
  assert (Hlt : r < length (heap w)) by (eapply lookup_lt_Some; eauto).
  assert (H1 : heap w1 !! r = Some p1) by exact (lookup_written _ _ _ _ H).
  assert (H2 : heap w2 !! r = Some p2) by exact (lookup_written _ _ _ _ H).
  assert (Hv2 : refs_valid w2).
  { apply (refs_valid_frame w); [apply length_insert | reflexivity | exact Hv]. }
  destruct (refs_valid_snapshot w2 Hv2) as [items Hs].
  exists items. split; [exact Hs|].
  split; [|split; [reflexivity|split; [reflexivity|split; [reflexivity|]]]].
  2:{ subst p2. now rewrite arm_trailing_stop. }
  set (w3 := saved E items w2).
  assert (Hact : check_activation E r w1 = (Val tt, w3)).
  { unfold check_activation. rewrite (bind_val _ _ _ _ _ (read_run _ _ _ H1)).
    rewrite Hta, Hsa. simpl.
    rewrite (bind_val _ _ _ _ _ (write_run _ _ _ p2 H1)).
    assert (Hw : with_heap (<[r := p2]> (heap w1)) w1 = w2).
    { subst w1 w2. unfold with_heap; simpl.
      now rewrite list_insert_insert_eq. }
    rewrite Hw. now apply save_run. }
  assert (H3 : heap w3 !! r = Some p2).
  { subst w3. now rewrite heap_saved. }
  assert (Hrat : check_ratchet E r w3 = (Val tt, w3)).
  { unfold check_ratchet. rewrite (bind_val _ _ _ _ _ (read_run _ _ _ H3)).
    change (trailing_active p2) with true. cbv iota.
    rewrite (bind_val _ _ _ _ _ (write_run _ _ _ (update_trailing_stop p2) H3)).
    subst p2. rewrite update_trailing_stop_armed.
    rewrite (list_insert_id _ _ _ H3).
    assert (Hw : with_heap (heap w3) w3 = w3) by now destruct w3.
    rewrite Hw, (bind_val _ _ _ _ _ (read_run _ _ _ H3)).
    unfold py_ne. rewrite arm_trailing_stop, Hcand, Hnum. reflexivity. }
  unfold _check_position, try_except.
  rewrite (bind_val _ _ _ _ _ Hpnl), (bind_val _ _ _ _ _ Hact),
    (bind_val _ _ _ _ _ Hrat).
  unfold check_exit. rewrite (bind_val _ _ _ _ _ (read_run _ _ _ H3)).
  now rewrite Hexit.
Qed.


End EngineExtras.


(** ** The properties on sample data *)

Lemma epoch_time_roundtrip (t : @datetime epoch_time) :
  @fromisoformat epoch_time (@isoformat epoch_time t) = Some t.
Proof.
  simpl. rewrite NilEmpty.usu. simpl. now rewrite Unsigned.of_to.
Qed.

Lemma one_long_refs_valid : refs_valid one_long.
Proof. unfold refs_valid; simpl. repeat constructor. Qed.

Lemma one_long_keyed : keyed_by_id one_long.
Proof.
  unfold keyed_by_id; simpl. repeat constructor.
  eexists; split; reflexivity.
Qed.

Lemma one_long_wf : dict_wf (positions one_long).
Proof. unfold dict_wf; simpl. apply NoDup_singleton. Qed.

Lemma check_position_priority_witness :
  (exists w',
     _check_position paper_env 0 one_crossed = (Val tt, w') /\
     triggers w' = triggers one_crossed ++ chosen_exit crossed_long) /\
  chosen_exit crossed_long = [("p1", STOP_LOSS)].
Proof.
  assert (Hv : refs_valid one_crossed)
    by (unfold refs_valid; simpl; repeat constructor).
  split.
  - exact (proj1 (check_position_priority paper_env one_crossed 0 crossed_long
                    eq_refl Hv)).
  - exact (proj1 (proj1 (proj2 (proj2 (check_position_priority
                                         paper_env one_crossed 0 crossed_long
                                         eq_refl Hv)))
                        eq_refl eq_refl)).
Defined.

Lemma add_position_inserts_or_replaces_witness :
  exists w',
    add_position paper_env 1 same_id_twice = (Val tt, w') /\
    heap w' = heap same_id_twice /\
    positions w' = dict_set "p1" 1 (positions same_id_twice).
Proof.
  assert (Hv : refs_valid same_id_twice)
    by (unfold refs_valid; simpl; repeat constructor).
  destruct (add_position_inserts_or_replaces
              paper_env same_id_twice 1
              (sample_position "p1" "ETH-USD" "SHORT" 100%float)
              eq_refl Hv)
    as (w' & Hrun & Hh & Hp & _).
  exists w'. repeat split; assumption.
Defined.

(** The claim of C3 fails on a registered identifier: the call returns
    normally and the position registered before is replaced. *)
Lemma add_position_replaces_registered :
  lookup_position "p1" same_id_twice
    = Some (sample_position "p1" "BTC-USD" "LONG" 100%float) /\
  fst (add_position paper_env 1 same_id_twice) = Val tt /\
  positions (snd (add_position paper_env 1 same_id_twice)) = [("p1", 1)] /\
  lookup_position "p1" (snd (add_position paper_env 1 same_id_twice))
    = Some (sample_position "p1" "ETH-USD" "SHORT" 100%float).
Proof. repeat split. Qed.

Lemma close_position_gateway_error_witness :
  exists w',
    _close_position (live_env false) 0 STOP_LOSS one_long
      = (Exc GatewayError, w') /\
    positions w' = positions one_long /\
    heap w' = heap one_long /\
    store w' = store one_long.
Proof.
  exact (proj1 (close_position_gateway_error_keeps_position
                  (live_env false) one_long 0
                  (sample_position "p1" "BTC-USD" "LONG" 100%float)
                  STOP_LOSS eq_refl eq_refl eq_refl)).
Defined.

Lemma save_load_roundtrip_witness :
  exists w1 w2,
    _save_positions paper_env one_long = (Val tt, w1) /\
    PositionManager_init (boot (store w1)) = (Val tt, w2) /\
    snapshot w2 = snapshot one_long.
Proof.
  destruct (save_load_roundtrip
              paper_env one_long
              [("p1", sample_position "p1" "BTC-USD" "LONG" 100%float)]
              epoch_time_roundtrip eq_refl one_long_wf eq_refl)
    as (w1 & w2 & Hsave & _ & Hinit & _ & Hopen).
  exists w1, w2. repeat split; [exact Hsave | exact Hinit |].
  apply Hopen. repeat constructor.
Defined.

(** The claim of C6 fails on the two attributes the store does not hold: a
    set with a position marked closed (here registered through
    [add_position]) comes back with [closed_at] and [exit_reason] unset. *)
Lemma save_load_drops_exit_reason :
  positions (snd (add_position paper_env 0 (world_of [closed_position] [])))
    = positions one_closed /\
  snapshot one_closed = Some [("p1", closed_position)] /\
  exit_reason closed_position = Some MANUAL /\
  closed_at closed_position = Some (18%nat : @datetime epoch_time) /\
  snapshot
    (snd (PositionManager_init
            (boot (store (snd (_save_positions paper_env one_closed))))))
    = Some [("p1", reopened closed_position)] /\
  exit_reason (reopened closed_position) = None /\
  closed_at (reopened closed_position) = None.
Proof. repeat split. Qed.

Lemma close_position_manual_twice_witness :
  exists w1,
    close_position_manual paper_env "p1" one_long = (Val true, w1) /\
    close_position_manual paper_env "p1" w1 = (Val false, w1).
Proof.
  destruct (proj1 (close_position_manual_twice
                     paper_env one_long "p1" one_long_wf one_long_keyed)
                  0 eq_refl (or_introl eq_refl))
    as (w1 & H1 & H2 & _).
  exists w1. split; assumption.
Defined.

Lemma close_position_paper_mode_witness :
  exists w',
    _close_position paper_env 0 TAKE_PROFIT one_long = (Val tt, w') /\
    gateway w' = gateway one_long /\
    dict_get "p1" (positions w') = None.
Proof.
  destruct (close_position_paper_mode
              paper_env one_long 0
              (sample_position "p1" "BTC-USD" "LONG" 100%float) TAKE_PROFIT
              eq_refl eq_refl one_long_refs_valid one_long_wf eq_refl)
    as (w' & Hrun & Hg & _ & _ & _ & _ & _ & Hgone & _).
  exists w'. repeat split; assumption.
Defined.

Lemma load_never_raises_witness :
  exists w',
    PositionManager_init (T := epoch_time) (boot partly_invalid_store)
      = (Val tt, w') /\
    snapshot w' = Some (loaded partly_invalid_store) /\
    positions w' <> [].
Proof.
  destruct (load_never_raises (T := epoch_time) partly_invalid_store)
    as (w' & Hinit & Hs & _ & _ & Hfirst).
  exists w'. split; [exact Hinit|]. split; [exact Hs|].
  exact (proj2 (Hfirst _ _ _ _ eq_refl eq_refl)).
Defined.

(** The claim of C9 fails on a partly invalid store: the second entry is
    rejected, and the manager starts with the first position, not with an
    empty set. *)
Lemma load_partly_invalid_keeps_first :
  of_entry (T := epoch_time) NotARecord = Raise TypeError /\
  fst (PositionManager_init (T := epoch_time) (boot partly_invalid_store))
    = Val tt /\
  snapshot (snd (PositionManager_init (boot partly_invalid_store)))
    = Some [("p1", sample_position "p1" "BTC-USD" "LONG" 100%float)].
Proof. repeat split. Qed.

(** C10 on a concrete request: in paper mode the validated EXIT_LONG alert
    is answered with status 500 instead of the paper-trade response of
    lines 134-141; the state is unchanged. *)
Lemma webhook_paper_exit_long_is_500 :
  ENABLE_TRADING paper_env = false /\
  webhook paper_env exit_long_alert one_long
    = (Exc (HTTPException 500), one_long).
Proof. split; reflexivity. Qed.

Lemma webhook_paper_mode_frame_witness :
  snd (webhook paper_env exit_long_alert one_long) = one_long.
Proof.
  exact (proj1 (webhook_paper_mode_frame paper_env exit_long_alert one_long
                  eq_refl)).
Defined.

Lemma webhook_validated_alert_500_witness :
  webhook (live_env true) exit_long_alert one_long
    = (Exc (HTTPException 500), one_long).
Proof.
  exact (webhook_validated_alert_500 (live_env true) exit_long_alert one_long
           (ex_intro _ EXIT_LONG eq_refl)).
Defined.

(** *** Further properties on sample data *)

Lemma one_long_well_formed : well_formed one_long.
Proof. split; [exact one_long_wf | exact one_long_keyed]. Qed.

Lemma one_crossed_well_formed : well_formed one_crossed.
Proof.
  split.
  - unfold dict_wf; simpl. apply NoDup_singleton.
  - unfold keyed_by_id; simpl. repeat constructor.
    eexists; split; reflexivity.
Qed.

Lemma two_positions_well_formed : well_formed two_positions.
Proof.
  split.
  - unfold dict_wf; simpl. apply NoDup_cons. split; [|apply NoDup_singleton].
    rewrite list_elem_of_In. simpl. intros [H | []]. discriminate H.
  - unfold keyed_by_id; simpl.
    repeat constructor; eexists; split; reflexivity.
Qed.

Lemma check_position_zero_entry_witness :
  _check_position paper_env 0 one_zero_entry =
  (Val tt,
   with_heap (<[0 := set_pnl (pnl (snd (update_pnl zero_entry_long)))
                             zero_entry_long]> (heap one_zero_entry))
             one_zero_entry).
Proof.
  exact (check_position_zero_entry paper_env one_zero_entry 0 zero_entry_long
           eq_refl eq_refl).
Defined.

Lemma check_position_quiet_witness :
  _check_position paper_env 0 one_long =
  (Val tt,
   with_heap (<[0 := prepared (sample_position "p1" "BTC-USD" "LONG" 100%float)]>
                (heap one_long)) one_long).
Proof.
  apply (check_position_quiet paper_env one_long 0
           (sample_position "p1" "BTC-USD" "LONG" 100%float));
    [reflexivity | reflexivity | reflexivity
     | intros Hc; discriminate Hc | reflexivity].
Defined.

Lemma monitor_pass_keeps_invariant_witness :
  exists w',
    _monitor_pass paper_env one_crossed = (Val tt, w') /\
    well_formed w' /\
    length (heap w') = length (heap one_crossed) /\
    (forall kr, In kr (positions w') -> In kr (positions one_crossed)) /\
    (ENABLE_TRADING paper_env = false -> gateway w' = gateway one_crossed).
Proof.
  exact (proj2 (monitor_pass_keeps_invariant paper_env one_crossed
                  one_crossed_well_formed)).
Defined.

Lemma on_price_update_reprices_witness :
  exists h,
    _on_price_update "BTC-USD" 101%float two_positions
      = (Val tt, with_heap h two_positions) /\
    snapshot (with_heap h two_positions)
      = Some [("p1", sample_position "p1" "BTC-USD" "LONG" 101%float);
              ("p2", sample_position "p2" "ETH-USD" "SHORT" 100%float)] /\
    (forall r, ~ In r (dict_values (positions two_positions)) ->
               h !! r = heap two_positions !! r).
Proof.
  exact (on_price_update_reprices two_positions "BTC-USD" 101%float
           [("p1", sample_position "p1" "BTC-USD" "LONG" 100%float);
            ("p2", sample_position "p2" "ETH-USD" "SHORT" 100%float)]
           eq_refl).
Defined.

Lemma get_active_products_unique_witness :
  exists products,
    get_active_products two_positions = (Val products, two_positions) /\
    List.NoDup products /\
    (forall s, In s products <->
       exists kp,
         In kp [("p1", sample_position "p1" "BTC-USD" "LONG" 100%float);
                ("p2", sample_position "p2" "ETH-USD" "SHORT" 100%float)] /\
         product_id (snd kp) = s).
Proof.
  exact (get_active_products_unique two_positions
           [("p1", sample_position "p1" "BTC-USD" "LONG" 100%float);
            ("p2", sample_position "p2" "ETH-USD" "SHORT" 100%float)]
           eq_refl).
Defined.

Lemma remove_position_pops_witness :
  exists w',
    remove_position paper_env "p1" one_long = (Val (Some 0), w') /\
    positions w' = [].
Proof.
  destruct (remove_position_pops paper_env one_long "p1" one_long_well_formed)
    as (w' & Hrun & Hp & _).
  exists w'. split; [exact Hrun | exact Hp].
Defined.

Lemma close_all_positions_empties_witness :
  exists w',
    close_all_positions paper_env two_positions = (Val tt, w') /\
    positions w' = [] /\ gateway w' = [].
Proof.
  destruct (close_all_positions_empties paper_env two_positions
              two_positions_well_formed (or_introl eq_refl))
    as (w' & Hrun & Hp & Hg & _).
  exists w'. split; [exact Hrun|]. split; [exact Hp | exact (Hg eq_refl)].
Defined.

Lemma close_all_positions_stops_at_refusal_witness :
  close_all_positions (live_env false) two_positions =
  (Exc GatewayError,
   tick (with_gateway [CloseOrder "BTC-USD" "SELL" 0.5%float] two_positions)).
Proof.
  exact (close_all_positions_stops_at_refusal (live_env false) two_positions
           "p1" 0 (sample_position "p1" "BTC-USD" "LONG" 100%float)
           [("p2", 1)] eq_refl eq_refl eq_refl eq_refl).
Defined.

Lemma handle_exit_first_match_witness :
  exists w',
    handle_exit paper_env exit_long_alert "LONG" one_long
      = (Val (Closed "LONG" "p1" "BTC-USD" 0%float 0%float), w') /\
    positions w' = [].
Proof.
  pose proof (handle_exit_first_match paper_env one_long exit_long_alert "LONG"
                [("p1", sample_position "p1" "BTC-USD" "LONG" 100%float)]
                one_long_well_formed eq_refl) as H.
  hnf in H. destruct H as (r & _ & _ & Hok & _).
  destruct (Hok (or_introl eq_refl)) as (w' & t & Hrun & _ & Hpos).
  exists w'. split; [exact Hrun | exact Hpos].
Defined.

Lemma handle_entry_rejected_witness :
  handle_entry (live_env true) true (long_alert "BTC-USD") one_long
    = (Exc (HTTPException 400), one_long).
Proof.
  exact (proj1 (handle_entry_rejected (live_env true) one_long true
                  (long_alert "BTC-USD")
                  [("p1", sample_position "p1" "BTC-USD" "LONG" 100%float)]
                  eq_refl) eq_refl).
Defined.

Lemma handle_entry_untracked_order_witness :
  fst (handle_entry no_quote_env true (long_alert "ETH-USD") one_long)
    = Exc ZeroDivisionError /\
  positions (snd (handle_entry no_quote_env true (long_alert "ETH-USD")
                               one_long)) = positions one_long /\
  gateway (snd (handle_entry no_quote_env true (long_alert "ETH-USD")
                             one_long))
    = [MarketOrder "ETH-USD" "BUY" 100%float; GetProduct "ETH-USD"].
Proof.
  rewrite (handle_entry_untracked_order no_quote_env one_long true
             (long_alert "ETH-USD")
             [("p1", sample_position "p1" "BTC-USD" "LONG" 100%float)]
             eq_refl eq_refl eq_refl (or_introl eq_refl)).
  split; [reflexivity | split; reflexivity].
Defined.

Lemma handle_entry_opens_witness :
  exists w',
    handle_entry (live_env true) true (long_alert "ETH-USD") one_long
      = (Val (Opened "LONG" "2" "ETH-USD" 100%float 1%float), w') /\
    positions w' = [("p1", 0); ("2", 1)].
Proof.
  pose proof (handle_entry_opens (live_env true) one_long true
                (long_alert "ETH-USD")
                [("p1", sample_position "p1" "BTC-USD" "LONG" 100%float)]
                1.5%float 1.5%float 0.75%float
                eq_refl eq_refl eq_refl eq_refl eq_refl eq_refl eq_refl) as H.
  cbv zeta in H. destruct H as (w' & products & Hrun & _ & Hp & _).
  exists w'. split; [exact Hrun | exact Hp].
Defined.

Lemma webhook_raises_only_500_witness :
  webhook (live_env true) (long_alert "BTC-USD") one_long
    = (Exc (HTTPException 500), one_long).
Proof.
  exact (proj2 (webhook_raises_only_500 (live_env true) one_long
                  (long_alert "BTC-USD"))
               LONG
               [("p1", sample_position "p1" "BTC-USD" "LONG" 100%float)]
               eq_refl eq_refl (or_introl eq_refl) eq_refl eq_refl).
Defined.

Lemma close_position_endpoint_never_404_witness :
  close_position_endpoint paper_env "p9" one_long
    = (Exc (HTTPException 500), one_long).
Proof.
  exact (proj1 (proj2 (close_position_endpoint_never_404 paper_env one_long
                         "p9")) eq_refl).
Defined.

Lemma start_monitoring_never_raises_witness :
  exists w',
    start_monitoring no_feed_env monitor_off one_long
      = (Val {| monitoring := true; task_created := true |}, w') /\
    positions w' = positions one_long.
Proof.
  destruct (start_monitoring_never_raises no_feed_env one_long monitor_off
              [("p1", sample_position "p1" "BTC-USD" "LONG" 100%float)]
              eq_refl)
    as (w' & Hrun & _ & Hp & _).
  exists w'. split; [exact Hrun | exact Hp].
Defined.

Lemma operations_keep_invariant_witness :
  well_formed (snd (close_position_manual (live_env false) "p1" one_long)).
Proof.
  exact (proj1 (proj2 (proj2 (proj2
           (operations_keep_invariant (live_env false) one_long
              one_long_well_formed)))) "p1").
Defined.

Lemma startup_invariant_witness :
  exists w' : @World epoch_time,
    PositionManager_init
      (boot (serialize
               [("p1", sample_position "p1" "BTC-USD" "LONG" 100%float)]))
      = (Val tt, w') /\
    well_formed w'.
Proof.
  destruct (@startup_invariant epoch_time
              (serialize
                 [("p1", sample_position "p1" "BTC-USD" "LONG" 100%float)]))
    as (w' & Hrun & _ & _ & Hsaved).
  exists w'. split; [exact Hrun|].
  apply (Hsaved [("p1", sample_position "p1" "BTC-USD" "LONG" 100%float)]
                epoch_time_roundtrip).
  - unfold dict_wf; simpl. apply NoDup_singleton.
  - repeat constructor.
  - reflexivity.
Defined.

Lemma close_position_misfiled_stays_witness :
  exists w' t,
    _close_position paper_env 0 MANUAL misfiled_long = (Val tt, w') /\
    heap w' =
      <[0 := closed_as MANUAL (utcnow paper_env t)
               (sample_position "p1" "BTC-USD" "LONG" 100%float)]>
        (heap misfiled_long) /\
    positions w' = positions misfiled_long /\
    store w' = store misfiled_long.
Proof.
  assert (Hv : refs_valid misfiled_long)
    by (unfold refs_valid; simpl; repeat constructor).
  exact (close_position_misfiled_stays paper_env misfiled_long 0
           (sample_position "p1" "BTC-USD" "LONG" 100%float) MANUAL
           eq_refl Hv eq_refl (or_introl eq_refl)).
Defined.

Lemma handle_close_all_closes_in_order_witness :
  exists w',
    handle_close_all paper_env two_positions
      = (Val (ClosedAll ["p1"; "p2"]), w') /\
    positions w' = [].
Proof.
  destruct (proj1 (handle_close_all_closes_in_order paper_env two_positions
                     two_positions_well_formed) (or_introl eq_refl))
    as (w' & Hrun & _ & Hp & _).
  exists w'. split; [exact Hrun | exact Hp].
Defined.

Lemma check_position_exit_closes_witness :
  exists w' t,
    _check_position paper_env 0 one_stopped = (Val tt, w') /\
    heap w' =
      <[0 := closed_as STOP_LOSS (utcnow paper_env t)
               (prepared (sample_position "p1" "BTC-USD" "LONG" 98%float))]>
        (heap one_stopped) /\
    positions w' = [] /\
    triggers w' = [("p1", STOP_LOSS)] /\
    (ENABLE_TRADING paper_env = false -> gateway w' = gateway one_stopped).
Proof.
  assert (Hv : refs_valid one_stopped)
    by (unfold refs_valid; simpl; repeat constructor).
  exact (check_position_exit_closes paper_env one_stopped 0
           (sample_position "p1" "BTC-USD" "LONG" 98%float) STOP_LOSS
           eq_refl Hv eq_refl eq_refl (or_introl eq_refl)).
Defined.

Lemma stop_loss_after_price_update_witness :
  exists w1 w2 q,
    _on_price_update "BTC-USD" 98%float one_long = (Val tt, w1) /\
    _check_position paper_env 0 w1 = (Val tt, w2) /\
    triggers w2 = [("p1", STOP_LOSS)] /\
    dict_get "p1" (positions w2) = None /\
    heap w2 !! 0 = Some q /\
    status q = CLOSED /\ exit_reason q = Some STOP_LOSS /\
    current_price q = 98%float.
Proof.
  exact (stop_loss_after_price_update paper_env one_long 0
           (sample_position "p1" "BTC-USD" "LONG" 100%float) 98%float
           one_long_well_formed eq_refl eq_refl eq_refl eq_refl
           (or_introl eq_refl)).
Defined.

Lemma check_position_arms_witness :
  exists items,
    snapshot (with_heap
                (<[0 := prepared (sample_position "p1" "BTC-USD" "LONG"
                                                  101%float)]>
                   (heap one_reached)) one_reached) = Some items /\
    _check_position paper_env 0 one_reached =
      (Val tt,
       saved paper_env items
         (with_heap
            (<[0 := prepared (sample_position "p1" "BTC-USD" "LONG"
                                              101%float)]>
               (heap one_reached)) one_reached)) /\
    status (prepared (sample_position "p1" "BTC-USD" "LONG" 101%float))
      = TRAILING.
Proof.
  assert (Hv : refs_valid one_reached)
    by (unfold refs_valid; simpl; repeat constructor).
  destruct (check_position_arms paper_env one_reached 0
              (sample_position "p1" "BTC-USD" "LONG" 101%float)
              eq_refl Hv eq_refl eq_refl eq_refl eq_refl eq_refl)
    as (items & Hs & Hrun & _ & Hst & _).
  exists items. split; [exact Hs|]. split; [exact Hrun | exact Hst].
Defined.


(** ** The scenarios of the specification, run on the model *)

(** Scenario B (and D): in paper mode the price falls to the stop-loss
    level; the next pass logs STOP_LOSS, marks the position closed and
    removes it, and no order is sent. *)
Example scenario_stop_loss_paper :
  let w := snd (_monitor_pass paper_env
                  (snd (_on_price_update "BTC-USD" 98.5%float one_long))) in
  triggers w = [("p1", STOP_LOSS)] /\
  positions w = [] /\
  gateway w = [] /\
  option_map (@status epoch_time) (object 0 w) = Some CLOSED /\
  option_map (@exit_reason epoch_time) (object 0 w) = Some (Some STOP_LOSS) /\
  store w = Mapping [].
Proof. repeat split. Qed.

(** Scenario A: the price rises past the activation level, which arms the
    trailing stop; at the take-profit level the stop is ratcheted up and the
    pass exits with TAKE_PROFIT. *)
Example scenario_trailing_then_take_profit :
  let w1 := snd (_monitor_pass paper_env
                   (snd (_on_price_update "BTC-USD" 101%float one_long))) in
  let w2 := snd (_monitor_pass paper_env
                   (snd (_on_price_update "BTC-USD" 101.5%float w1))) in
  option_map (@status epoch_time) (object 0 w1) = Some TRAILING /\
  option_map (@trailing_stop_price epoch_time) (object 0 w1)
    = Some (101 * (1 - 0.75 / 100))%float /\
  triggers w1 = [] /\
  option_map (@trailing_stop_price epoch_time) (object 0 w2)
    = Some (101.5 * (1 - 0.75 / 100))%float /\
  triggers w2 = [("p1", TAKE_PROFIT)] /\
  positions w2 = [].
Proof. repeat split. Qed.

(** A refused closing order: the trigger is logged, the order was sent, and
    the position is still monitored; the next pass, with the exchange
    accepting, closes it. *)
Example scenario_refused_then_retried :
  let w1 := snd (_monitor_pass (live_env false)
                   (snd (_on_price_update "BTC-USD" 98.5%float one_long))) in
  let w2 := snd (_monitor_pass (live_env true) w1) in
  positions w1 = [("p1", 0)] /\
  option_map (@status epoch_time) (object 0 w1) = Some ACTIVE /\
  gateway w1 = [CloseOrder "BTC-USD" "SELL" 0.5%float] /\
  positions w2 = [] /\
  triggers w2 = [("p1", STOP_LOSS); ("p1", STOP_LOSS)] /\
  gateway w2 = [CloseOrder "BTC-USD" "SELL" 0.5%float;
                CloseOrder "BTC-USD" "SELL" 0.5%float].
Proof. repeat split. Qed.

(** In live mode an alert whose action attribute is an enumeration member
    is routed: a LONG entry sends the order, asks for the price, registers
    the position and subscribes the feed. *)
Example scenario_live_entry :
  let alert :=
    {| alert_action := EnumMember LONG; alert_symbol := "ETH-USD";
       alert_stop_loss_pct := Some 1.5%float;
       alert_take_profit_pct := Some 1.5%float;
       alert_trailing_activation_pct := Some 0.75%float;
       alert_trailing_distance_pct := 0.75%float;
       alert_position_size_usd := 100%float |} in
  let w := snd (webhook (live_env true) alert one_long) in
  fst (webhook (live_env true) alert one_long)
    = Val (Opened "LONG" "2" "ETH-USD" 100%float 1%float) /\
  positions w = [("p1", 0); ("2", 1)] /\
  gateway w = [MarketOrder "ETH-USD" "BUY" 100%float; GetProduct "ETH-USD";
               Subscribe ["BTC-USD"; "ETH-USD"]].
Proof. repeat split. Qed.
